(** * Web auto-reply engine (src/web/auto-reply.ts): a shallow embedding

    The development follows the TypeScript source function by function:
    JavaScript strings are sequences of UTF-16 code units, the
    [Set<string>] of recently sent bodies is an insertion-ordered list,
    the [Map] of group histories is a finite map, and the asynchronous
    collaborators (listener, resolver, message senders) are scripted
    outcomes threaded through explicit state. *)

From Stdlib Require Import ZArith NArith List Bool Lia String Ascii Sorted.
From stdpp Require Import base option list gmap.

Local Open Scope Z_scope.

(** ** JavaScript strings *)

Module JS.

(** A JavaScript string: its UTF-16 code units. *)
Abbreviation jstring := (list N).

(** ASCII literals. *)
Definition str (s : string) : jstring :=
  map N_of_ascii (list_ascii_of_string s).

Definition jstring_eqb (a b : jstring) : bool := bool_decide (a = b).

(** Truthiness of a string value: non-empty. *)
Definition truthy (s : jstring) : bool :=
  match s with [] => false | _ => true end.

(** Truthiness of an optional string ([undefined] is falsy). *)
Definition truthy_opt (s : option jstring) : bool :=
  match s with Some s => truthy s | None => false end.

(** [s.startsWith(p)] *)
Fixpoint startsWith (s p : jstring) : bool :=
  match p, s with
  | [], _ => true
  | c :: p', d :: s' => (c =? d)%N && startsWith s' p'
  | _ :: _, [] => false
  end.

(** [s.includes(p)] *)
Fixpoint includes (s p : jstring) : bool :=
  startsWith s p ||
  match s with
  | [] => false
  | _ :: s' => includes s' p
  end.

(** White space and line terminators, the class behind [trim] and [\s]. *)
Definition isSpace (c : N) : bool :=
  bool_decide (c ∈ [9; 10; 11; 12; 13; 32; 160; 5760; 8232; 8233; 8239;
                    8287; 12288; 65279]%N)
  || ((8192 <=? c) && (c <=? 8202))%N.

Definition isDigit (c : N) : bool := ((48 <=? c) && (c <=? 57))%N.

Fixpoint trimStart (s : jstring) : jstring :=
  match s with
  | c :: s' => if isSpace c then trimStart s' else s
  | [] => []
  end.
Definition trimEnd (s : jstring) : jstring := reverse (trimStart (reverse s)).
Definition trim (s : jstring) : jstring := trimEnd (trimStart s).

(** [parts.join(sep)] *)
Fixpoint join (sep : jstring) (parts : list jstring) : jstring :=
  match parts with
  | [] => []
  | [p] => p
  | p :: rest => p ++ sep ++ join sep rest
  end.

(** ASCII case folding, which is what the [i] flag amounts to for a
    pattern made of ASCII letters. *)
Definition asciiLower (c : N) : N :=
  if ((65 <=? c) && (c <=? 90))%N then (c + 32)%N else c.

End JS.
Export JS.

(** ** The echo set: [recentlySent] *)

Module EchoSet.

(** A [Set<string>] iterates in insertion order; adding a member again
    keeps its place. *)
Definition has (s : list jstring) (x : jstring) : bool := bool_decide (x ∈ s).

Definition add (s : list jstring) (x : jstring) : list jstring :=
  if has s x then s else s ++ [x].

Definition delete (s : list jstring) (x : jstring) : list jstring :=
  filter (fun y => y ≠ x) s.

Definition size (s : list jstring) : Z := Z.of_nat (length s).

Definition MAX_RECENT_MESSAGES : Z := 100.

(** [if (recentlySent.size > MAX_RECENT_MESSAGES) { const firstKey =
    recentlySent.values().next().value; if (firstKey)
    recentlySent.delete(firstKey); }] *)
Definition evictOldest (s : list jstring) : list jstring :=
  if size s >? MAX_RECENT_MESSAGES then
    match s with
    | firstKey :: _ => if truthy firstKey then delete s firstKey else s
    | [] => s
    end
  else s.

(** The echo test of both [onMessage] (on the raw body) and
    [processMessage] (on the combined body): a hit deletes the entry. *)
Definition shouldSuppress (s : list jstring) (body : jstring)
  : bool * list jstring :=
  if has s body then (true, delete s body) else (false, s).

(** Bookkeeping after a streamed tool result has been delivered. *)
Definition recordToolSent (s : list jstring) (text : option jstring)
  : list jstring :=
  if truthy_opt text then evictOldest (add s (default [] text)) else s.

(** Bookkeeping after a final reply payload has been delivered: the reply
    text and the combined inbound body are both added, then one eviction
    test runs. *)
Definition recordSent (s : list jstring) (text : option jstring)
    (combinedBody : jstring) : list jstring :=
  if truthy_opt text then
    evictOldest (add (add s (default [] text)) combinedBody)
  else s.

End EchoSet.

(** ** Data model *)

(** [ReplyPayload] (auto-reply/types.ts). *)
Record ReplyPayload := {
  text : option jstring;
  mediaUrl : option jstring;
  mediaUrls : option (list jstring);
  replyToId : option jstring
}.

Inductive ChatType := Direct | Group.

(** The fields of an inbound web message that the handlers read. *)
Record WebInboundMsg := {
  msg_id : option jstring;
  msg_from : jstring;
  msg_to : jstring;
  msg_body : jstring;
  msg_timestamp : option Z;
  msg_chatType : ChatType;
  msg_conversationId : option jstring;
  msg_senderE164 : option jstring;
  msg_senderName : option jstring;
  msg_selfE164 : option jstring;
  msg_selfJid : option jstring;
  msg_mentionedJids : option (list jstring);
  msg_replyToId : option jstring;
  msg_replyToBody : option jstring;
  msg_replyToSender : option jstring;
  msg_mediaType : option jstring
}.

(** A compiled regular expression (flag [i], not global): its [test] and
    its [String.prototype.replace], which rewrites the first match. *)
Record RegExp := {
  re_test : jstring -> bool;
  re_replace : jstring -> jstring -> jstring
}.

Record MentionConfig := {
  mentionRegexes : list RegExp;
  allowFrom : option (list jstring)
}.

Inductive Activation := ActMention | ActAlways.

Record Envelope := {
  env_surface : jstring;
  env_from : jstring;
  env_timestamp : option Z;
  env_body : jstring
}.

Record StripResult := {
  shouldSkip : bool;
  strip_text : jstring;
  didStrip : bool
}.

(** [ReconnectPolicy] (web/reconnect.ts). The loop reads [maxAttempts]
    only and hands the record to [computeBackoff]; [factor], a float in
    the source, is kept as an integer. *)
Record ReconnectPolicy := {
  initialMs : Z;
  maxMs : Z;
  factor : Z;
  maxAttempts : Z
}.

(** A value thrown or used as a rejection reason. *)
Inductive JsError :=
| ErrorObject (message : jstring)     (* [err instanceof Error] *)
| OtherThrown (shown : jstring).

(** Functions and constants imported by auto-reply.ts from modules that
    are not part of the verified unit; every definition below is
    parametric in them. *)
Class Externals := {
  (* String.prototype.toLowerCase *)
  toLowerCase : jstring -> jstring;
  (* ../utils.js *)
  isSelfChatMode : option jstring -> option (list jstring) -> bool;
  jidToE164 : jstring -> option jstring;
  normalizeE164 : jstring -> jstring;
  (* ../auto-reply/group-activation.js *)
  parseActivationCommand_hasCommand : jstring -> bool;
  normalizeGroupActivation : option jstring -> option Activation;
  (* ../auto-reply/chunk.js *)
  chunkText : jstring -> Z -> list jstring;
  (* ../auto-reply/envelope.js *)
  formatAgentEnvelope : Envelope -> jstring;
  (* ../auto-reply/tokens.js, ../auto-reply/heartbeat.js *)
  SILENT_REPLY_TOKEN : jstring;
  HEARTBEAT_TOKEN : jstring;
  stripHeartbeatToken : jstring -> StripResult;
  (* ./session.js *)
  formatError : JsError -> jstring;
  (* ./reconnect.js *)
  computeBackoff : ReconnectPolicy -> Z -> Z
}.

(** The session store on disk: session key to its [groupActivation]. *)
Abbreviation SessionStore := (gmap jstring (option jstring)).

Section Model.

Context `{Ext : Externals}.

Definition WEB_TEXT_LIMIT : Z := 4000.
Definition DEFAULT_GROUP_HISTORY_LIMIT : Z := 50.

(** [payload.mediaUrls?.length] as a condition. *)
Definition hasMediaUrls (p : ReplyPayload) : bool :=
  match mediaUrls p with
  | Some (_ :: _) => true
  | _ => false
  end.

(** [Boolean(payload.mediaUrl || (payload.mediaUrls?.length ?? 0) > 0)] *)
Definition hasMedia (p : ReplyPayload) : bool :=
  truthy_opt (mediaUrl p) || hasMediaUrls p.

Definition isSilentReply (payload : option ReplyPayload) : bool :=
  match payload with
  | None => false
  | Some p =>
      let text := trim <$> text p in
      if negb (truthy_opt text)
         || negb (bool_decide (text = Some SILENT_REPLY_TOKEN))
      then false
      else if truthy_opt (mediaUrl p) || hasMediaUrls p then false
      else true
  end.

(** *** Mention detection *)

(** Zero-width and directionality markers: U+200B to U+200F, U+202A to
    U+202E and U+2060 to U+206F. *)
Definition isInvisibleMarker (c : N) : bool :=
  (((8203 <=? c) && (c <=? 8207))
   || ((8234 <=? c) && (c <=? 8238))
   || ((8288 <=? c) && (c <=? 8303)))%N.

Definition clean (text : jstring) : jstring :=
  toLowerCase (filter (fun c => isInvisibleMarker c = false) text).

(** [s.replace(/\D/g, "")] and [s.replace(/[^\d]/g, "")] *)
Definition digitsOf (s : jstring) : jstring :=
  filter (fun c => isDigit c = true) s.

(** [s.replace(/[\s-]/g, "")] *)
Definition removeSpacesAndDashes (s : jstring) : jstring :=
  filter (fun c => (isSpace c || (c =? 45)%N) = false) s.

Fixpoint dropLeadingDs (s : jstring) : jstring :=
  match s with
  | c :: s' => if (c =? 100)%N then dropLeadingDs s' else s
  | [] => []
  end.

(** [selfJid.replace(/:\\d+/, "")]: the pattern, as written in the
    source, is a colon, a backslash and a run of the letter d. *)
Fixpoint replaceColonBackslashDs (s : jstring) : jstring :=
  if startsWith s (str ":\d") then dropLeadingDs (drop 3 s)
  else match s with
       | c :: s' => c :: replaceColonBackslashDs s'
       | [] => []
       end.

(** [new RegExp(`\\+?${digits}`, "i").test(s)] for a run of digits. *)
Definition testOptionalPlusDigits (digits s : jstring) : bool :=
  includes s (43%N :: digits) || includes s digits.

(** The identity-tag path of [isBotMentioned]. *)
Definition mentionedByJid (msg : WebInboundMsg) : bool :=
  let normalizedMentions :=
    filter (fun j => truthy j = true)
      (map (fun jid => default jid (jidToE164 jid))
           (default [] (msg_mentionedJids msg))) in
  (truthy_opt (msg_selfE164 msg)
   && bool_decide (default [] (msg_selfE164 msg) ∈ normalizedMentions))
  || (truthy_opt (msg_selfJid msg) && truthy_opt (msg_selfE164 msg)
      && bool_decide
           (replaceColonBackslashDs (default [] (msg_selfJid msg))
              ∈ normalizedMentions)).

(** The fallback: the body contains our own number. *)
Definition mentionedByDigits (msg : WebInboundMsg) : bool :=
  match msg_selfE164 msg with
  | Some selfE164 =>
      let selfDigits := digitsOf selfE164 in
      truthy selfE164 && truthy selfDigits
      && (includes (digitsOf (clean (msg_body msg))) selfDigits
          || testOptionalPlusDigits selfDigits
               (removeSpacesAndDashes (msg_body msg)))
  | None => false
  end.

Definition hasMentionedJids (msg : WebInboundMsg) : bool :=
  match msg_mentionedJids msg with
  | Some (_ :: _) => true
  | _ => false
  end.

Definition isBotMentioned (msg : WebInboundMsg) (mentionCfg : MentionConfig)
  : bool :=
  let isSelfChat := isSelfChatMode (msg_selfE164 msg) (allowFrom mentionCfg) in
  if hasMentionedJids msg && negb isSelfChat && mentionedByJid msg then true
  else
    let bodyClean := clean (msg_body msg) in
    if existsb (fun re => re_test re bodyClean) (mentionRegexes mentionCfg)
    then true
    else mentionedByDigits msg.

(** *** Reply delivery *)

Inductive MediaKind := KImage | KAudio | KVideo | KOther.

(** What [loadWebMedia] returns. *)
Record WebMedia := {
  media_buffer : list N;
  media_contentType : option jstring;
  media_kind : MediaKind;
  media_fileName : option jstring
}.

(** The argument of [msg.sendMedia]. *)
Record MediaMessage := {
  mm_kind : MediaKind;
  mm_buffer : list N;
  mm_caption : option jstring;
  mm_mimetype : option jstring;
  mm_fileName : option jstring;
  mm_ptt : bool
}.

(** The context object handed to the reply resolver (the fields that are
    computed here; the others are copied from the message). *)
Record MsgContext := {
  ctx_Body : jstring;
  ctx_From : jstring;
  ctx_To : jstring;
  ctx_MessageSid : option jstring;
  ctx_ChatType : ChatType;
  ctx_WasMentioned : option bool
}.

(** Observable effects, in the order they happen. *)
Inductive Event :=
| EvReply (body : jstring) (ok : bool)           (* msg.reply *)
| EvSendMedia (m : MediaMessage) (ok : bool)     (* msg.sendMedia *)
| EvSleep (ms : Z)
| EvMediaFailureLogged (url : jstring)
| EvResolver (ctx : MsgContext)                  (* replyResolver called *)
| EvToolFailureLogged
| EvReplyFailureLogged.

(** The far side of the connection: how the n-th call of [msg.reply] and
    of [msg.sendMedia] settles ([None]: resolved) and what [loadWebMedia]
    yields. *)
Record Network := {
  replyOutcome : nat -> jstring -> option JsError;
  sendMediaOutcome : nat -> MediaMessage -> option JsError;
  loadWebMedia : jstring -> Z -> JsError + WebMedia
}.

(** Asynchronous code over the event log; a rejection keeps the log. *)
Definition Async (A : Type) : Type := list Event -> (JsError + A) * list Event.

Definition ret {A} (a : A) : Async A := fun w => (inr a, w).
Definition throw {A} (e : JsError) : Async A := fun w => (inl e, w).
Definition bind {A B} (m : Async A) (k : A -> Async B) : Async B :=
  fun w => match m w with
           | (inr a, w') => k a w'
           | (inl e, w') => (inl e, w')
           end.
Definition tryCatch {A} (m : Async A) (h : JsError -> Async A) : Async A :=
  fun w => match m w with
           | (inr a, w') => (inr a, w')
           | (inl e, w') => h e w'
           end.
Definition emit (e : Event) : Async unit := fun w => (inr tt, w ++ [e]).

Notation "x <- m ;; k" := (bind m (fun x => k))
  (at level 100, m at next level, right associativity).
Notation "m ;;; k" := (bind m (fun _ => k))
  (at level 100, right associativity).

Definition isReplyEvent (e : Event) : bool :=
  match e with EvReply _ _ => true | _ => false end.
Definition isSendMediaEvent (e : Event) : bool :=
  match e with EvSendMedia _ _ => true | _ => false end.

Definition count (f : Event -> bool) (w : list Event) : nat :=
  length (List.filter f w).

Definition settle (o : option JsError) : JsError + unit :=
  match o with None => inr tt | Some e => inl e end.

Definition reply (net : Network) (body : jstring) : Async unit :=
  fun w =>
    let o := replyOutcome net (count isReplyEvent w) body in
    (settle o, w ++ [EvReply body (bool_decide (o = None))]).

Definition sendMedia (net : Network) (m : MediaMessage) : Async unit :=
  fun w =>
    let o := sendMediaOutcome net (count isSendMediaEvent w) m in
    (settle o, w ++ [EvSendMedia m (bool_decide (o = None))]).

(** [/closed|reset|timed\s*out|disconnect/i.test(errText)] *)
Fixpoint skipSpaces (s : jstring) : jstring :=
  match s with
  | c :: s' => if isSpace c then skipSpaces s' else s
  | [] => []
  end.

Fixpoint includesTimedOut (s : jstring) : bool :=
  (startsWith s (str "timed") && startsWith (skipSpaces (drop 5 s)) (str "out"))
  || match s with
     | _ :: s' => includesTimedOut s'
     | [] => false
     end.

Definition looksTransient (errText : jstring) : bool :=
  let t := map asciiLower errText in
  includes t (str "closed") || includes t (str "reset")
  || includesTimedOut t || includes t (str "disconnect").

(** [sendWithRetry(fn, label)], with its default [maxAttempts = 3]:
    [attempt] counts from 1 and [more] is the number of attempts left
    after this one. *)
Fixpoint sendWithRetryFrom (fn : Async unit) (attempt : Z) (more : nat)
  : Async unit :=
  tryCatch fn (fun err =>
    let shouldRetry := looksTransient (formatError err) in
    match more with
    | O => throw err
    | S more' =>
        if negb shouldRetry then throw err
        else emit (EvSleep (500 * attempt)) ;;;
             sendWithRetryFrom fn (attempt + 1) more'
    end).

Definition sendWithRetry (fn : Async unit) : Async unit :=
  sendWithRetryFrom fn 1 2.

(** [for (const chunk of chunks) await send(chunk)] *)
Fixpoint forEach {A} (l : list A) (body : A -> Async unit) : Async unit :=
  match l with
  | [] => ret tt
  | x :: l' => body x ;;; forEach l' body
  end.

(** [mediaUrl.split("/").pop()] *)
Fixpoint lastSegment (acc s : jstring) : jstring :=
  match s with
  | [] => acc
  | c :: s' => if (c =? 47)%N then lastSegment [] s' else lastSegment (acc ++ [c]) s'
  end.

Definition mediaMessageFor (media : WebMedia) (mediaUrl : jstring)
    (caption : option jstring) : MediaMessage :=
  match media_kind media with
  | KImage => {| mm_kind := KImage; mm_buffer := media_buffer media;
                 mm_caption := caption;
                 mm_mimetype := media_contentType media;
                 mm_fileName := None; mm_ptt := false |}
  | KAudio => {| mm_kind := KAudio; mm_buffer := media_buffer media;
                 mm_caption := caption;
                 mm_mimetype := media_contentType media;
                 mm_fileName := None; mm_ptt := true |}
  | KVideo => {| mm_kind := KVideo; mm_buffer := media_buffer media;
                 mm_caption := caption;
                 mm_mimetype := media_contentType media;
                 mm_fileName := None; mm_ptt := false |}
  | KOther => {| mm_kind := KOther; mm_buffer := media_buffer media;
                 mm_caption := caption;
                 mm_mimetype :=
                   Some (default (str "application/octet-stream")
                           (media_contentType media));
                 mm_fileName :=
                   Some (default (lastSegment [] mediaUrl)
                           (media_fileName media));
                 mm_ptt := false |}
  end.

(** U+26A0 U+FE0F, the warning sign that starts the fallback note. *)
Definition warningSign : jstring := [9888; 65039]%N.

Definition mediaFailedWarning (err : JsError) : jstring :=
  match err with
  | ErrorObject message => warningSign ++ str " Media failed: " ++ message
  | OtherThrown _ => warningSign ++ str " Media failed."
  end.

Definition newline : jstring := [10%N].

(** [remainingText.shift() || undefined] *)
Definition shiftCaption (remainingText : list jstring)
  : option jstring * list jstring :=
  match remainingText with
  | c :: rest => (if truthy c then Some c else None, rest)
  | [] => (None, [])
  end.

(** The [catch] block of the media loop for the first item. *)
Definition mediaFallback (net : Network) (err : JsError)
    (caption : option jstring) (remainingText : list jstring)
  : Async (list jstring) :=
  let warning := mediaFailedWarning err in
  let '(first, remainingText') :=
    match remainingText with
    | c :: rest => (c, rest)                         (* remainingText.shift() *)
    | [] => (default [] caption, [])                 (* ?? caption ?? "" *)
    end in
  let fallbackText :=
    join newline (List.filter truthy [first; warning]) in
  if truthy fallbackText
  then reply net fallbackText ;;; ret remainingText'
  else ret remainingText'.

(** One iteration of [for (const [index, mediaUrl] of mediaList.entries())]. *)
Definition sendOneMedia (net : Network) (maxMediaBytes : Z) (isFirst : bool)
    (mediaUrl : jstring) (remainingText : list jstring)
  : Async (list jstring) :=
  let '(caption, remainingText) :=
    if isFirst then shiftCaption remainingText else (None, remainingText) in
  tryCatch
    (match loadWebMedia net mediaUrl maxMediaBytes with
     | inl err => throw err
     | inr media =>
         sendWithRetry (sendMedia net (mediaMessageFor media mediaUrl caption))
         ;;; ret remainingText
     end)
    (fun err =>
       emit (EvMediaFailureLogged mediaUrl) ;;;
       if isFirst then mediaFallback net err caption remainingText
       else ret remainingText).

Fixpoint mediaLoop (net : Network) (maxMediaBytes : Z) (isFirst : bool)
    (mediaList : list jstring) (remainingText : list jstring)
  : Async (list jstring) :=
  match mediaList with
  | [] => ret remainingText
  | mediaUrl :: rest =>
      remainingText' <- sendOneMedia net maxMediaBytes isFirst mediaUrl
                          remainingText ;;
      mediaLoop net maxMediaBytes false rest remainingText'
  end.

Definition mediaListOf (replyResult : ReplyPayload) : list jstring :=
  if hasMediaUrls replyResult then default [] (mediaUrls replyResult)
  else if truthy_opt (mediaUrl replyResult)
       then [default [] (mediaUrl replyResult)]
       else [].

Definition deliverWebReply (net : Network) (replyResult : ReplyPayload)
    (maxMediaBytes : Z) : Async unit :=
  let textChunks := chunkText (default [] (text replyResult)) WEB_TEXT_LIMIT in
  let mediaList := mediaListOf replyResult in
  match mediaList, textChunks with
  | [], _ :: _ =>
      (* text-only replies *)
      forEach textChunks (fun chunk => sendWithRetry (reply net chunk))
  | _, _ =>
      remainingText <- mediaLoop net maxMediaBytes true mediaList textChunks ;;
      forEach remainingText (fun chunk => reply net chunk)
  end.

(** *** Group history *)

Record HistoryEntry := {
  h_sender : jstring;
  h_body : jstring;
  h_timestamp : option Z
}.

(** [while (history.length > groupHistoryLimit) history.shift();]
    [None] when the fuel runs out. *)
Fixpoint shiftWhileOver (fuel : nat) (limit : Z) (history : list HistoryEntry)
  : option (list HistoryEntry) :=
  if Z.of_nat (length history) >? limit then
    match fuel with
    | O => None
    | S fuel' => shiftWhileOver fuel' limit (tail history)
    end
  else Some history.

(** [history.push(entry)] followed by the eviction loop. One more
    iteration than the array has elements is enough whenever the loop
    ends at all: an empty array that is still over the limit stays so. *)
Definition pushHistory (limit : Z) (history : list HistoryEntry)
    (entry : HistoryEntry) : option (list HistoryEntry) :=
  let history' := history ++ [entry] in
  shiftWhileOver (S (length history')) limit history'.

(** A burst of messages of one conversation, pushed one after the other. *)
Fixpoint pushAll (limit : Z) (history : list HistoryEntry)
    (entries : list HistoryEntry) : option (list HistoryEntry) :=
  match entries with
  | [] => Some history
  | entry :: rest =>
      history' ← pushHistory limit history entry;
      pushAll limit history' rest
  end.

(** *** Monitor configuration and state *)

Record Config := {
  cfg_mention : MentionConfig;
  cfg_historyLimit : option Z;             (* routing.groupChat.historyLimit *)
  cfg_groups : gmap jstring bool;          (* whatsapp.groups[id].requireMention *)
  cfg_messagePrefix : option jstring;      (* messages.messagePrefix *)
  cfg_responsePrefix : option jstring;     (* messages.responsePrefix *)
  cfg_maxMediaBytes : Z
}.

Definition groupHistoryLimit (cfg : Config) : Z :=
  default DEFAULT_GROUP_HISTORY_LIMIT (cfg_historyLimit cfg).

(** The state shared by all message handlers of one monitor. *)
Record MonitorState := {
  recentlySent : list jstring;
  groupHistories : gmap jstring (list HistoryEntry)
}.

Definition conversationIdOf (msg : WebInboundMsg) : jstring :=
  default (msg_from msg) (msg_conversationId msg).

Definition resolveGroupRequireMentionFor (cfg : Config)
    (conversationId : jstring) : bool :=
  match cfg_groups cfg !! conversationId with
  | Some b => b
  | None => default true (cfg_groups cfg !! str "*")
  end.

Definition resolveGroupActivationFor (cfg : Config) (store : SessionStore)
    (conversationId : jstring) : Activation :=
  let key := if startsWith conversationId (str "group:") then conversationId
             else str "whatsapp:group:" ++ conversationId in
  let entry := store !! key in
  let requireMention := resolveGroupRequireMentionFor cfg conversationId in
  let defaultActivation := if requireMention then ActMention else ActAlways in
  default defaultActivation (normalizeGroupActivation (entry ≫= id)).

Definition resolveOwnerList (cfg : Config) (selfE164 : option jstring)
  : list jstring :=
  let raw :=
    match allowFrom (cfg_mention cfg) with
    | Some (e :: l) => e :: l
    | _ => if truthy_opt selfE164 then [default [] selfE164] else []
    end in
  List.filter truthy
    (map normalizeE164
       (List.filter (fun e => truthy e && negb (jstring_eqb e (str "*"))) raw)).

Definition isOwnerSender (cfg : Config) (msg : WebInboundMsg) : bool :=
  let sender := normalizeE164 (default [] (msg_senderE164 msg)) in
  if negb (truthy sender) then false
  else bool_decide (sender ∈ resolveOwnerList cfg (msg_selfE164 msg)).

Definition isStatusCommand (body : jstring) : bool :=
  let trimmed := toLowerCase (trim body) in
  if negb (truthy trimmed) then false
  else jstring_eqb trimmed (str "/status")
       || jstring_eqb trimmed (str "status")
       || startsWith trimmed (str "/status ").

(** [result.replace(new RegExp(`\\+?${digits}`, "g"), " ")] for a
    non-empty run of digits; [skip] counts the code units of the match
    still to be dropped. *)
Fixpoint replaceAllPlusDigits (skip : nat) (digits s : jstring) : jstring :=
  match s with
  | [] => []
  | c :: s' =>
      match skip with
      | S k => replaceAllPlusDigits k digits s'
      | O =>
          if startsWith s (43%N :: digits)
          then 32%N :: replaceAllPlusDigits (length digits) digits s'
          else if startsWith s digits
          then 32%N :: replaceAllPlusDigits (length digits - 1) digits s'
          else c :: replaceAllPlusDigits 0 digits s'
      end
  end.

(** [s.replace(/\s+/g, " ")] *)
Fixpoint collapseSpaces (inRun : bool) (s : jstring) : jstring :=
  match s with
  | [] => []
  | c :: s' =>
      if isSpace c
      then if inRun then collapseSpaces true s'
           else 32%N :: collapseSpaces true s'
      else c :: collapseSpaces false s'
  end.

Definition stripMentionsForCommand (cfg : Config) (text : jstring)
    (selfE164 : option jstring) : jstring :=
  let result :=
    fold_left (fun r re => re_replace re r (str " "))
      (mentionRegexes (cfg_mention cfg)) text in
  let result :=
    match selfE164 with
    | Some self =>
        let digits := digitsOf self in
        if truthy self && truthy digits
        then replaceAllPlusDigits 0 digits result
        else result
    | None => result
    end in
  trim (collapseSpaces false result).

(** *** Building the body sent to the resolver *)

Definition orElse (a b : option jstring) : option jstring :=
  match a with Some _ => a | None => b end.

Definition formatReplyContext (msg : WebInboundMsg) : option jstring :=
  if negb (truthy_opt (msg_replyToBody msg)) then None
  else
    let sender := default (str "unknown sender") (msg_replyToSender msg) in
    let idPart := if truthy_opt (msg_replyToId msg)
                  then str " id:" ++ default [] (msg_replyToId msg) else [] in
    Some (str "[Replying to " ++ sender ++ idPart ++ str "]" ++ newline
          ++ default [] (msg_replyToBody msg) ++ newline ++ str "[/Replying]").

Definition stripWhatsappPrefix (s : jstring) : jstring :=
  if startsWith s (str "whatsapp:") then drop 9 s else s.

Definition isGroup (msg : WebInboundMsg) : bool :=
  match msg_chatType msg with Group => true | Direct => false end.

Definition buildLine (cfg : Config) (msg : WebInboundMsg) : jstring :=
  let messagePrefix :=
    match cfg_messagePrefix cfg with
    | Some p => p
    | None =>
        match allowFrom (cfg_mention cfg) with
        | Some (_ :: _) => []
        | _ => str "[clawdis]"
        end
    end in
  let prefixStr := if truthy messagePrefix then messagePrefix ++ str " " else [] in
  let senderLabel :=
    if isGroup msg
    then default (str "Someone")
           (orElse (msg_senderName msg) (msg_senderE164 msg)) ++ str ": "
    else [] in
  let baseLine :=
    prefixStr ++ senderLabel ++ msg_body msg ++
    match formatReplyContext msg with
    | Some replyContext =>
        if truthy replyContext then newline ++ newline ++ replyContext else []
    | None => []
    end in
  formatAgentEnvelope
    {| env_surface := str "WhatsApp";
       env_from := if isGroup msg then msg_from msg
                   else stripWhatsappPrefix (msg_from msg);
       env_timestamp := msg_timestamp msg;
       env_body := baseLine |}.

(** The two-character sequence backslash, n that the group branch of
    [processMessage] writes between its parts. *)
Definition backslashN : jstring := str "\n".

(** [history.slice(0, -1)] *)
Definition withoutLast (history : list HistoryEntry) : list HistoryEntry :=
  take (length history - 1) history.

Definition combinedBodyOf (cfg : Config) (s : MonitorState)
    (msg : WebInboundMsg) : jstring :=
  if isGroup msg then
    let conversationId := conversationIdOf msg in
    let history := default [] (groupHistories s !! conversationId) in
    let historyWithoutCurrent := withoutLast history in
    let combinedBody :=
      match historyWithoutCurrent with
      | [] => buildLine cfg msg
      | _ :: _ =>
          let historyText :=
            join backslashN
              (map (fun m =>
                      formatAgentEnvelope
                        {| env_surface := str "WhatsApp";
                           env_from := conversationId;
                           env_timestamp := h_timestamp m;
                           env_body := h_sender m ++ str ": " ++ h_body m |})
                   historyWithoutCurrent) in
          str "[Chat messages since your last reply - for context]"
          ++ backslashN ++ historyText ++ backslashN ++ backslashN
          ++ str "[Current message - respond to this]" ++ backslashN
          ++ buildLine cfg msg
      end in
    let senderLabel :=
      if truthy_opt (msg_senderName msg) && truthy_opt (msg_senderE164 msg)
      then default [] (msg_senderName msg) ++ str " ("
           ++ default [] (msg_senderE164 msg) ++ str ")"
      else default (str "Unknown")
             (orElse (msg_senderName msg) (msg_senderE164 msg)) in
    combinedBody ++ backslashN ++ str "[from: " ++ senderLabel ++ str "]"
  else buildLine cfg msg.

(** *** The message handler *)

(** What the resolver returns. *)
Inductive ReplyResult :=
| ReplyUndefined
| ReplyOne (p : ReplyPayload)
| ReplyMany (l : list ReplyPayload).

(** One run of the reply resolver: the payloads it streams through
    [onToolResult], then its return value or the error it throws. *)
Record ResolverRun := {
  run_toolResults : list ReplyPayload;
  run_result : JsError + ReplyResult
}.

Definition replyListOf (r : ReplyResult) : list ReplyPayload :=
  match r with
  | ReplyUndefined => []
  | ReplyOne p => [p]
  | ReplyMany l => l
  end.

Definition withText (p : ReplyPayload) (t : jstring) : ReplyPayload :=
  {| text := Some t; mediaUrl := mediaUrl p; mediaUrls := mediaUrls p;
     replyToId := replyToId p |}.

(** The heartbeat-token step shared by tool results and final replies:
    [None] when the payload is skipped. *)
Definition stripHeartbeat (p : ReplyPayload) : option ReplyPayload :=
  match text p with
  | Some t =>
      if includes t HEARTBEAT_TOKEN then
        let stripped := stripHeartbeatToken t in
        if shouldSkip stripped && negb (hasMedia p) then None
        else Some (withText p (strip_text stripped))
      else Some p
  | None => Some p
  end.

Definition applyResponsePrefix (responsePrefix : option jstring)
    (p : ReplyPayload) : ReplyPayload :=
  match responsePrefix, text p with
  | Some prefix, Some t =>
      if truthy prefix && truthy t
         && negb (jstring_eqb (trim t) HEARTBEAT_TOKEN)
         && negb (startsWith t prefix)
      then withText p (prefix ++ str " " ++ t)
      else p
  | _, _ => p
  end.

(** The two variables that the delivery callbacks of one turn update. *)
Record TurnState := {
  didSendReply : bool;
  turn_recentlySent : list jstring
}.

(** [sendToolResult(payload)]: one link of [toolSendChain]. *)
Definition sendToolResult (net : Network) (cfg : Config)
    (payload : ReplyPayload) (t : TurnState) : Async TurnState :=
  if negb (truthy_opt (text payload)) && negb (truthy_opt (mediaUrl payload))
     && negb (hasMediaUrls payload)
  then ret t
  else if isSilentReply (Some payload) then ret t
  else
    match stripHeartbeat payload with
    | None => ret t
    | Some toolPayload =>
        let toolPayload := applyResponsePrefix (cfg_responsePrefix cfg) toolPayload in
        tryCatch
          (deliverWebReply net toolPayload (cfg_maxMediaBytes cfg) ;;;
           ret {| didSendReply := true;
                  turn_recentlySent :=
                    EchoSet.recordToolSent (turn_recentlySent t)
                      (text toolPayload) |})
          (fun _ => emit EvToolFailureLogged ;;; ret t)
    end.

(** One iteration of [for (const replyPayload of sendableReplies)]. *)
Definition sendFinalReply (net : Network) (cfg : Config)
    (combinedBody : jstring) (payload : ReplyPayload) (t : TurnState)
  : Async TurnState :=
  match stripHeartbeat payload with
  | None => ret t
  | Some replyPayload =>
      let replyPayload := applyResponsePrefix (cfg_responsePrefix cfg) replyPayload in
      tryCatch
        (deliverWebReply net replyPayload (cfg_maxMediaBytes cfg) ;;;
         ret {| didSendReply := true;
                turn_recentlySent :=
                  EchoSet.recordSent (turn_recentlySent t)
                    (text replyPayload) combinedBody |})
        (fun _ => emit EvReplyFailureLogged ;;; ret t)
  end.

Fixpoint foldAsync {A S} (f : A -> S -> Async S) (l : list A) (s : S)
  : Async S :=
  match l with
  | [] => ret s
  | x :: l' => s' <- f x s ;; foldAsync f l' s'
  end.

Definition contextOf (msg : WebInboundMsg) (combinedBody : jstring)
    (wasMentioned : option bool) : MsgContext :=
  {| ctx_Body := combinedBody;
     ctx_From := msg_from msg;
     ctx_To := msg_to msg;
     ctx_MessageSid := msg_id msg;
     ctx_ChatType := msg_chatType msg;
     ctx_WasMentioned := wasMentioned |}.

(** [if (shouldClearGroupHistory && didSendReply)
       groupHistories.set(conversationId, []);] *)
Definition clearHistoryIfSent (shouldClearGroupHistory : bool)
    (conversationId : jstring) (t : TurnState)
    (histories : gmap jstring (list HistoryEntry))
  : gmap jstring (list HistoryEntry) :=
  if shouldClearGroupHistory && didSendReply t
  then <[conversationId := []]> histories
  else histories.

(** The result of a handler: the settled promise, the monitor state it
    leaves, and the event log. *)
Definition Handler : Type :=
  list Event -> (JsError + unit) * MonitorState * list Event.

Definition processMessage (net : Network) (cfg : Config)
    (replyResolver : MsgContext -> ResolverRun)
    (wasMentioned : option bool) (msg : WebInboundMsg) (s : MonitorState)
  : Handler := fun w =>
  let conversationId := conversationIdOf msg in
  let combinedBody := combinedBodyOf cfg s msg in
  let shouldClearGroupHistory := isGroup msg in
  (* Echo detection uses combined body so we don't respond twice. *)
  let '(echo, sent) := EchoSet.shouldSuppress (recentlySent s) combinedBody in
  if echo
  then (inr tt, {| recentlySent := sent; groupHistories := groupHistories s |}, w)
  else
    let ctx := contextOf msg combinedBody wasMentioned in
    let run := replyResolver ctx in
    let t0 := {| didSendReply := false; turn_recentlySent := recentlySent s |} in
    (* the chain of tool sends, settled before any final reply goes out *)
    let '(tools, w1) :=
      foldAsync (sendToolResult net cfg) (run_toolResults run) t0
        (w ++ [EvResolver ctx]) in
    let t1 := match tools with inr t => t | inl _ => t0 end in
    match run_result run with
    | inl err =>
        (inl err,
         {| recentlySent := turn_recentlySent t1;
            groupHistories := groupHistories s |}, w1)
    | inr replyResult =>
        let sendableReplies :=
          List.filter (fun payload => negb (isSilentReply (Some payload)))
            (replyListOf replyResult) in
        let '(finals, w2) :=
          foldAsync (sendFinalReply net cfg combinedBody) sendableReplies t1 w1 in
        let t2 := match finals with inr t => t | inl _ => t1 end in
        (inr tt,
         {| recentlySent := turn_recentlySent t2;
            groupHistories :=
              clearHistoryIfSent shouldClearGroupHistory conversationId t2
                (groupHistories s) |}, w2)
    end.

(** How [onMessage] disposed of a message. *)
Inductive Disposition :=
| SkippedEcho                 (* body matched a recently sent text *)
| IgnoredActivation           (* activation command from a non-owner *)
| StoredForContext            (* group message kept for context only *)
| Processed.                  (* handed to [processMessage] *)

(** The [onMessage] callback given to the listener factory. [None]: the
    history eviction loop does not end. *)
Definition onMessage (net : Network) (cfg : Config) (store : SessionStore)
    (replyResolver : MsgContext -> ResolverRun)
    (msg : WebInboundMsg) (s : MonitorState) (w : list Event)
  : option (Disposition * ((JsError + unit) * MonitorState * list Event)) :=
  let conversationId := conversationIdOf msg in
  (* Skip if this is a message we just sent (echo detection) *)
  let '(echo, sent) := EchoSet.shouldSuppress (recentlySent s) (msg_body msg) in
  if echo
  then Some (SkippedEcho,
             (inr tt, {| recentlySent := sent;
                         groupHistories := groupHistories s |}, w))
  else if isGroup msg then
    let commandBody := stripMentionsForCommand cfg (msg_body msg) (msg_selfE164 msg) in
    let hasCommand := parseActivationCommand_hasCommand commandBody in
    let isOwner := isOwnerSender cfg msg in
    let statusCommand := isStatusCommand commandBody in
    let shouldBypassMention := isOwner && (hasCommand || statusCommand) in
    if hasCommand && negb isOwner
    then Some (IgnoredActivation, (inr tt, s, w))
    else
      let stored :=
        if negb shouldBypassMention then
          let history := default [] (groupHistories s !! conversationId) in
          history' ← pushHistory (groupHistoryLimit cfg) history
                       {| h_sender :=
                            default (str "Unknown")
                              (orElse (msg_senderName msg) (msg_senderE164 msg));
                          h_body := msg_body msg;
                          h_timestamp := msg_timestamp msg |};
          Some {| recentlySent := recentlySent s;
                  groupHistories :=
                    <[conversationId := history']> (groupHistories s) |}
        else Some s in
      s' ← stored;
      let wasMentioned := isBotMentioned msg (cfg_mention cfg) in
      let activation := resolveGroupActivationFor cfg store conversationId in
      let requireMention :=
        match activation with ActAlways => false | ActMention => true end in
      if negb shouldBypassMention && requireMention && negb wasMentioned
      then Some (StoredForContext, (inr tt, s', w))
      else Some (Processed,
                 processMessage net cfg replyResolver (Some wasMentioned)
                   msg s' w)
  else Some (Processed, processMessage net cfg replyResolver None msg s w).

(** *** The connection supervisor: the loop of [monitorWebProvider] *)

(** The reason a listener's [onClose] resolves with. *)
Record DisconnectReason := {
  reason_status : option Z;
  reason_isLoggedOut : option bool
}.

Definition MESSAGE_TIMEOUT_MS : Z := 30 * 60 * 1000.
Definition WATCHDOG_CHECK_MS : Z := 60 * 1000.

(** The test made by the watchdog timer each time it runs:
    [if (lastMessageAt) { ... if (timeSinceLastMessage >
    MESSAGE_TIMEOUT_MS) ... }]. [lastMessageAt] is [null] until the
    first message of the connection arrives. *)
Definition watchdogFires (now : Z) (lastMessageAt : option Z) : bool :=
  match lastMessageAt with
  | Some t => negb (t =? 0) && (now - t >? MESSAGE_TIMEOUT_MS)
  | None => false
  end.

(** What ends the wait [Promise.race([listener.onClose, abortPromise])]. *)
Inductive WaitOutcome :=
| AbortFired                                  (* the abort signal *)
| OnCloseResolved (r : option DisconnectReason) (* the transport closed *)
| OnCloseRejected (err : JsError)
| WatchdogRun (now : Z) (lastMessageAt : option Z) (hasSignalClose : bool)
    (* nothing but a run of the watchdog timer, on a listener that
       does or does not provide [signalClose] *)
| NeverSettles.

(** What one connection of the loop meets. *)
Record Connection := {
  conn_stopAtTop : bool;     (* stopRequested() at the top of the loop *)
  conn_wait : WaitOutcome;
  conn_uptimeMs : Z;         (* Date.now() - startedAt once the wait ends *)
  conn_stopAfter : bool;     (* stopRequested() || sigintStop after the wait *)
  conn_sleepRejects : bool   (* the backoff sleep is aborted *)
}.

Record WebProviderStatus := {
  running : bool;
  connected : bool;
  status_reconnectAttempts : Z;
  lastDisconnect : option (option Z * bool)   (* status, loggedOut *)
}.

Inductive RuntimeError :=
| ErrLoggedOut
| ErrMaxAttempts (attempts maxAttempts : Z)
| ErrRetry (attempts maxAttempts delay : Z).

Inductive MonitorEvent :=
| MFactory                               (* listenerFactory called *)
| MCloseListener                         (* closeListener() *)
| MSignalClose (r : DisconnectReason)    (* listener.signalClose(r) *)
| MSleep (delay : Z)
| MRuntimeError (e : RuntimeError)
| MStatus (st : WebProviderStatus).      (* emitStatus() *)

Inductive MonitorEnd :=
| Stopped          (* left the loop; the final status has running = false *)
| ReturnedEarly    (* keepAlive is false: listener closed, function returned *)
| Waiting.         (* connected, the wait has not ended *)

Record MonitorResult := {
  res_end : MonitorEnd;
  res_reconnectAttempts : Z;
  res_status : WebProviderStatus;
  res_trace : list MonitorEvent
}.

Definition watchdogReason : DisconnectReason :=
  {| reason_status := Some 499; reason_isLoggedOut := Some false |}.

(** What the race yields. *)
Inductive RaceValue :=
| Pending                                     (* the wait goes on *)
| RaceAborted                                 (* "aborted" *)
| RaceReason (r : option DisconnectReason).

(** A run of the watchdog that finds the timeout exceeded calls
    [closeListener()] and then [listener.signalClose?.(...)]. *)
Definition watchdogEvents (w : WaitOutcome) : list MonitorEvent :=
  match w with
  | WatchdogRun now lastMessageAt hasSignalClose =>
      if watchdogFires now lastMessageAt
      then MCloseListener ::
           (if hasSignalClose then [MSignalClose watchdogReason] else [])
      else []
  | _ => []
  end.

Definition raceValue (w : WaitOutcome) : RaceValue :=
  match w with
  | AbortFired => RaceAborted
  | OnCloseResolved r => RaceReason r
  | OnCloseRejected _ =>
      RaceReason (Some {| reason_status := Some 500;
                          reason_isLoggedOut := Some false |})
  | WatchdogRun now lastMessageAt hasSignalClose =>
      if watchdogFires now lastMessageAt && hasSignalClose
      then RaceReason (Some watchdogReason)
      else Pending
  | NeverSettles => Pending
  end.

Definition setStatus (st : WebProviderStatus) (tr : list MonitorEvent)
  : WebProviderStatus * list MonitorEvent := (st, tr ++ [MStatus st]).

(** After the loop: [status.running = false; status.connected = false;
    emitStatus()]. *)
Definition finish (attempts : Z) (st : WebProviderStatus)
    (tr : list MonitorEvent) : MonitorResult :=
  let st' := {| running := false; connected := false;
                status_reconnectAttempts := status_reconnectAttempts st;
                lastDisconnect := lastDisconnect st |} in
  {| res_end := Stopped; res_reconnectAttempts := attempts;
     res_status := st'; res_trace := tr ++ [MStatus st'] |}.

Definition connect (st : WebProviderStatus) (tr : list MonitorEvent)
  : WebProviderStatus * list MonitorEvent :=
  setStatus {| running := running st; connected := true;
               status_reconnectAttempts := status_reconnectAttempts st;
               lastDisconnect := lastDisconnect st |} (tr ++ [MFactory]).

Definition result (e : MonitorEnd) (attempts : Z) (st : WebProviderStatus)
    (tr : list MonitorEvent) : MonitorResult :=
  {| res_end := e; res_reconnectAttempts := attempts;
     res_status := st; res_trace := tr |}.

(** One turn of the loop either leaves it or goes round again. *)
Inductive Turn :=
| Leave (r : MonitorResult)
| Again (reconnectAttempts : Z) (st : WebProviderStatus)
        (tr : list MonitorEvent).

(** The part of the loop body after the wait has ended with [reason]
    ([None] for "aborted"). *)
Definition afterWait (reconnectPolicy : ReconnectPolicy)
    (heartbeatSeconds : Z) (c : Connection)
    (reason : option (option DisconnectReason))
    (reconnectAttempts : Z) (st : WebProviderStatus)
    (tr : list MonitorEvent) : Turn :=
  let reconnectAttempts :=
    if conn_uptimeMs c >? heartbeatSeconds * 1000
    then 0    (* Healthy stretch; reset the backoff. *)
    else reconnectAttempts in
  let '(st, tr) :=
    setStatus {| running := running st; connected := connected st;
                 status_reconnectAttempts := reconnectAttempts;
                 lastDisconnect := lastDisconnect st |} tr in
  match reason with
  | None => Leave (finish reconnectAttempts st (tr ++ [MCloseListener]))
  | Some reason =>
      if conn_stopAfter c
      then Leave (finish reconnectAttempts st (tr ++ [MCloseListener]))
      else
        let statusCode := reason ≫= reason_status in
        let loggedOut := default false (reason ≫= reason_isLoggedOut) in
        let '(st, tr) :=
          setStatus {| running := running st; connected := false;
                       status_reconnectAttempts := reconnectAttempts;
                       lastDisconnect := Some (statusCode, loggedOut) |} tr in
        if loggedOut
        then Leave (finish reconnectAttempts st
                      (tr ++ [MRuntimeError ErrLoggedOut; MCloseListener]))
        else
          let reconnectAttempts := reconnectAttempts + 1 in
          let '(st, tr) :=
            setStatus {| running := running st; connected := connected st;
                         status_reconnectAttempts := reconnectAttempts;
                         lastDisconnect := lastDisconnect st |} tr in
          if (maxAttempts reconnectPolicy >? 0)
             && (reconnectAttempts >=? maxAttempts reconnectPolicy)
          then Leave (finish reconnectAttempts st
                        (tr ++ [MRuntimeError
                                  (ErrMaxAttempts reconnectAttempts
                                     (maxAttempts reconnectPolicy));
                                MCloseListener]))
          else
            let delay := computeBackoff reconnectPolicy reconnectAttempts in
            let tr :=
              tr ++ [MRuntimeError
                       (ErrRetry reconnectAttempts
                          (maxAttempts reconnectPolicy) delay);
                     MCloseListener; MSleep delay] in
            if conn_sleepRejects c
            then Leave (finish reconnectAttempts st tr)
            else Again reconnectAttempts st tr
  end.

(** The body of [while (true)] for one connection. *)
Definition loopTurn (reconnectPolicy : ReconnectPolicy)
    (heartbeatSeconds : Z) (keepAlive : bool) (c : Connection)
    (reconnectAttempts : Z) (st : WebProviderStatus)
    (tr : list MonitorEvent) : Turn :=
  if conn_stopAtTop c then Leave (finish reconnectAttempts st tr)
  else
    let '(st, tr) := connect st tr in
    if negb keepAlive
    then Leave (result ReturnedEarly reconnectAttempts st (tr ++ [MCloseListener]))
    else
      let tr := tr ++ watchdogEvents (conn_wait c) in
      match raceValue (conn_wait c) with
      | Pending => Leave (result Waiting reconnectAttempts st tr)
      | RaceAborted =>
          afterWait reconnectPolicy heartbeatSeconds c None
            reconnectAttempts st tr
      | RaceReason r =>
          afterWait reconnectPolicy heartbeatSeconds c (Some r)
            reconnectAttempts st tr
      end.

(** A connection on which nobody asks to stop and nothing ends the
    wait: what an exhausted script stands for. *)
Definition quietConnection : Connection :=
  {| conn_stopAtTop := false; conn_wait := NeverSettles; conn_uptimeMs := 0;
     conn_stopAfter := false; conn_sleepRejects := false |}.

(** The [while (true)] loop, one connection of the script per turn. *)
Fixpoint monitorLoop (reconnectPolicy : ReconnectPolicy)
    (heartbeatSeconds : Z) (keepAlive : bool) (script : list Connection)
    (reconnectAttempts : Z) (st : WebProviderStatus)
    (tr : list MonitorEvent) : MonitorResult :=
  match script with
  | [] =>
      match loopTurn reconnectPolicy heartbeatSeconds keepAlive
              quietConnection reconnectAttempts st tr with
      | Leave r => r
      | Again a st' tr' => result Waiting a st' tr'
      end
  | c :: rest =>
      match loopTurn reconnectPolicy heartbeatSeconds keepAlive c
              reconnectAttempts st tr with
      | Leave r => r
      | Again a st' tr' =>
          monitorLoop reconnectPolicy heartbeatSeconds keepAlive rest a st' tr'
      end
  end.

Definition initialStatus : WebProviderStatus :=
  {| running := true; connected := false; status_reconnectAttempts := 0;
     lastDisconnect := None |}.

(** [monitorWebProvider], from its first [emitStatus()] on. *)
Definition monitorWebProvider (reconnectPolicy : ReconnectPolicy)
    (heartbeatSeconds : Z) (keepAlive : bool) (script : list Connection)
  : MonitorResult :=
  monitorLoop reconnectPolicy heartbeatSeconds keepAlive script 0
    initialStatus [MStatus initialStatus].

(** How often the listener factory was called. *)
Definition factoryCalls (r : MonitorResult) : nat :=
  length (List.filter (fun e => match e with MFactory => true | _ => false end)
            (res_trace r)).

End Model.

(** ** Stand-ins for the imported modules *)

Module Sample.

Fixpoint takeDigits (s : jstring) : jstring :=
  match s with
  | c :: s' => if isDigit c then c :: takeDigits s' else []
  | [] => []
  end.

Fixpoint chunkEvery (fuel n : nat) (s : jstring) : list jstring :=
  match fuel, s with
  | S fuel', _ :: _ => take n s :: chunkEvery fuel' n (drop n s)
  | _, _ => []
  end.

(** Modelled from the spec: the modules auto-reply.ts imports
    (utils.js, auto-reply/chunk.js, envelope.js, group-activation.js,
    heartbeat.js, tokens.js, web/session.js, web/reconnect.js) are not
    among the sources. Section 4.6 has [chunkText] split the text into
    chunks not exceeding the limit, section 4.1 gives [computeBackoff] as
    min(maxMs, initialMs * factor^(attempt-1)), section 6 describes the
    two tokens as string constants matched after trimming; phone numbers
    normalise to a plus sign followed by their digits. These stand-ins
    serve to run the model on concrete inputs. *)
#[export] Instance sampleExternals : Externals := {|
  toLowerCase := map asciiLower;
  normalizeE164 := fun s => 43%N :: List.filter isDigit s;
  isSelfChatMode := fun self allowFrom =>
    match self, allowFrom with
    | Some self, Some l =>
        truthy self
        && bool_decide
             ((43%N :: List.filter isDigit self)
                ∈ map (fun e => 43%N :: List.filter isDigit e)
                    (List.filter (fun e => negb (jstring_eqb e (str "*"))) l))
    | _, _ => false
    end;
  jidToE164 := fun jid =>
    let d := takeDigits jid in
    if truthy d && includes jid (str "@s.whatsapp.net")
    then Some (43%N :: d) else None;
  parseActivationCommand_hasCommand := fun body =>
    startsWith (map asciiLower (trim body)) (str "/activation");
  normalizeGroupActivation := fun v =>
    match v with
    | Some s => if jstring_eqb s (str "always") then Some ActAlways
                else if jstring_eqb s (str "mention") then Some ActMention
                else None
    | None => None
    end;
  chunkText := fun text limit =>
    if limit <=? 0 then (if truthy text then [text] else [])
    else chunkEvery (length text) (Z.to_nat limit) text;
  formatAgentEnvelope := fun e =>
    str "[" ++ env_surface e ++ str " " ++ env_from e ++ str "] " ++ env_body e;
  SILENT_REPLY_TOKEN := str "NO_REPLY";
  HEARTBEAT_TOKEN := str "HEARTBEAT_OK";
  stripHeartbeatToken := fun t =>
    if jstring_eqb (trim t) (str "HEARTBEAT_OK")
    then {| shouldSkip := true; strip_text := []; didStrip := true |}
    else {| shouldSkip := false; strip_text := t; didStrip := false |};
  formatError := fun e =>
    match e with ErrorObject m => m | OtherThrown m => m end;
  computeBackoff := fun policy attempt =>
    Z.min (maxMs policy)
      (initialMs policy * factor policy ^ (attempt - 1))
|}.

(** A network on which every send succeeds and every media is an image. *)
Definition goodNetwork : Network :=
  {| replyOutcome := fun _ _ => None;
     sendMediaOutcome := fun _ _ => None;
     loadWebMedia := fun _ _ =>
       inr {| media_buffer := [137; 80; 78; 71]%N;
              media_contentType := Some (str "image/png");
              media_kind := KImage; media_fileName := None |} |}.

(** The same network, except that [msg.sendMedia] always rejects. *)
Definition mediaRejectingNetwork : Network :=
  {| replyOutcome := fun _ _ => None;
     sendMediaOutcome := fun _ _ => Some (ErrorObject (str "boom"));
     loadWebMedia := loadWebMedia goodNetwork |}.

Definition noMentionConfig : MentionConfig :=
  {| mentionRegexes := []; allowFrom := None |}.

Definition plainConfig : Config :=
  {| cfg_mention := noMentionConfig; cfg_historyLimit := None;
     cfg_groups := ∅; cfg_messagePrefix := None; cfg_responsePrefix := None;
     cfg_maxMediaBytes := 5 * 1024 * 1024 |}.

Definition directMsg (body : jstring) : WebInboundMsg :=
  {| msg_id := Some (str "m1"); msg_from := str "+1"; msg_to := str "+2";
     msg_body := body; msg_timestamp := None; msg_chatType := Direct;
     msg_conversationId := None; msg_senderE164 := None;
     msg_senderName := None; msg_selfE164 := None; msg_selfJid := None;
     msg_mentionedJids := None; msg_replyToId := None;
     msg_replyToBody := None; msg_replyToSender := None;
     msg_mediaType := None |}.

Definition groupMsg (body : jstring) (senderE164 senderName : jstring)
    (mentionedJids : option (list jstring)) : WebInboundMsg :=
  {| msg_id := Some (str "g1"); msg_from := str "123@g.us";
     msg_to := str "+2"; msg_body := body; msg_timestamp := None;
     msg_chatType := Group; msg_conversationId := Some (str "123@g.us");
     msg_senderE164 := Some senderE164; msg_senderName := Some senderName;
     msg_selfE164 := Some (str "+999");
     msg_selfJid := Some (str "999@s.whatsapp.net");
     msg_mentionedJids := mentionedJids; msg_replyToId := None;
     msg_replyToBody := None; msg_replyToSender := None;
     msg_mediaType := None |}.

Definition textPayload (t : jstring) : ReplyPayload :=
  {| text := Some t; mediaUrl := None; mediaUrls := None; replyToId := None |}.

Definition emptyState : MonitorState :=
  {| recentlySent := []; groupHistories := ∅ |}.

(** A text of 8001 letters: three chunks of at most 4000. *)
Definition longText : jstring := repeat 97%N (Z.to_nat 8001).

Definition captionedMedia (t : jstring) : ReplyPayload :=
  {| text := Some t; mediaUrl := Some (str "https://example.com/img.png");
     mediaUrls := None; replyToId := None |}.

(** A resolver that answers every message with the text ok. *)
Definition okResolver : MsgContext -> ResolverRun :=
  fun _ => {| run_toolResults := [];
              run_result := inr (ReplyOne (textPayload (str "ok"))) |}.

(** A hundred distinct recently sent texts. *)
Definition hundredSent : list jstring :=
  map (fun n => [109%N; N.of_nat n]) (seq 0 100).

(** A configuration whose allow-list is the bot's own number. *)
Definition selfChatConfig : Config :=
  {| cfg_mention := {| mentionRegexes := []; allowFrom := Some [str "+999"] |};
     cfg_historyLimit := None; cfg_groups := ∅; cfg_messagePrefix := None;
     cfg_responsePrefix := None; cfg_maxMediaBytes := 5 * 1024 * 1024 |}.

(** A configuration whose owner is +111. *)
Definition ownerConfig : Config :=
  {| cfg_mention := {| mentionRegexes := []; allowFrom := Some [str "+111"] |};
     cfg_historyLimit := None; cfg_groups := ∅; cfg_messagePrefix := None;
     cfg_responsePrefix := None; cfg_maxMediaBytes := 5 * 1024 * 1024 |}.

(** A resolver that streams one tool result and returns nothing. *)
Definition toolOnlyResolver : MsgContext -> ResolverRun :=
  fun _ => {| run_toolResults := [textPayload (str "working on it")];
              run_result := inr ReplyUndefined |}.

(** A group conversation with two buffered messages. *)
Definition chattyState : MonitorState :=
  {| recentlySent := [];
     groupHistories :=
       {[ str "123@g.us" :=
            [ {| h_sender := str "Alice"; h_body := str "first";
                 h_timestamp := None |};
              {| h_sender := str "Bob"; h_body := str "second";
                 h_timestamp := None |} ] ]} |}.

(** A listener whose [onClose] resolves at once, with no reason given. *)
Definition closeAtOnce : Connection :=
  {| conn_stopAtTop := false; conn_wait := OnCloseResolved None;
     conn_uptimeMs := 0; conn_stopAfter := false;
     conn_sleepRejects := false |}.

Definition testPolicy (n : Z) : ReconnectPolicy :=
  {| initialMs := 5; maxMs := 5; factor := 1; maxAttempts := n |}.

(** A connection on which no message ever arrives: the watchdog runs 31
    minutes after the connection was established. *)
Definition silentForever : Connection :=
  {| conn_stopAtTop := false;
     conn_wait := WatchdogRun (31 * 60 * 1000) None true;
     conn_uptimeMs := 31 * 60 * 1000; conn_stopAfter := false;
     conn_sleepRejects := false |}.

(** A connection whose last message came at time 1000; the watchdog runs
    31 minutes later. *)
Definition silentAfterMessage : Connection :=
  {| conn_stopAtTop := false;
     conn_wait := WatchdogRun (1000 + 31 * 60 * 1000) (Some 1000) true;
     conn_uptimeMs := 32 * 60 * 1000; conn_stopAfter := false;
     conn_sleepRejects := false |}.

End Sample.

(** ** Vocabulary of the statements *)

(** [post m Q]: from any log, [m] appends events [new] and settles with
    [r] such that [Q r new]. *)
Definition post {A} (m : Async A)
    (Q : JsError + A -> list Event -> Prop) : Prop :=
  ∀ w, ∃ r new, m w = (r, w ++ new) ∧ Q r new.

(** A rejected [msg.sendMedia], or the pause before it is tried again. *)
Definition isFailedAttempt (e : Event) : bool :=
  match e with
  | EvSendMedia _ false | EvSleep _ => true
  | _ => false
  end.

(** A message that went out. *)
Definition isSuccessfulSend (e : Event) : bool :=
  match e with
  | EvReply _ true | EvSendMedia _ true => true
  | _ => false
  end.

(** [sent new]: some message of [new] went out. *)
Definition sent (new : list Event) : Prop :=
  Exists (fun e => isSuccessfulSend e = true) new.

(** A computation that returns normally has sent something. *)
Definition sentIfOk {A} (r : JsError + A) (new : list Event) : Prop :=
  (∃ a, r = inr a) → sent new.

Definition anyOutcome {A} : JsError + A -> list Event -> Prop :=
  fun _ _ => True.

(** The payload has a media or at least one text chunk, so that
    [deliverWebReply] has something to send. *)
Definition carriesContent `{Externals} (p : ReplyPayload) : bool :=
  match mediaListOf p, chunkText (default [] (text p)) WEB_TEXT_LIMIT with
  | [], [] => false
  | _, _ => true
  end.

(** A payload as [deliverWebReply] receives it: after the heartbeat step
    and the response prefix; [None] when the heartbeat step skips it. *)
Definition prepared `{Externals} (cfg : Config) (p : ReplyPayload)
  : option ReplyPayload :=
  applyResponsePrefix (cfg_responsePrefix cfg) <$> stripHeartbeat p.

(** Every payload of the list carries content once prepared. *)
Definition substantive `{Externals} (cfg : Config) (l : list ReplyPayload)
  : Prop :=
  ∀ p p', p ∈ l → prepared cfg p = Some p' → carriesContent p' = true.

(** The payloads the resolver returned. *)
Definition finalPayloads (run : ResolverRun) : list ReplyPayload :=
  match run_result run with
  | inr res => replyListOf res
  | inl _ => []
  end.

(** One delivery step of a turn: it settles normally and, given [ok],
    sets [didSendReply] only if it was set before or a message went
    out. *)
Definition stepOk (ok : Prop) (t : TurnState) (r : JsError + TurnState)
    (new : list Event) : Prop :=
  ∃ t', r = inr t'
        ∧ (ok → didSendReply t' = true → didSendReply t = true ∨ sent new).

(** The entry [onMessage] pushes for a group message. *)
Definition historyEntryOf (msg : WebInboundMsg) : HistoryEntry :=
  {| h_sender := default (str "Unknown")
                   (orElse (msg_senderName msg) (msg_senderE164 msg));
     h_body := msg_body msg;
     h_timestamp := msg_timestamp msg |}.

(** The state after that push, for a limit that is not negative. *)
Definition archived (cfg : Config) (msg : WebInboundMsg) (s : MonitorState)
  : MonitorState :=
  let history := default [] (groupHistories s !! conversationIdOf msg)
                 ++ [historyEntryOf msg] in
  {| recentlySent := recentlySent s;
     groupHistories :=
       <[conversationIdOf msg :=
           drop (length history - Z.to_nat (groupHistoryLimit cfg)) history]>
         (groupHistories s) |}.

(** [shouldBypassMention] *)
Definition bypassesMention `{Externals} (cfg : Config) (msg : WebInboundMsg)
  : bool :=
  let commandBody :=
    stripMentionsForCommand cfg (msg_body msg) (msg_selfE164 msg) in
  isOwnerSender cfg msg
  && (parseActivationCommand_hasCommand commandBody
      || isStatusCommand commandBody).

(** [activationCommand.hasCommand && !isOwner] *)
Definition ignoredActivation `{Externals} (cfg : Config)
    (msg : WebInboundMsg) : bool :=
  parseActivationCommand_hasCommand
    (stripMentionsForCommand cfg (msg_body msg) (msg_selfE164 msg))
  && negb (isOwnerSender cfg msg).

(** A connection whose [onClose] resolves at once, with a reason that is
    not a logout, while nobody asks to stop. *)
Definition closesAtOnce (heartbeatSeconds : Z) (c : Connection) : bool :=
  negb (conn_stopAtTop c)
  && match conn_wait c with
     | OnCloseResolved r => negb (default false (r ≫= reason_isLoggedOut))
     | _ => false
     end
  && (conn_uptimeMs c <=? heartbeatSeconds * 1000)
  && negb (conn_stopAfter c)
  && negb (conn_sleepRejects c).

Definition isFactoryCall (e : MonitorEvent) : bool :=
  match e with MFactory => true | _ => false end.

(** ** Vocabulary of the further properties *)

(** The shape of the events of [sendWithRetry] around one operation whose
    attempts are logged as [ev true] (resolved) or [ev false]
    (rejected): [attempt] counts from 1, [more] attempts may follow. *)
Inductive RetryTrace `{Externals} (ev : bool -> Event)
  : Z -> nat -> JsError + unit -> list Event -> Prop :=
| retry_ok attempt more :
    RetryTrace ev attempt more (inr tt) [ev true]
| retry_exhausted attempt e :
    RetryTrace ev attempt 0 (inl e) [ev false]
| retry_fatal attempt more e :
    looksTransient (formatError e) = false →
    RetryTrace ev attempt more (inl e) [ev false]
| retry_again attempt more e r new :
    looksTransient (formatError e) = true →
    RetryTrace ev (attempt + 1) more r new →
    RetryTrace ev attempt (S more) r
      (ev false :: EvSleep (500 * attempt) :: new).

(** The promise resolved. *)
Definition resolved {A} (r : JsError + A) : bool :=
  match r with inr _ => true | inl _ => false end.

Definition isSleep (e : Event) : bool :=
  match e with EvSleep _ => true | _ => false end.

Definition sleepOf (e : Event) : Z :=
  match e with EvSleep ms => ms | _ => 0 end.

(** The log of chunks sent one after the other, all delivered. *)
Definition repliesOk (chunks : list jstring) : list Event :=
  map (fun c => EvReply c true) chunks.

(** [remainingText.shift() || undefined] as a caption. *)
Definition captionOf (chunks : list jstring) : option jstring :=
  head chunks ≫= fun c => if truthy c then Some c else None.

(** [firstEvent P new]: the log [new] is not empty and its first event
    satisfies [P]. *)
Definition firstEvent (P : Event -> Prop) (new : list Event) : Prop :=
  ∃ e rest, new = e :: rest ∧ P e.

(** What [deliverWebReply] first does with the media [mediaUrl]: it
    sends it with the caption, or logs that it could not be loaded. *)
Definition firstMediaAttempt (net : Network) (maxMediaBytes : Z)
    (mediaUrl : jstring) (caption : option jstring) (e : Event) : Prop :=
  match loadWebMedia net mediaUrl maxMediaBytes with
  | inr media =>
      ∃ ok, e = EvSendMedia (mediaMessageFor media mediaUrl caption) ok
  | inl _ => e = EvMediaFailureLogged mediaUrl
  end.

(** No listener is created while another is open: [active] says whether
    one is. Closing an already closed listener is allowed (the watchdog
    and the loop both call [closeListener]). *)
Fixpoint oneListenerAtATime (active : bool) (tr : list MonitorEvent) : bool :=
  match tr with
  | [] => true
  | MFactory :: tr' => negb active && oneListenerAtATime true tr'
  | MCloseListener :: tr' => oneListenerAtATime false tr'
  | _ :: tr' => oneListenerAtATime active tr'
  end.

(** Whether a listener is open after the trace. *)
Fixpoint listenerOpenAfter (active : bool) (tr : list MonitorEvent) : bool :=
  match tr with
  | [] => active
  | MFactory :: tr' => listenerOpenAfter true tr'
  | MCloseListener :: tr' => listenerOpenAfter false tr'
  | _ :: tr' => listenerOpenAfter active tr'
  end.

Definition isSleepEvent (e : MonitorEvent) : bool :=
  match e with MSleep _ => true | _ => false end.

Definition isRuntimeError (e : MonitorEvent) : bool :=
  match e with MRuntimeError _ => true | _ => false end.

(** A connection that closes, not logged out and with nobody asking to
    stop, after more than one heartbeat interval of uptime. *)
Definition closesAfterHealthyStretch (heartbeatSeconds : Z) (c : Connection)
  : bool :=
  negb (conn_stopAtTop c)
  && match conn_wait c with
     | OnCloseResolved r => negb (default false (r ≫= reason_isLoggedOut))
     | _ => false
     end
  && (conn_uptimeMs c >? heartbeatSeconds * 1000)
  && negb (conn_stopAfter c)
  && negb (conn_sleepRejects c).

(** The invariant of the loop: the trace so far respects the
    discipline, no listener is open at the top of the loop, and the
    status says running. *)
Definition atLoopTop (st : WebProviderStatus) (tr : list MonitorEvent) : Prop :=
  oneListenerAtATime false tr = true
  ∧ listenerOpenAfter false tr = false
  ∧ running st = true.

(** What holds of the result of the loop, by the way it ended. *)
Definition wellEnded (r : MonitorResult) : Prop :=
  oneListenerAtATime false (res_trace r) = true
  ∧ match res_end r with
    | Stopped =>
        running (res_status r) = false ∧ connected (res_status r) = false
        ∧ listenerOpenAfter false (res_trace r) = false
        ∧ last (res_trace r) = Some (MStatus (res_status r))
    | ReturnedEarly =>
        running (res_status r) = true ∧ connected (res_status r) = true
        ∧ listenerOpenAfter false (res_trace r) = false
    | Waiting =>
        running (res_status r) = true ∧ connected (res_status r) = true
    end.

(** The stored messages that [processMessage] shows as context:
    [history.slice(0, -1)]. *)
Definition contextEntries (s : MonitorState) (msg : WebInboundMsg)
  : list HistoryEntry :=
  withoutLast (default [] (groupHistories s !! conversationIdOf msg)).

(** The last [n] entries. *)
Definition lastEntries (n : Z) (history : list HistoryEntry)
  : list HistoryEntry :=
  drop (length history - Z.to_nat n) history.

(** The body [processMessage] builds for a group message
    ([combinedBody], from [if (historyWithoutCurrent.length > 0)] to
    the sender label) when [shown] is [historyWithoutCurrent]. *)
Definition groupPrompt `{Externals} (cfg : Config) (msg : WebInboundMsg)
    (shown : list HistoryEntry) : jstring :=
  let conversationId := conversationIdOf msg in
  let combinedBody :=
    match shown with
    | [] => buildLine cfg msg
    | _ :: _ =>
        let historyText :=
          join backslashN
            (map (fun m =>
                    formatAgentEnvelope
                      {| env_surface := str "WhatsApp";
                         env_from := conversationId;
                         env_timestamp := h_timestamp m;
                         env_body := h_sender m ++ str ": " ++ h_body m |})
                 shown) in
        str "[Chat messages since your last reply - for context]"
        ++ backslashN ++ historyText ++ backslashN ++ backslashN
        ++ str "[Current message - respond to this]" ++ backslashN
        ++ buildLine cfg msg
    end in
  let senderLabel :=
    if truthy_opt (msg_senderName msg) && truthy_opt (msg_senderE164 msg)
    then default [] (msg_senderName msg) ++ str " ("
         ++ default [] (msg_senderE164 msg) ++ str ")"
    else default (str "Unknown")
           (orElse (msg_senderName msg) (msg_senderE164 msg)) in
  combinedBody ++ backslashN ++ str "[from: " ++ senderLabel ++ str "]".

(** A group message that gets past the gate: an owner's command, or
    activation always, or a mention. *)
Definition passesGate `{Externals} (cfg : Config) (store : SessionStore)
    (msg : WebInboundMsg) : bool :=
  bypassesMention cfg msg
  || match resolveGroupActivationFor cfg store (conversationIdOf msg) with
     | ActAlways => true
     | ActMention => false
     end
  || isBotMentioned msg (cfg_mention cfg).

(** A resolver run that streams nothing and returns the one payload
    [p]: a text [t] without media, without the heartbeat token, and not
    the silent token. *)
Definition answersWithText `{Externals} (run : ResolverRun) (p : ReplyPayload)
    (t : jstring) : Prop :=
  run_toolResults run = []
  ∧ run_result run = inr (ReplyOne p)
  ∧ text p = Some t
  ∧ truthy t = true
  ∧ mediaListOf p = []
  ∧ includes t HEARTBEAT_TOKEN = false
  ∧ isSilentReply (Some p) = false.

(** ** The heartbeat: [runWebHeartbeatOnce] and its helpers *)

(** An entry of the session store, with the fields auto-reply.ts reads
    or writes. *)
Record SessionEntry := {
  se_sessionId : option jstring;
  se_updatedAt : option Z;
  se_lastChannel : option jstring;
  se_lastTo : option jstring
}.

(** [cfg.session] *)
Record SessionConfig := {
  sc_scope : option jstring;
  sc_mainKey : option jstring;
  sc_heartbeatIdleMinutes : option Z;
  sc_idleMinutes : option Z
}.

(** The context object given to [resolveSessionKey]. *)
Record KeyContext := {
  kc_From : jstring;
  kc_To : option jstring;
  kc_Body : option jstring
}.

(** What the heartbeat imports from ../config/sessions.js and
    ../auto-reply/heartbeat.js. *)
Class SessionExternals := {
  resolveSessionKey : jstring -> KeyContext -> option jstring -> jstring;
  DEFAULT_IDLE_MINUTES : Z;
  (* stripHeartbeatToken(text, { mode: "heartbeat", maxAckChars: 30 }) *)
  stripHeartbeatTokenInHeartbeat : option jstring -> StripResult
}.

(** [payload.text || payload.mediaUrl || (payload.mediaUrls &&
    payload.mediaUrls.length > 0)] *)
Definition hasContent (payload : ReplyPayload) : bool :=
  truthy_opt (text payload) || truthy_opt (mediaUrl payload)
  || hasMediaUrls payload.

(** The loop of [resolveHeartbeatReplyPayload], from the last index
    down: [rev_payloads] is the array read backwards. *)
Fixpoint lastWithContent (rev_payloads : list ReplyPayload)
  : option ReplyPayload :=
  match rev_payloads with
  | [] => None
  | payload :: earlier =>
      if hasContent payload then Some payload else lastWithContent earlier
  end.

Definition resolveHeartbeatReplyPayload (replyResult : ReplyResult)
  : option ReplyPayload :=
  match replyResult with
  | ReplyUndefined => None
  | ReplyOne p => Some p
  | ReplyMany l => lastWithContent (rev l)
  end.

Record SessionSnapshot := {
  snap_key : jstring;
  snap_entry : option SessionEntry;
  snap_fresh : bool;
  snap_idleMinutes : Z
}.

Definition orElseZ (a b : option Z) : option Z :=
  match a with Some _ => a | None => b end.

Definition getSessionSnapshot `{SessionExternals} (sc : SessionConfig)
    (from : jstring) (isHeartbeat : bool)
    (store : gmap jstring SessionEntry) (now : Z) : SessionSnapshot :=
  let scope := default (str "per-sender") (sc_scope sc) in
  let key :=
    resolveSessionKey scope
      {| kc_From := from; kc_To := Some []; kc_Body := Some [] |}
      (sc_mainKey sc) in
  let entry := store !! key in
  let idleMinutes :=
    Z.max
      (default DEFAULT_IDLE_MINUTES
         (if isHeartbeat
          then orElseZ (sc_heartbeatIdleMinutes sc) (sc_idleMinutes sc)
          else sc_idleMinutes sc))
      1 in
  let fresh :=
    match entry ≫= se_updatedAt with
    | Some updatedAt => now - updatedAt <=? idleMinutes * 60000
    | None => false
    end in
  {| snap_key := key; snap_entry := entry; snap_fresh := fresh;
     snap_idleMinutes := idleMinutes |}.

(** [emitHeartbeatEvent] *)
Inductive HeartbeatStatus :=
| HbSent (preview : jstring) (hasMedia : bool)
| HbOkEmpty
| HbOkToken
| HbFailed (reason : jstring).

(** What a heartbeat run does, in order. *)
Inductive HeartbeatEvent :=
| HResolve (messageSid : option jstring)    (* replyResolver called *)
| HSend (to body : jstring) (ok : bool)     (* sender(to, body) *)
| HEmit (st : HeartbeatStatus).

Record HeartbeatOpts := {
  opt_to : jstring;
  opt_sessionId : option jstring;
  opt_overrideBody : option jstring;
  opt_dryRun : bool
}.

Definition overrideError : JsError :=
  ErrorObject (str "Override body must be non-empty when provided.").

(** The [catch] block: report the failure and throw again. *)
Definition heartbeatFailed `{Externals} (err : JsError)
    (store : gmap jstring SessionEntry) (log : list HeartbeatEvent)
  : (JsError + unit) * gmap jstring SessionEntry * list HeartbeatEvent :=
  (inl err, store, log ++ [HEmit (HbFailed (formatError err))]).

(** [runWebHeartbeatOnce]. The session store is the file behind
    [loadSessionStore] and [saveSessionStore]; [saveOutcome n] is the
    outcome of the call number [n] (from 0) of [saveSessionStore] in the
    run, [None] when it resolves, and a rejected save leaves the file as
    it was. The resolver may rewrite the file; [sender to body] is
    [None] when the send resolves; [now] is [Date.now()]. The first
    save and the test of the override body stand before the [try], the
    rest inside it. *)
Definition runWebHeartbeatOnce `{Ext : Externals} `{SExt : SessionExternals}
    (sc : SessionConfig) (opts : HeartbeatOpts) (now : Z)
    (replyResolver : option jstring -> gmap jstring SessionEntry ->
                     (JsError + ReplyResult) * gmap jstring SessionEntry)
    (sender : jstring -> jstring -> option JsError)
    (saveOutcome : nat -> option JsError)
    (store : gmap jstring SessionEntry)
  : (JsError + unit) * gmap jstring SessionEntry * list HeartbeatEvent :=
  let to := opt_to opts in
  let scope := default (str "per-sender") (sc_scope sc) in
  let sessionKey :=
    resolveSessionKey scope
      {| kc_From := to; kc_To := None; kc_Body := None |} (sc_mainKey sc) in
  let written :=
    if truthy_opt (opt_sessionId opts) then
      let current := store !! sessionKey in
      match saveOutcome 0%nat with
      | Some err => inl err
      | None =>
          inr (<[sessionKey := {| se_sessionId := opt_sessionId opts;
                                  se_updatedAt := Some now;
                                  se_lastChannel := current ≫= se_lastChannel;
                                  se_lastTo := current ≫= se_lastTo |}]> store,
               1%nat)
      end
    else inr (store, 0%nat) in
  match written with
  | inl err => (inl err, store, [])
  | inr (store, saves) =>
  let sessionSnapshot := getSessionSnapshot sc to true store now in
  let overrideBody := default [] (opt_overrideBody opts) in
  if truthy overrideBody && (Z.of_nat (length (trim overrideBody)) =? 0)
  then (inl overrideError, store, [])
  else if truthy overrideBody then
    if opt_dryRun opts then (inr tt, store, [])
    else
      match sender to overrideBody with
      | Some err => heartbeatFailed err store [HSend to overrideBody false]
      | None =>
          (inr tt, store,
           [HSend to overrideBody true;
            HEmit (HbSent (take 160 overrideBody) false)])
      end
  else
    let messageSid :=
      orElse (opt_sessionId opts) (snap_entry sessionSnapshot ≫= se_sessionId) in
    let '(replyResult, store) := replyResolver messageSid store in
    match replyResult with
    | inl err => heartbeatFailed err store [HResolve messageSid]
    | inr replyResult =>
        match resolveHeartbeatReplyPayload replyResult with
        | None => (inr tt, store, [HResolve messageSid; HEmit HbOkEmpty])
        | Some replyPayload =>
            if negb (hasContent replyPayload)
            then (inr tt, store, [HResolve messageSid; HEmit HbOkEmpty])
            else
              let stripped :=
                stripHeartbeatTokenInHeartbeat (text replyPayload) in
              if shouldSkip stripped && negb (hasMedia replyPayload) then
                (* restore the previous updatedAt so idle expiry still works *)
                match snap_entry sessionSnapshot,
                      store !! snap_key sessionSnapshot with
                | Some before, Some current =>
                    match saveOutcome saves with
                    | Some err =>
                        heartbeatFailed err store [HResolve messageSid]
                    | None =>
                        (inr tt,
                         <[snap_key sessionSnapshot :=
                             {| se_sessionId := se_sessionId current;
                                se_updatedAt := se_updatedAt before;
                                se_lastChannel := se_lastChannel current;
                                se_lastTo := se_lastTo current |}]> store,
                         [HResolve messageSid; HEmit HbOkToken])
                    end
                | _, _ =>
                    (inr tt, store, [HResolve messageSid; HEmit HbOkToken])
                end
              else
                let finalText :=
                  if truthy (strip_text stripped) then strip_text stripped
                  else default [] (text replyPayload) in
                if opt_dryRun opts then (inr tt, store, [HResolve messageSid])
                else
                  match sender to finalText with
                  | Some err =>
                      heartbeatFailed err store
                        [HResolve messageSid; HSend to finalText false]
                  | None =>
                      (inr tt, store,
                       [HResolve messageSid; HSend to finalText true;
                        HEmit (HbSent (take 160 finalText)
                                 (hasMedia replyPayload))])
                  end
        end
    end
  end.

Definition isHSend (e : HeartbeatEvent) : bool :=
  match e with HSend _ _ _ => true | _ => false end.

Definition isHResolve (e : HeartbeatEvent) : bool :=
  match e with HResolve _ => true | _ => false end.

(** The key under which the heartbeat writes the session id, and the
    one under which the snapshot reads the entry. *)
Definition heartbeatSessionKey `{SessionExternals} (sc : SessionConfig)
    (to : jstring) : jstring :=
  resolveSessionKey (default (str "per-sender") (sc_scope sc))
    {| kc_From := to; kc_To := None; kc_Body := None |} (sc_mainKey sc).

Definition snapshotKey `{SessionExternals} (sc : SessionConfig)
    (from : jstring) : jstring :=
  resolveSessionKey (default (str "per-sender") (sc_scope sc))
    {| kc_From := from; kc_To := Some []; kc_Body := Some [] |}
    (sc_mainKey sc).

(** The resolver answers with nothing but the heartbeat token: the
    payload picked from its result has content, no media, and
    [stripHeartbeatToken] says to skip it. *)
Definition tokenOnlyReply `{SessionExternals} (res : ReplyResult) : Prop :=
  ∃ p, resolveHeartbeatReplyPayload res = Some p
       ∧ hasContent p = true
       ∧ hasMedia p = false
       ∧ shouldSkip (stripHeartbeatTokenInHeartbeat (text p)) = true.

(** *** Heartbeat recipients *)

Record Recipient := {
  r_to : jstring;
  r_updatedAt : Z
}.

Definition isGroupKey (key : jstring) : bool :=
  startsWith key (str "group:") || includes key (str ":group:")
  || includes key (str ":channel:") || includes key (str "@g.us").

Definition isCronKey (key : jstring) : bool := startsWith key (str "cron:").

(** [.sort((a, b) => b.updatedAt - a.updatedAt)]: the sort is stable,
    so an element stays in front of the later ones with the same
    [updatedAt]. *)
Fixpoint insertByRecency (r : Recipient) (sorted : list Recipient)
  : list Recipient :=
  match sorted with
  | [] => [r]
  | y :: rest =>
      if r_updatedAt r <? r_updatedAt y
      then y :: insertByRecency r rest
      else r :: y :: rest
  end.

Fixpoint sortByRecency (l : list Recipient) : list Recipient :=
  match l with
  | [] => []
  | r :: rest => insertByRecency r (sortByRecency rest)
  end.

(** [recipients.filter((r) => { if (seen.has(r.to)) return false;
    seen.add(r.to); return true; })] *)
Fixpoint dedupe (seen : list jstring) (l : list Recipient) : list Recipient :=
  match l with
  | [] => []
  | r :: rest =>
      if bool_decide (r_to r ∈ seen) then dedupe seen rest
      else r :: dedupe (r_to r :: seen) rest
  end.

(** The [.map] step: the number an entry was last reached at over
    WhatsApp, or the empty string. *)
Definition recipientOf `{Externals} (entry : SessionEntry) : Recipient :=
  {| r_to :=
       if bool_decide (se_lastChannel entry = Some (str "whatsapp"))
          && truthy_opt (se_lastTo entry)
       then normalizeE164 (default [] (se_lastTo entry))
       else [];
     r_updatedAt := default 0 (se_updatedAt entry) |}.

(** A key of the store that may name a recipient. *)
Definition isPersonKey (key : jstring) : bool :=
  negb (jstring_eqb key (str "global"))
  && negb (jstring_eqb key (str "unknown"))
  && negb (isGroupKey key) && negb (isCronKey key).

(** The recipients before sorting. *)
Definition candidates `{Externals} (entries : list (jstring * SessionEntry))
  : list Recipient :=
  List.filter (fun r => (1 <? length (r_to r))%nat)
    (map (fun ke => recipientOf ke.2)
       (List.filter (fun ke => negb (isGroupKey ke.1) && negb (isCronKey ke.1))
          (List.filter
             (fun ke => negb (jstring_eqb ke.1 (str "global"))
                        && negb (jstring_eqb ke.1 (str "unknown")))
             entries))).

(** [getSessionRecipients(cfg)], on [Object.entries(store)]. *)
Definition getSessionRecipients `{Externals} (sc : SessionConfig)
    (entries : list (jstring * SessionEntry)) : list Recipient :=
  let scope := default (str "per-sender") (sc_scope sc) in
  if jstring_eqb scope (str "global") then []
  else dedupe [] (sortByRecency (candidates entries)).

Inductive RecipientSource :=
| FromFlag | FromAll | SessionSingle | SessionAmbiguous | FromAllowFrom.

(** [[...new Set(list.filter(Boolean))]] *)
Fixpoint unique (seen : list jstring) (l : list jstring) : list jstring :=
  match l with
  | [] => []
  | x :: rest =>
      if negb (truthy x) || bool_decide (x ∈ seen) then unique seen rest
      else x :: unique (x :: seen) rest
  end.

Definition resolveHeartbeatRecipients `{Externals} (sc : SessionConfig)
    (allowFrom : option (list jstring))
    (entries : list (jstring * SessionEntry))
    (opt_to : option jstring) (opt_all : bool)
  : list jstring * RecipientSource :=
  if truthy_opt opt_to then ([normalizeE164 (default [] opt_to)], FromFlag)
  else
    let sessionRecipients := getSessionRecipients sc entries in
    let allowFrom :=
      match allowFrom with
      | Some (e :: l) =>
          map normalizeE164
            (List.filter (fun v => negb (jstring_eqb v (str "*"))) (e :: l))
      | _ => []
      end in
    if opt_all
    then (unique [] (map r_to sessionRecipients ++ allowFrom), FromAll)
    else
      match sessionRecipients with
      | [r] => ([r_to r], SessionSingle)
      | _ :: _ :: _ => (map r_to sessionRecipients, SessionAmbiguous)
      | [] => (allowFrom, FromAllowFrom)
      end.

(** Sorted by recency: no element is older than one after it. *)
Definition byRecency (l : list Recipient) : Prop :=
  StronglySorted (fun a b => r_updatedAt b ≤ r_updatedAt a) l.

(** ** Further inputs for the witnesses *)

Module Scenario.

Definition transientError : JsError := ErrorObject (str "connection closed").

Definition fatalError : JsError := ErrorObject (str "boom").

(** The first call of [msg.reply] rejects with a transient error, the
    later ones resolve. *)
Definition flakyNetwork : Network :=
  {| replyOutcome := fun n _ =>
       match n with O => Some transientError | _ => None end;
     sendMediaOutcome := fun _ _ => None;
     loadWebMedia := loadWebMedia Sample.goodNetwork |}.

(** The second call of [msg.reply] rejects with an error that is not
    transient. *)
Definition secondReplyFails : Network :=
  {| replyOutcome := fun n _ =>
       match n with 1%nat => Some fatalError | _ => None end;
     sendMediaOutcome := fun _ _ => None;
     loadWebMedia := loadWebMedia Sample.goodNetwork |}.

Definition pngMedia : WebMedia :=
  {| media_buffer := [137; 80; 78; 71]%N;
     media_contentType := Some (str "image/png");
     media_kind := KImage; media_fileName := None |}.

Definition twoImages (t : jstring) : ReplyPayload :=
  {| text := Some t; mediaUrl := None;
     mediaUrls := Some [str "https://example.com/a.png";
                        str "https://example.com/b.png"];
     replyToId := None |}.

(** Every call of [msg.reply] rejects with an error that is not
    transient. *)
Definition replyRejectingNetwork : Network :=
  {| replyOutcome := fun _ _ => Some fatalError;
     sendMediaOutcome := fun _ _ => None;
     loadWebMedia := loadWebMedia Sample.goodNetwork |}.

(** A resolver that returns the silent token together with a media. *)
Definition tokenWithMediaResolver : MsgContext -> ResolverRun :=
  fun _ => {| run_toolResults := [];
              run_result :=
                inr (ReplyOne (Sample.captionedMedia (str "NO_REPLY"))) |}.

Definition loggedOutReason : DisconnectReason :=
  {| reason_status := Some 401; reason_isLoggedOut := Some true |}.

Definition loggedOutClose : Connection :=
  {| conn_stopAtTop := false;
     conn_wait := OnCloseResolved (Some loggedOutReason);
     conn_uptimeMs := 0; conn_stopAfter := false;
     conn_sleepRejects := false |}.

Definition abortedWait : Connection :=
  {| conn_stopAtTop := false; conn_wait := AbortFired;
     conn_uptimeMs := 0; conn_stopAfter := true;
     conn_sleepRejects := false |}.

Definition stoppedAtTop : Connection :=
  {| conn_stopAtTop := true; conn_wait := NeverSettles;
     conn_uptimeMs := 0; conn_stopAfter := true;
     conn_sleepRejects := false |}.

(** A connection that closes after two minutes. *)
Definition healthyClose : Connection :=
  {| conn_stopAtTop := false; conn_wait := OnCloseResolved None;
     conn_uptimeMs := 120000; conn_stopAfter := false;
     conn_sleepRejects := false |}.

(** A connection whose last message came at time 1000; the watchdog runs
    29 minutes later. *)
Definition recentMessage : Connection :=
  {| conn_stopAtTop := false;
     conn_wait := WatchdogRun (1000 + 29 * 60 * 1000) (Some 1000) true;
     conn_uptimeMs := 30 * 60 * 1000; conn_stopAfter := false;
     conn_sleepRejects := false |}.

(** The allow-list admits everybody. *)
Definition wildcardConfig : Config :=
  {| cfg_mention := {| mentionRegexes := []; allowFrom := Some [str "*"] |};
     cfg_historyLimit := None; cfg_groups := ∅; cfg_messagePrefix := None;
     cfg_responsePrefix := None; cfg_maxMediaBytes := 5 * 1024 * 1024 |}.

(** A history limit of two messages, in groups that need no mention. *)
Definition limitTwoAlways : Config :=
  {| cfg_mention := Sample.noMentionConfig; cfg_historyLimit := Some 2;
     cfg_groups := {[ str "*" := false ]}; cfg_messagePrefix := None;
     cfg_responsePrefix := None; cfg_maxMediaBytes := 5 * 1024 * 1024 |}.

(** Modelled from the spec: config/sessions.js and
    auto-reply/heartbeat.js are not among the sources. The
    heartbeat-acknowledgment token is matched exactly after trimming and
    is then suppressed; under the per-sender scope a session is keyed by
    the sender. These stand-ins serve to run the model on concrete
    inputs. *)
#[export] Instance sampleSessionExternals : SessionExternals := {|
  resolveSessionKey := fun scope ctx _ =>
    if jstring_eqb scope (str "global") then str "global" else kc_From ctx;
  DEFAULT_IDLE_MINUTES := 60;
  stripHeartbeatTokenInHeartbeat := fun t =>
    match t with
    | Some t =>
        if jstring_eqb (trim t) (str "HEARTBEAT_OK")
        then {| shouldSkip := true; strip_text := []; didStrip := true |}
        else {| shouldSkip := false; strip_text := t; didStrip := false |}
    | None => {| shouldSkip := true; strip_text := []; didStrip := false |}
    end
|}.

Definition perSender : SessionConfig :=
  {| sc_scope := None; sc_mainKey := None; sc_heartbeatIdleMinutes := None;
     sc_idleMinutes := None |}.

(** A session of +1 last used at time [t]. *)
Definition sessionAt (t : Z) : SessionEntry :=
  {| se_sessionId := Some (str "s0"); se_updatedAt := Some t;
     se_lastChannel := Some (str "whatsapp"); se_lastTo := Some (str "+1") |}.

Definition oneSession : gmap jstring SessionEntry :=
  {[ str "+1" := sessionAt 5 ]}.

Definition plainHeartbeat : HeartbeatOpts :=
  {| opt_to := str "+1"; opt_sessionId := None; opt_overrideBody := None;
     opt_dryRun := false |}.

Definition heartbeatWithSession : HeartbeatOpts :=
  {| opt_to := str "+1"; opt_sessionId := Some (str "s1");
     opt_overrideBody := None; opt_dryRun := false |}.

Definition blankOverride : HeartbeatOpts :=
  {| opt_to := str "+1"; opt_sessionId := None;
     opt_overrideBody := Some (str "  "); opt_dryRun := false |}.

(** A resolver that answers with the heartbeat token and leaves the
    store alone. *)
Definition tokenResolver (_ : option jstring)
    (store : gmap jstring SessionEntry)
  : (JsError + ReplyResult) * gmap jstring SessionEntry :=
  (inr (ReplyOne (Sample.textPayload (str "HEARTBEAT_OK"))), store).

(** A resolver that answers with the heartbeat token after marking the
    session of +1 as used at time 99. *)
Definition busyTokenResolver (_ : option jstring)
    (store : gmap jstring SessionEntry)
  : (JsError + ReplyResult) * gmap jstring SessionEntry :=
  (inr (ReplyOne (Sample.textPayload (str "HEARTBEAT_OK"))),
   <[str "+1" := sessionAt 99]> store).

End Scenario.

(** * Properties *)

(** ** The echo set *)

Lemma has_true (s : list jstring) (x : jstring) :
  EchoSet.has s x = true ↔ x ∈ s.
Proof. unfold EchoSet.has. by rewrite bool_decide_eq_true. Qed.

Lemma has_false (s : list jstring) (x : jstring) :
  EchoSet.has s x = false ↔ x ∉ s.
Proof. unfold EchoSet.has. by rewrite bool_decide_eq_false. Qed.

Lemma elem_of_delete (s : list jstring) (x y : jstring) :
  y ∈ EchoSet.delete s x ↔ y ∈ s ∧ y ≠ x.
Proof. unfold EchoSet.delete. rewrite list_elem_of_filter. tauto. Qed.

Lemma shouldSuppress_hit (s : list jstring) (x : jstring) :
  x ∈ s → EchoSet.shouldSuppress s x = (true, EchoSet.delete s x).
Proof.
  intros Hin. unfold EchoSet.shouldSuppress.
  by rewrite (proj2 (has_true _ _) Hin).
Qed.

Lemma shouldSuppress_miss (s : list jstring) (x : jstring) :
  x ∉ s → EchoSet.shouldSuppress s x = (false, s).
Proof.
  intros Hin. unfold EchoSet.shouldSuppress.
  by rewrite (proj2 (has_false _ _) Hin).
Qed.

(** C8. Echo suppression is one-shot. When the body of a message is in
    the set of recently sent texts, the test answers true and removes
    it, and the same test run again straight away answers false and
    leaves the set alone; accordingly [onMessage] skips the message as an
    echo the first time and does not skip it as an echo the second
    time. *)
Theorem shouldSuppress_one_shot `{Externals} (net : Network) (cfg : Config)
    (store : SessionStore) (replyResolver : MsgContext -> ResolverRun)
    (msg : WebInboundMsg) (s : MonitorState) (w : list Event) :
  msg_body msg ∈ recentlySent s →
  let x := msg_body msg in
  let s1 := {| recentlySent := EchoSet.delete (recentlySent s) x;
               groupHistories := groupHistories s |} in
  EchoSet.shouldSuppress (recentlySent s) x = (true, recentlySent s1)
  ∧ EchoSet.shouldSuppress (recentlySent s1) x = (false, recentlySent s1)
  ∧ onMessage net cfg store replyResolver msg s w
    = Some (SkippedEcho, (inr tt, s1, w))
  ∧ fst <$> onMessage net cfg store replyResolver msg s1 w ≠ Some SkippedEcho.
Proof.
  intros Hin x s1. subst x.
  assert (Hnot : msg_body msg ∉ recentlySent s1).
  { simpl. rewrite elem_of_delete. tauto. }
  split_and!.
  - by apply shouldSuppress_hit.
  - by apply shouldSuppress_miss.
  - unfold onMessage. by rewrite (shouldSuppress_hit _ _ Hin).
  - unfold onMessage. rewrite (shouldSuppress_miss _ _ Hnot).
    destruct (isGroup msg); [|by simpl].
    destruct (_ && negb _); [by simpl|].
    match goal with |- fst <$> (mbind _ ?o) ≠ _ => destruct o as [s'|] end;
      simpl; [|done].
    by destruct (_ && _ && _).
Qed.

Lemma shouldSuppress_one_shot_witness :
  str "hi" ∈ [str "hi"]
  ∧ EchoSet.shouldSuppress [str "hi"] (str "hi") = (true, [])
  ∧ EchoSet.shouldSuppress [] (str "hi") = (false, []).
Proof.
  assert (Hin : str "hi" ∈ [str "hi"]) by (vm_compute; left).
  split; [exact Hin|].
  pose proof (shouldSuppress_one_shot (H := Sample.sampleExternals)
                Sample.goodNetwork Sample.plainConfig ∅
                (fun _ => {| run_toolResults := [];
                             run_result := inr ReplyUndefined |})
                (Sample.directMsg (str "hi"))
                {| recentlySent := [str "hi"]; groupHistories := ∅ |} [] Hin)
    as (H1 & H2 & _).
  split; [exact H1|exact H2].
Defined.

(** ** Group history *)

(** The eviction loop keeps the last [limit] entries. *)
Lemma shiftWhileOver_spec (fuel : nat) (limit : Z) (h : list HistoryEntry) :
  0 ≤ limit → (length h - Z.to_nat limit ≤ fuel)%nat →
  shiftWhileOver fuel limit h = Some (drop (length h - Z.to_nat limit) h).
Proof.
  intros Hlim. revert h.
  induction fuel as [|fuel IH]; intros h Hfuel; simpl.
  - destruct (Z.gtb_spec (Z.of_nat (length h)) limit) as [Hgt|Hle]; [lia|].
    by replace (length h - Z.to_nat limit)%nat with 0%nat by lia.
  - destruct (Z.gtb_spec (Z.of_nat (length h)) limit) as [Hgt|Hle].
    + destruct h as [|e h]; [simpl in Hgt; lia|].
      simpl tail. rewrite IH by (simpl in *; lia).
      f_equal. simpl length in *.
      replace (S (length h) - Z.to_nat limit)%nat
        with (S (length h - Z.to_nat limit)) by lia.
      done.
    + by replace (length h - Z.to_nat limit)%nat with 0%nat by lia.
Qed.

Lemma pushHistory_spec (limit : Z) (h : list HistoryEntry) (e : HistoryEntry) :
  0 ≤ limit →
  pushHistory limit h e
  = Some (drop (length (h ++ [e]) - Z.to_nat limit) (h ++ [e])).
Proof.
  intros Hlim. unfold pushHistory. apply shiftWhileOver_spec; [done|lia].
Qed.

Lemma pushHistory_diverges (limit : Z) (h : list HistoryEntry) (e : HistoryEntry) :
  limit < 0 → pushHistory limit h e = None.
Proof.
  intros Hlim. unfold pushHistory.
  generalize (h ++ [e]). intros l. generalize (S (length l)). intros fuel.
  revert l. induction fuel as [|fuel IH]; intros l; simpl.
  - destruct (Z.gtb_spec (Z.of_nat (length l)) limit); [done|lia].
  - destruct (Z.gtb_spec (Z.of_nat (length l)) limit); [apply IH|lia].
Qed.

Lemma drop_last_app {A} (n : nat) (a b : list A) :
  drop (length (drop (length a - n) a ++ b) - n) (drop (length a - n) a ++ b)
  = drop (length (a ++ b) - n) (a ++ b).
Proof.
  destruct (decide (length a ≤ n)%nat) as [Hle|Hgt].
  - replace (length a - n)%nat with 0%nat by lia. by rewrite drop_0.
  - rewrite !length_app, length_drop.
    replace (length a - (length a - n) + length b - n)%nat
      with (length b) by lia.
    replace (length a + length b - n)%nat
      with ((length a - n) + length b)%nat by lia.
    rewrite <- drop_drop. f_equal.
    rewrite drop_app_le by lia. done.
Qed.

Lemma pushAll_spec (limit : Z) (es h : list HistoryEntry) :
  0 ≤ limit → (length h ≤ Z.to_nat limit)%nat →
  pushAll limit h es
  = Some (drop (length (h ++ es) - Z.to_nat limit) (h ++ es)).
Proof.
  intros Hlim. revert h.
  induction es as [|e es IH]; intros h Hh; simpl.
  - rewrite app_nil_r. by replace (length h - Z.to_nat limit)%nat with 0%nat by lia.
  - rewrite pushHistory_spec by done. simpl.
    rewrite IH.
    + f_equal. rewrite drop_last_app. by rewrite <- app_assoc.
    + rewrite length_drop, length_app. simpl. lia.
Qed.

Lemma processMessage_histories `{Externals} (net : Network) (cfg : Config)
    (replyResolver : MsgContext -> ResolverRun) (wasMentioned : option bool)
    (msg : WebInboundMsg) (s : MonitorState) (w : list Event) :
  let s' := (processMessage net cfg replyResolver wasMentioned msg s w).1.2 in
  groupHistories s' = groupHistories s
  ∨ groupHistories s' = <[conversationIdOf msg := []]> (groupHistories s).
Proof.
  unfold processMessage.
  destruct (EchoSet.shouldSuppress _ _) as [[|] sent]; simpl; [by left|].
  destruct (foldAsync _ _ _ _) as [tools w1].
  destruct (run_result _) as [err|res]; simpl; [by left|].
  destruct (foldAsync _ _ _ _) as [finals w2]. simpl.
  unfold clearHistoryIfSent.
  destruct (_ && _); [by right|by left].
Qed.

(** C7. With a cap that is not negative (50 when the configuration gives
    none), handling any inbound message keeps every conversation's
    history within the cap, and the handler returns; eviction is
    first-in first-out: after cap + k entries have been pushed on an
    empty history, exactly the last cap of them remain, in order. *)
Theorem group_history_bounded_fifo `{Externals} (net : Network) (cfg : Config)
    (store : SessionStore) (replyResolver : MsgContext -> ResolverRun)
    (msg : WebInboundMsg) (s : MonitorState) (w : list Event) :
  let cap := groupHistoryLimit cfg in
  0 ≤ cap →
  map_Forall (fun _ h => Z.of_nat (length h) ≤ cap) (groupHistories s) →
  (cfg_historyLimit cfg = None → cap = 50)
  ∧ (∃ d r s' w',
        onMessage net cfg store replyResolver msg s w = Some (d, (r, s', w'))
        ∧ map_Forall (fun _ h => Z.of_nat (length h) ≤ cap) (groupHistories s'))
  ∧ (∀ k : nat, ∀ entries : list HistoryEntry,
        length entries = (Z.to_nat cap + k)%nat →
        pushAll cap [] entries = Some (drop k entries)).
Proof.
  intros cap Hcap Hb. split_and!.
  - unfold cap, groupHistoryLimit. by intros ->.
  - unfold onMessage.
    destruct (EchoSet.shouldSuppress _ _) as [[|] sent]; simpl;
      [by eexists _, _, _, _|].
    assert (Hproc : ∀ wm s0,
      map_Forall (fun _ h => Z.of_nat (length h) ≤ cap) (groupHistories s0) →
      map_Forall (fun _ h => Z.of_nat (length h) ≤ cap)
        (groupHistories (processMessage net cfg replyResolver wm msg s0 w).1.2)).
    { intros wm s0 H0.
      destruct (processMessage_histories net cfg replyResolver wm msg s0 w)
        as [-> | ->]; [done|].
      apply map_Forall_insert_2; [simpl; lia|done]. }
    destruct (isGroup msg).
    2:{ specialize (Hproc None s Hb).
        destruct (processMessage _ _ _ _ _ _ _) as [[r s'] w'].
        simpl in Hproc.
        eexists _, _, _, _; split; [reflexivity|exact Hproc]. }
    destruct (parseActivationCommand_hasCommand _ && negb (isOwnerSender cfg msg)).
    { by eexists _, _, _, _. }
    destruct (isOwnerSender cfg msg && _); simpl.
    + specialize (Hproc (Some (isBotMentioned msg (cfg_mention cfg))) s Hb).
      destruct (processMessage _ _ _ _ _ _ _) as [[r s'] w'].
      simpl in Hproc.
      eexists _, _, _, _; split; [reflexivity|exact Hproc].
    + fold cap. rewrite pushHistory_spec by done. simpl.
      set (s1 := {| recentlySent := _; groupHistories := _ |}).
      assert (Hb1 : map_Forall (fun _ h => Z.of_nat (length h) ≤ cap)
                      (groupHistories s1)).
      { apply map_Forall_insert_2; [|done].
        rewrite length_drop. lia. }
      destruct (_ && negb (isBotMentioned _ _));
        [eexists _, _, _, _; split; [reflexivity|exact Hb1]|].
      specialize (Hproc (Some (isBotMentioned msg (cfg_mention cfg))) s1 Hb1).
      destruct (processMessage _ _ _ _ _ _ _) as [[r s'] w'].
      simpl in Hproc.
      eexists _, _, _, _; split; [reflexivity|exact Hproc].
  - intros k entries Hlen. rewrite pushAll_spec by (done || simpl; lia).
    simpl. f_equal. f_equal. lia.
Qed.

Lemma group_history_bounded_fifo_witness :
  0 ≤ groupHistoryLimit Sample.plainConfig
  ∧ ∀ entries : list HistoryEntry,
      length entries = 53%nat → pushAll 50 [] entries = Some (drop 3 entries).
Proof.
  assert (Hcap : 0 ≤ groupHistoryLimit Sample.plainConfig)
    by (vm_compute; discriminate).
  split; [exact Hcap|].
  pose proof (group_history_bounded_fifo (H := Sample.sampleExternals)
                Sample.goodNetwork Sample.plainConfig ∅
                (fun _ => {| run_toolResults := [];
                             run_result := inr ReplyUndefined |})
                (Sample.directMsg (str "hi")) Sample.emptyState [] Hcap
                (map_Forall_empty _)) as (_ & _ & Hfifo).
  intros entries Hlen. exact (Hfifo 3%nat entries Hlen).
Defined.

(** ** Strings *)

Lemma startsWith_app (p r : jstring) : startsWith (p ++ r) p = true.
Proof.
  induction p as [|c p IH]; [by destruct r|].
  simpl. by rewrite N.eqb_refl.
Qed.

Lemma includes_prefix (p r : jstring) : includes (p ++ r) p = true.
Proof.
  destruct p as [|c p]; [by destruct r|].
  change (includes ((c :: p) ++ r) (c :: p))
    with (startsWith ((c :: p) ++ r) (c :: p) || includes (p ++ r) (c :: p)).
  by rewrite startsWith_app.
Qed.

Lemma includes_app_r (x y p : jstring) :
  includes y p = true → includes (x ++ y) p = true.
Proof.
  intros Hy. induction x as [|c x IH]; [done|].
  change (includes ((c :: x) ++ y) p)
    with (startsWith ((c :: x) ++ y) p || includes (x ++ y) p).
  by rewrite IH, orb_true_r.
Qed.

Lemma includes_self (p : jstring) : includes p p = true.
Proof. rewrite <- (app_nil_r p) at 1. apply includes_prefix. Qed.

Lemma warning_says_media_failed (err : JsError) :
  includes (mediaFailedWarning err) (str "Media failed") = true.
Proof.
  destruct err as [message|shown].
  - change (mediaFailedWarning (ErrorObject message))
      with ((warningSign ++ [32%N])
            ++ (str "Media failed" ++ (str ": " ++ message))).
    apply includes_app_r, includes_prefix.
  - by vm_compute.
Qed.

Lemma warning_truthy (err : JsError) : truthy (mediaFailedWarning err) = true.
Proof. by destruct err. Qed.

(** ** A small program logic for [Async] *)

Lemma post_weaken {A} (m : Async A) (Q Q' : JsError + A -> list Event -> Prop) :
  post m Q → (∀ r new, Q r new → Q' r new) → post m Q'.
Proof.
  intros Hm HQ w. destruct (Hm w) as (r & new & Heq & HQr). eauto.
Qed.

Lemma post_ret {A} (a : A) (Q : JsError + A -> list Event -> Prop) :
  Q (inr a) [] → post (ret a) Q.
Proof. intros HQ w. exists (inr a), []. by rewrite app_nil_r. Qed.

Lemma post_throw {A} (e : JsError) (Q : JsError + A -> list Event -> Prop) :
  Q (inl e) [] → post (throw e) Q.
Proof. intros HQ w. exists (inl e), []. by rewrite app_nil_r. Qed.

Lemma post_emit (e : Event) (Q : JsError + unit -> list Event -> Prop) :
  Q (inr tt) [e] → post (emit e) Q.
Proof. intros HQ w. by exists (inr tt), [e]. Qed.

Lemma post_bind {A B} (m : Async A) (k : A -> Async B)
    (Q1 : JsError + A -> list Event -> Prop)
    (Q : JsError + B -> list Event -> Prop) :
  post m Q1 →
  (∀ a n1, Q1 (inr a) n1 → post (k a) (fun r n2 => Q r (n1 ++ n2))) →
  (∀ e n1, Q1 (inl e) n1 → Q (inl e) n1) →
  post (bind m k) Q.
Proof.
  intros Hm Hk He w. unfold bind.
  destruct (Hm w) as ([e|a] & n1 & -> & H1).
  - exists (inl e), n1. eauto.
  - destruct (Hk a n1 H1 (w ++ n1)) as (r & n2 & -> & H2).
    exists r, (n1 ++ n2). by rewrite app_assoc.
Qed.

Lemma post_tryCatch {A} (m : Async A) (h : JsError -> Async A)
    (Q1 Q : JsError + A -> list Event -> Prop) :
  post m Q1 →
  (∀ a n1, Q1 (inr a) n1 → Q (inr a) n1) →
  (∀ e n1, Q1 (inl e) n1 → post (h e) (fun r n2 => Q r (n1 ++ n2))) →
  post (tryCatch m h) Q.
Proof.
  intros Hm Hok Hh w. unfold tryCatch.
  destruct (Hm w) as ([e|a] & n1 & -> & H1).
  - destruct (Hh e n1 H1 (w ++ n1)) as (r & n2 & -> & H2).
    exists r, (n1 ++ n2). by rewrite app_assoc.
  - exists (inr a), n1. eauto.
Qed.

Lemma post_reply (net : Network) (body : jstring)
    (Q : JsError + unit -> list Event -> Prop) :
  (∀ e, Q (inl e) [EvReply body false]) →
  Q (inr tt) [EvReply body true] →
  post (reply net body) Q.
Proof.
  intros Hrej Hok w. unfold reply.
  destruct (replyOutcome net _ body) as [e|]; simpl.
  - exists (inl e), [EvReply body false]. eauto.
  - exists (inr tt), [EvReply body true]. eauto.
Qed.

Lemma post_sendMedia (net : Network) (m : MediaMessage)
    (Q : JsError + unit -> list Event -> Prop) :
  (∀ e, Q (inl e) [EvSendMedia m false]) →
  Q (inr tt) [EvSendMedia m true] →
  post (sendMedia net m) Q.
Proof.
  intros Hrej Hok w. unfold sendMedia.
  destruct (sendMediaOutcome net _ m) as [e|]; simpl.
  - exists (inl e), [EvSendMedia m false]. eauto.
  - exists (inr tt), [EvSendMedia m true]. eauto.
Qed.

Lemma post_sendMedia_rejecting (net : Network) (m : MediaMessage)
    (Q : JsError + unit -> list Event -> Prop) :
  (∀ n m', sendMediaOutcome net n m' ≠ None) →
  (∀ e, Q (inl e) [EvSendMedia m false]) →
  post (sendMedia net m) Q.
Proof.
  intros Hnet Hrej w. unfold sendMedia.
  destruct (sendMediaOutcome net _ m) as [e|] eqn:Ho; simpl.
  - exists (inl e), [EvSendMedia m false]. eauto.
  - by apply Hnet in Ho.
Qed.

(** ** Reply delivery *)

Section Delivery.
Context `{Ext : Externals}.

Lemma retry_rejecting (net : Network) (m : MediaMessage) :
  (∀ n m', sendMediaOutcome net n m' ≠ None) →
  ∀ more attempt,
    post (sendWithRetryFrom (sendMedia net m) attempt more)
      (fun r new => (∃ e, r = inl e)
                    ∧ Forall (fun e => isFailedAttempt e = true) new).
Proof.
  intros Hnet more.
  induction more as [|more IH]; intros attempt; simpl.
  - eapply post_tryCatch.
    + apply post_sendMedia_rejecting with
        (Q := fun r new => (∃ e, r = inl e) ∧ new = [EvSendMedia m false]);
        eauto.
    + by intros [] n1 [[e ?] _].
    + intros e n1 [_ ->]. apply post_throw. split; [eauto|].
      repeat constructor.
  - eapply post_tryCatch.
    + apply post_sendMedia_rejecting with
        (Q := fun r new => (∃ e, r = inl e) ∧ new = [EvSendMedia m false]);
        eauto.
    + by intros [] n1 [[e ?] _].
    + intros e n1 [_ ->].
      destruct (negb (looksTransient (formatError e))).
      * apply post_throw. split; [eauto|]. repeat constructor.
      * eapply post_bind.
        -- apply post_emit with
             (Q := fun r new => r = inr tt ∧ new = [EvSleep (500 * attempt)]).
           done.
        -- intros [] n1 [_ ->].
           eapply post_weaken; [apply IH|].
           intros r new [Hr Hnew]. split; [done|].
           simpl. repeat constructor. done.
        -- by intros e' n1 [? _].
Qed.

Lemma fallback_after_rejection (net : Network) (maxMediaBytes : Z)
    (mediaUrl : jstring) (chunks : list jstring) :
  (∀ n m, sendMediaOutcome net n m ≠ None) →
  (length chunks ≤ 1)%nat →
  post (sendOneMedia net maxMediaBytes true mediaUrl chunks)
    (fun r new =>
       ∃ pre body ok,
         new = pre ++ [EvMediaFailureLogged mediaUrl; EvReply body ok]
         ∧ Forall (fun e => isFailedAttempt e = true) pre
         ∧ includes body (str "Media failed") = true
         ∧ (∀ c, c ∈ chunks → includes body c = true)
         ∧ (if ok then r = inr [] else ∃ e, r = inl e)).
Proof.
  intros Hnet Hlen. unfold sendOneMedia.
  assert (Hshift : ∃ caption, shiftCaption chunks = (caption, [])
            ∧ ∀ c, c ∈ chunks → truthy c = true → caption = Some c).
  { destruct chunks as [|c [|c' chunks]]; simpl in *; [| |lia].
    - exists None. split; [done|]. by intros c ?%elem_of_nil.
    - eexists. split; [done|].
      intros c0 ->%list_elem_of_singleton ->. done. }
  destruct Hshift as (caption & -> & Hcap).
  eapply post_tryCatch with
    (Q1 := fun r new => (∃ e, r = inl e)
                        ∧ Forall (fun e => isFailedAttempt e = true) new).
  - destruct (loadWebMedia net mediaUrl maxMediaBytes) as [err|media].
    + apply post_throw. split; [eauto|constructor].
    + eapply post_bind.
      * by apply retry_rejecting.
      * by intros [] n1 [[e ?] _].
      * intros e n1 [_ ?]. split; [eauto|done].
  - by intros a n1 [[e ?] _].
  - intros err pre [_ Hpre].
    eapply post_bind.
    + apply post_emit with
        (Q := fun r new => r = inr tt ∧ new = [EvMediaFailureLogged mediaUrl]).
      done.
    + intros [] n1 [_ ->]. unfold mediaFallback.
      set (first := default [] caption).
      set (body := join newline (List.filter truthy [first; mediaFailedWarning err])).
      assert (Hbody : includes body (str "Media failed") = true
                      ∧ (∀ c, c ∈ chunks → includes body c = true)
                      ∧ truthy body = true).
      { pose proof (warning_says_media_failed err) as Hw.
        pose proof (warning_truthy err) as Ht.
        assert (Heq : body = if truthy first
                             then first ++ newline ++ mediaFailedWarning err
                             else mediaFailedWarning err).
        { unfold body. cbn [List.filter]. rewrite Ht.
          by destruct (truthy first). }
        rewrite Heq. clear Heq body.
        destruct (truthy first) eqn:Hfirst.
        - split_and!.
          + by apply includes_app_r, includes_app_r.
          + intros c Hc. destruct (truthy c) eqn:Htc.
            * unfold first. rewrite (Hcap c Hc Htc). apply includes_prefix.
            * destruct c; [|done]. by destruct first.
          + by destruct first.
        - split_and!; [done| |done].
          intros c Hc. destruct (truthy c) eqn:Htc.
          + unfold first in Hfirst. rewrite (Hcap c Hc Htc) in Hfirst.
            simpl in Hfirst. congruence.
          + destruct c; [|done]. by destruct (mediaFailedWarning err). }
      destruct Hbody as (Hb1 & Hb2 & ->).
      eapply post_bind.
      * apply post_reply with
          (Q := fun r new => ∃ ok, new = [EvReply body ok]
                  ∧ if ok then r = inr tt else ∃ e, r = inl e).
        -- intros e. exists false. eauto.
        -- by exists true.
      * intros [] n1 (ok & -> & Hok). apply post_ret.
        exists pre, body, ok. rewrite app_nil_r.
        destruct ok; [|by destruct Hok].
        by split_and!.
      * intros e n1 (ok & -> & Hok).
        exists pre, body, ok.
        destruct ok; [done|]. split_and!; eauto.
    + by intros e n1 [? _].
Qed.

Lemma failed_attempts_no_reply (pre : list Event) :
  Forall (fun e => isFailedAttempt e = true) pre →
  List.filter isReplyEvent pre = []
  ∧ List.filter isSuccessfulSend pre = [].
Proof.
  induction 1 as [|e pre He _ [IH1 IH2]]; [done|].
  simpl. rewrite IH1, IH2. by destruct e as [| ? []| | | | |].
Qed.

Lemma later_media_rejecting (net : Network) (maxMediaBytes : Z) :
  (∀ n m, sendMediaOutcome net n m ≠ None) →
  ∀ (rest : list jstring) (remainingText : list jstring),
    post (mediaLoop net maxMediaBytes false rest remainingText)
      (fun r new =>
         r = inr remainingText
         ∧ List.filter isReplyEvent new = []
         ∧ List.filter isSuccessfulSend new = []
         ∧ ∀ u, u ∈ rest → EvMediaFailureLogged u ∈ new).
Proof.
  intros Hnet rest remainingText.
  induction rest as [|mediaUrl rest IH]; simpl.
  - apply post_ret. split_and!; try done. by intros u ?%elem_of_nil.
  - eapply post_bind with
      (Q1 := fun r new =>
               r = inr remainingText
               ∧ ∃ pre, new = pre ++ [EvMediaFailureLogged mediaUrl]
                        ∧ Forall (fun e => isFailedAttempt e = true) pre).
    + unfold sendOneMedia.
      eapply post_tryCatch with
        (Q1 := fun r new => (∃ e, r = inl e)
                 ∧ Forall (fun e => isFailedAttempt e = true) new).
      * destruct (loadWebMedia net mediaUrl maxMediaBytes) as [err|media].
        -- apply post_throw. split; [eauto|constructor].
        -- eapply post_bind.
           ++ by apply retry_rejecting.
           ++ by intros [] n1 [[e ?] _].
           ++ intros e n1 [_ ?]. split; [eauto|done].
      * by intros a n1 [[e ?] _].
      * intros err pre [_ Hpre].
        eapply post_bind.
        -- apply post_emit with
             (Q := fun r new => r = inr tt
                     ∧ new = [EvMediaFailureLogged mediaUrl]).
           done.
        -- intros [] n1 [_ ->]. apply post_ret. rewrite app_nil_r. eauto.
        -- by intros e n1 [? _].
    + intros a n1 [[= <-] (pre & -> & Hpre)].
      eapply post_weaken; [apply IH|].
      intros r new (-> & Hr & Hs & Hlog).
      apply failed_attempts_no_reply in Hpre as [Hp1 Hp2].
      rewrite !List.filter_app, Hp1, Hp2, Hr, Hs.
      split_and!; try done.
      intros u [->|Hu]%elem_of_cons.
      * rewrite !elem_of_app. left. right. by left.
      * rewrite elem_of_app. right. by apply Hlog.
    + by intros e n1 [? _].
Qed.

(** C3, as amended. Take a reply whose text comes back from [chunkText]
    as at most one chunk and which names exactly one media, on a
    connection where every [msg.sendMedia] rejects. Delivery then makes
    exactly one [msg.reply], whose body contains the caption chunk and
    the words Media failed, logs the failure, and no media send
    succeeds. For the media items after the first, failures are logged
    and no reply is sent at all. *)
Theorem media_failure_fallback (net : Network) (p : ReplyPayload)
    (maxMediaBytes : Z) (mediaUrl : jstring)
    (rest remainingText : list jstring) (w : list Event) :
  (∀ n m, sendMediaOutcome net n m ≠ None) →
  mediaListOf p = [mediaUrl] →
  (length (chunkText (default [] (text p)) WEB_TEXT_LIMIT) ≤ 1)%nat →
  (∃ r new body ok,
      deliverWebReply net p maxMediaBytes w = (r, w ++ new)
      ∧ List.filter isReplyEvent new = [EvReply body ok]
      ∧ List.filter isSuccessfulSend new
        = (if ok then [EvReply body true] else [])
      ∧ (ok = true ↔ r = inr tt)
      ∧ EvMediaFailureLogged mediaUrl ∈ new
      ∧ includes body (str "Media failed") = true
      ∧ ∀ c, c ∈ chunkText (default [] (text p)) WEB_TEXT_LIMIT →
             includes body c = true)
  ∧ (∃ new,
      mediaLoop net maxMediaBytes false rest remainingText w
      = (inr remainingText, w ++ new)
      ∧ List.filter isReplyEvent new = []
      ∧ List.filter isSuccessfulSend new = []
      ∧ ∀ u, u ∈ rest → EvMediaFailureLogged u ∈ new).
Proof.
  intros Hnet Hmedia Hlen. split.
  - unfold deliverWebReply. rewrite Hmedia.
    set (chunks := chunkText _ _) in *.
    cbv iota.
    match goal with
    | |- ∃ r new body ok, ?m w = _ ∧ _ =>
        assert (Hpost : post m
          (fun r new =>
             ∃ pre body ok,
               new = pre ++ [EvMediaFailureLogged mediaUrl; EvReply body ok]
               ∧ Forall (fun e => isFailedAttempt e = true) pre
               ∧ includes body (str "Media failed") = true
               ∧ (∀ c, c ∈ chunks → includes body c = true)
               ∧ (if ok then r = inr tt else ∃ e, r = inl e)))
    end.
    { eapply post_bind.
      - simpl. eapply post_bind.
        + by apply fallback_after_rejection.
        + intros a n1 H1. apply post_ret. rewrite app_nil_r. exact H1.
        + intros e n1 H1. exact H1.
      - intros a n1 (pre & body & ok & -> & Hpre & Hb1 & Hb2 & Hr).
        destruct ok; [|by destruct Hr]. injection Hr as ->.
        apply post_ret. rewrite app_nil_r. by exists pre, body, true.
      - intros e n1 (pre & body & ok & -> & Hpre & Hb1 & Hb2 & Hr).
        destruct ok; [done|]. exists pre, body, false. split_and!; eauto. }
    destruct (Hpost w) as (r & new & -> & pre & body & ok & -> & Hpre & Hb1 & Hb2 & Hr).
    exists r, (pre ++ [EvMediaFailureLogged mediaUrl; EvReply body ok]), body, ok.
    apply failed_attempts_no_reply in Hpre as [Hp1 Hp2].
    rewrite !List.filter_app, Hp1, Hp2. simpl.
    split_and!; try done.
    + by destruct ok.
    + destruct ok; [by rewrite Hr|]. destruct Hr as [e ->]. by split.
    + rewrite elem_of_app. right. by left.
  - destruct (later_media_rejecting net maxMediaBytes Hnet rest remainingText w)
      as (r & new & -> & -> & H1 & H2 & H3).
    by exists new.
Qed.

End Delivery.


(** C3 as stated fails for a long text: 8001 letters make three chunks;
    the first is the caption of the rejected media, the second goes out
    with the failure note and the third as a further text message, so
    two text-only sends happen, not one. *)
Lemma media_fallback_long_text_counterexample :
  ¬ (∀ (Ext : Externals) (net : Network) (p : ReplyPayload)
       (maxMediaBytes : Z) (mediaUrl : jstring) (w : list Event),
       (∀ n m, sendMediaOutcome net n m ≠ None) →
       truthy_opt (text p) = true →
       mediaListOf p = [mediaUrl] →
       ∃ r new body ok,
         deliverWebReply net p maxMediaBytes w = (r, w ++ new)
         ∧ List.filter isReplyEvent new = [EvReply body ok]
         ∧ List.filter isSuccessfulSend new
           = (if ok then [EvReply body true] else [])
         ∧ includes body (str "Media failed") = true
         ∧ includes body (default [] (text p)) = true).
Proof.
  intros Hclaim.
  destruct (Hclaim Sample.sampleExternals Sample.mediaRejectingNetwork
              (Sample.captionedMedia Sample.longText) (5 * 1024 * 1024)
              (str "https://example.com/img.png") [])
    as (r & new & body & ok & Heq & Hreplies & _); [done|done|done|].
  apply (f_equal snd) in Heq.
  change (snd (deliverWebReply (Ext := Sample.sampleExternals)
                 Sample.mediaRejectingNetwork
                 (Sample.captionedMedia Sample.longText) (5 * 1024 * 1024) []) = new)
    in Heq.
  rewrite <- Heq in Hreplies.
  apply (f_equal length) in Hreplies.
  vm_compute in Hreplies. discriminate.
Qed.

(** ** Silent replies *)

Lemma hasMedia_withText `{Externals} (p : ReplyPayload) (t : jstring) :
  hasMedia (withText p t) = hasMedia p.
Proof. done. Qed.

Lemma hasMedia_carriesContent `{Externals} (p : ReplyPayload) :
  hasMedia p = true → carriesContent p = true.
Proof.
  unfold hasMedia, carriesContent, mediaListOf, hasMediaUrls.
  destruct (mediaUrls p) as [[|u l]|]; simpl;
    destruct (truthy_opt (mediaUrl p)); done.
Qed.

Lemma hasMedia_prefixed `{Externals} (prefix : option jstring)
    (p : ReplyPayload) :
  hasMedia (applyResponsePrefix prefix p) = hasMedia p.
Proof.
  unfold applyResponsePrefix.
  destruct prefix as [prefix|], (text p) as [t|]; try done.
  by destruct (_ && _ && _ && _).
Qed.

(** ** The bound of the echo set *)

(** C2, at a failing input. The set holds 100 texts; a direct message is
    answered with the text ok and the send succeeds. The bookkeeping adds
    the reply text and the combined inbound body and evicts once: the
    oldest entry goes, and 101 entries remain. *)
Theorem echo_set_exceeds_bound :
  let s := {| recentlySent := Sample.hundredSent; groupHistories := ∅ |} in
  let s' := (processMessage (Ext := Sample.sampleExternals)
               Sample.goodNetwork Sample.plainConfig Sample.okResolver None
               (Sample.directMsg (str "hello")) s []).1.2 in
  EchoSet.size (recentlySent s) = EchoSet.MAX_RECENT_MESSAGES
  ∧ EchoSet.size (recentlySent s') = 101
  ∧ EchoSet.size (recentlySent s') > EchoSet.MAX_RECENT_MESSAGES
  ∧ recentlySent s'
    = tail Sample.hundredSent
      ++ [str "ok";
          combinedBodyOf (Ext := Sample.sampleExternals) Sample.plainConfig s
            (Sample.directMsg (str "hello"))].
Proof. by vm_compute. Qed.

Lemma media_failure_fallback_witness :
  (∀ n m, sendMediaOutcome Sample.mediaRejectingNetwork n m ≠ None)
  ∧ ∃ r new body ok,
      deliverWebReply (Ext := Sample.sampleExternals)
        Sample.mediaRejectingNetwork (Sample.captionedMedia (str "hi"))
        (5 * 1024 * 1024) [] = (r, new)
      ∧ List.filter isReplyEvent new = [EvReply body ok]
      ∧ includes body (str "hi") = true.
Proof.
  assert (Hnet : ∀ n m, sendMediaOutcome Sample.mediaRejectingNetwork n m ≠ None)
    by (intros n m; discriminate).
  split; [exact Hnet|].
  destruct (media_failure_fallback (Ext := Sample.sampleExternals)
              Sample.mediaRejectingNetwork (Sample.captionedMedia (str "hi"))
              (5 * 1024 * 1024) (str "https://example.com/img.png") [] [] []
              Hnet eq_refl)
    as [(r & new & body & ok & Heq & Hreplies & _ & _ & _ & _ & Hcaption) _].
  { vm_compute. lia. }
  exists r, new, body, ok. split_and!; [exact Heq|exact Hreplies|].
  apply Hcaption. vm_compute. left.
Defined.

(** ** The mention gate *)

Section Gate.
Context `{Ext : Externals}.

Lemma isBotMentioned_selfchat (msg : WebInboundMsg) (mentionCfg : MentionConfig) :
  isSelfChatMode (msg_selfE164 msg) (allowFrom mentionCfg) = true →
  existsb (fun re => re_test re (clean (msg_body msg)))
    (mentionRegexes mentionCfg) = false →
  mentionedByDigits msg = false →
  isBotMentioned msg mentionCfg = false.
Proof.
  intros Hself Hre Hdigits. unfold isBotMentioned.
  by rewrite Hself, andb_false_r, Hre, Hdigits.
Qed.

Lemma onMessage_stored (net : Network) (cfg : Config) (store : SessionStore)
    (replyResolver : MsgContext -> ResolverRun) (msg : WebInboundMsg)
    (s : MonitorState) (w : list Event) :
  0 ≤ groupHistoryLimit cfg →
  msg_body msg ∉ recentlySent s →
  isGroup msg = true →
  ignoredActivation cfg msg = false →
  bypassesMention cfg msg = false →
  resolveGroupActivationFor cfg store (conversationIdOf msg) = ActMention →
  isBotMentioned msg (cfg_mention cfg) = false →
  onMessage net cfg store replyResolver msg s w
  = Some (StoredForContext, (inr tt, archived cfg msg s, w)).
Proof.
  intros Hcap Hecho Hgroup Hign Hbypass Hact Hmention.
  unfold onMessage. rewrite (shouldSuppress_miss _ _ Hecho), Hgroup.
  unfold ignoredActivation in Hign. rewrite Hign.
  unfold bypassesMention in Hbypass. rewrite Hbypass. simpl.
  rewrite pushHistory_spec by done. simpl.
  by rewrite Hact, Hmention.
Qed.

End Gate.

(** ** The deliveries of a turn and the group history *)

Section Sends.
Context `{Ext : Externals}.

Lemma sent_app_l (n1 n2 : list Event) : sent n1 → sent (n1 ++ n2).
Proof. unfold sent. rewrite Exists_app. tauto. Qed.

Lemma sent_app_r (n1 n2 : list Event) : sent n2 → sent (n1 ++ n2).
Proof. unfold sent. rewrite Exists_app. tauto. Qed.

Lemma sent_filter (new : list Event) :
  sent new ↔ List.filter isSuccessfulSend new ≠ [].
Proof.
  unfold sent. induction new as [|e new IH]; simpl.
  - rewrite Exists_nil. tauto.
  - rewrite Exists_cons, IH. destruct (isSuccessfulSend e).
    + split; [done|]. intros _. by left.
    + split; [by intros [|]|]. intros ?. by right.
Qed.

Lemma reply_sent (net : Network) (body : jstring) :
  post (reply net body) sentIfOk.
Proof.
  apply post_reply.
  - by intros e [[] ?].
  - intros _. by repeat constructor.
Qed.

Lemma sendMedia_sent (net : Network) (m : MediaMessage) :
  post (sendMedia net m) sentIfOk.
Proof.
  apply post_sendMedia.
  - by intros e [[] ?].
  - intros _. by repeat constructor.
Qed.

Lemma retry_sent (fn : Async unit) :
  post fn sentIfOk →
  ∀ more attempt, post (sendWithRetryFrom fn attempt more) sentIfOk.
Proof.
  intros Hfn more.
  induction more as [|more IH]; intros attempt; simpl.
  - eapply post_tryCatch; [exact Hfn|done|].
    intros e n1 _. apply post_throw. by intros [[] ?].
  - eapply post_tryCatch; [exact Hfn|done|].
    intros e n1 _.
    destruct (negb _); [apply post_throw; by intros [[] ?]|].
    eapply post_bind with (Q1 := fun _ _ => True).
    + by apply post_emit.
    + intros [] n2 _. eapply post_weaken; [apply IH|].
      intros r new Hs Hr. by apply sent_app_r, sent_app_r, Hs.
    + by intros e' n2 _ [[] ?].
Qed.

(** *** Every computation only appends to the log *)

Lemma extends_bind {A B} (m : Async A) (k : A -> Async B) :
  post m anyOutcome → (∀ a, post (k a) anyOutcome) →
  post (bind m k) anyOutcome.
Proof.
  intros Hm Hk. eapply post_bind; [exact Hm| |done].
  intros a n1 _. eapply post_weaken; [apply Hk|done].
Qed.

Lemma extends_tryCatch {A} (m : Async A) (h : JsError -> Async A) :
  post m anyOutcome → (∀ e, post (h e) anyOutcome) →
  post (tryCatch m h) anyOutcome.
Proof.
  intros Hm Hh. eapply post_tryCatch; [exact Hm|done|].
  intros e n1 _. eapply post_weaken; [apply Hh|done].
Qed.

Lemma extends_ret {A} (a : A) : post (ret a) anyOutcome.
Proof. by apply post_ret. Qed.

Lemma extends_throw {A} (e : JsError) : post (throw (A := A) e) anyOutcome.
Proof. by apply post_throw. Qed.

Lemma extends_emit (e : Event) : post (emit e) anyOutcome.
Proof. by apply post_emit. Qed.

Lemma extends_reply (net : Network) (body : jstring) :
  post (reply net body) anyOutcome.
Proof. by apply post_reply. Qed.

Lemma extends_sendMedia (net : Network) (m : MediaMessage) :
  post (sendMedia net m) anyOutcome.
Proof. by apply post_sendMedia. Qed.

Create HintDb extends.
#[local] Hint Resolve extends_bind extends_tryCatch extends_ret extends_throw
  extends_emit extends_reply extends_sendMedia : extends.

Lemma extends_retry (fn : Async unit) :
  post fn anyOutcome →
  ∀ more attempt, post (sendWithRetryFrom fn attempt more) anyOutcome.
Proof.
  intros Hfn more.
  induction more as [|more IH]; intros attempt; simpl.
  - auto with extends.
  - apply extends_tryCatch; [done|]. intros e.
    destruct (negb _); auto with extends.
Qed.

Lemma extends_forEach {A} (l : list A) (body : A -> Async unit) :
  (∀ x, post (body x) anyOutcome) → post (forEach l body) anyOutcome.
Proof. intros Hbody. induction l; simpl; auto with extends. Qed.

Lemma extends_sendOneMedia (net : Network) (maxMediaBytes : Z)
    (isFirst : bool) (mediaUrl : jstring) (remainingText : list jstring) :
  post (sendOneMedia net maxMediaBytes isFirst mediaUrl remainingText)
    anyOutcome.
Proof.
  unfold sendOneMedia.
  destruct (if isFirst then _ else _) as [caption remaining].
  apply extends_tryCatch.
  - destruct (loadWebMedia _ _ _); [auto with extends|].
    apply extends_bind; [|auto with extends].
    apply extends_retry. auto with extends.
  - intros e. apply extends_bind; [auto with extends|]. intros _.
    destruct isFirst; [|auto with extends].
    unfold mediaFallback.
    destruct remaining as [|c rest'];
      destruct (truthy _); auto with extends.
Qed.

Lemma extends_mediaLoop (net : Network) (maxMediaBytes : Z)
    (mediaList : list jstring) :
  ∀ (isFirst : bool) (remainingText : list jstring),
    post (mediaLoop net maxMediaBytes isFirst mediaList remainingText)
      anyOutcome.
Proof.
  induction mediaList as [|mediaUrl rest IH]; intros isFirst remainingText;
    simpl; [auto with extends|].
  apply extends_bind; [apply extends_sendOneMedia|]. intros a. apply IH.
Qed.

(** *** A delivery that returns has sent something *)

Lemma first_media_sent (net : Network) (maxMediaBytes : Z)
    (mediaUrl : jstring) (remainingText : list jstring) :
  post (sendOneMedia net maxMediaBytes true mediaUrl remainingText) sentIfOk.
Proof.
  unfold sendOneMedia.
  destruct (shiftCaption remainingText) as [caption remaining].
  eapply post_tryCatch with (Q1 := sentIfOk).
  - destruct (loadWebMedia _ _ _) as [err|media].
    + apply post_throw. by intros [[] ?].
    + eapply post_bind with (Q1 := sentIfOk).
      * apply retry_sent, sendMedia_sent.
      * intros [] n1 Hs. apply post_ret. intros _.
        rewrite app_nil_r. apply Hs. eauto.
      * by intros e n1 _ [[] ?].
  - done.
  - intros err n1 _.
    eapply post_bind with (Q1 := anyOutcome); [apply extends_emit| |].
    + intros [] n2 _. unfold mediaFallback.
      assert (Hbody : ∀ first,
        truthy (join newline
                  (List.filter truthy [first; mediaFailedWarning err])) = true).
      { intros first. cbn [List.filter]. rewrite warning_truthy.
        destruct (truthy first) eqn:Hf; [|apply warning_truthy].
        by destruct first. }
      destruct remaining as [|c rest']; rewrite Hbody.
      * eapply post_bind with (Q1 := sentIfOk); [apply reply_sent| |].
        -- intros [] n3 Hs. apply post_ret. intros _.
           rewrite app_nil_r. apply sent_app_r, sent_app_r, Hs. eauto.
        -- by intros e n3 _ [[] ?].
      * eapply post_bind with (Q1 := sentIfOk); [apply reply_sent| |].
        -- intros [] n3 Hs. apply post_ret. intros _.
           rewrite app_nil_r. apply sent_app_r, sent_app_r, Hs. eauto.
        -- by intros e n3 _ [[] ?].
    + by intros e n2 _ [[] ?].
Qed.

Lemma deliver_sent (net : Network) (p : ReplyPayload) (maxMediaBytes : Z) :
  carriesContent p = true →
  post (deliverWebReply net p maxMediaBytes) sentIfOk.
Proof.
  unfold carriesContent, deliverWebReply. intros Hcontent.
  destruct (mediaListOf p) as [|mediaUrl rest];
    destruct (chunkText _ _) as [|chunk chunks]; [done| | |].
  - simpl. eapply post_bind with (Q1 := sentIfOk).
    + apply retry_sent, reply_sent.
    + intros [] n1 Hs. eapply post_weaken.
      * apply extends_forEach. intros x. apply extends_retry, extends_reply.
      * intros r new _ _. apply sent_app_l, Hs. eauto.
    + by intros e n1 _ [[] ?].
  - eapply post_bind with (Q1 := sentIfOk).
    + simpl. eapply post_bind with (Q1 := sentIfOk).
      * apply first_media_sent.
      * intros a n1 Hs. eapply post_weaken; [apply extends_mediaLoop|].
        intros r new _ _. apply sent_app_l, Hs. eauto.
      * by intros e n1 _ [[] ?].
    + intros a n1 Hs. eapply post_weaken.
      * apply extends_forEach. intros x. apply extends_reply.
      * intros r new _ _. apply sent_app_l, Hs. eauto.
    + by intros e n1 _ [[] ?].
  - eapply post_bind with (Q1 := sentIfOk).
    + simpl. eapply post_bind with (Q1 := sentIfOk).
      * apply first_media_sent.
      * intros a n1 Hs. eapply post_weaken; [apply extends_mediaLoop|].
        intros r new _ _. apply sent_app_l, Hs. eauto.
      * by intros e n1 _ [[] ?].
    + intros a n1 Hs. eapply post_weaken.
      * apply extends_forEach. intros x. apply extends_reply.
      * intros r new _ _. apply sent_app_l, Hs. eauto.
    + by intros e n1 _ [[] ?].
Qed.

Lemma extends_deliver (net : Network) (p : ReplyPayload) (maxMediaBytes : Z) :
  post (deliverWebReply net p maxMediaBytes) anyOutcome.
Proof.
  unfold deliverWebReply.
  assert (Hmedia : post
    (bind (mediaLoop net maxMediaBytes true (mediaListOf p)
             (chunkText (default [] (text p)) WEB_TEXT_LIMIT))
       (fun remainingText => forEach remainingText (fun chunk => reply net chunk)))
    anyOutcome).
  { apply extends_bind; [apply extends_mediaLoop|]. intros a.
    apply extends_forEach. intros x. apply extends_reply. }
  destruct (mediaListOf p) as [|mediaUrl rest]; [|exact Hmedia].
  destruct (chunkText _ _) as [|chunk chunks]; [exact Hmedia|].
  apply extends_forEach. intros x. apply extends_retry, extends_reply.
Qed.

(** *** The deliveries of one turn *)

Lemma deliver_sent_if_content (net : Network) (p : ReplyPayload)
    (maxMediaBytes : Z) :
  post (deliverWebReply net p maxMediaBytes)
    (fun r new => carriesContent p = true → sentIfOk r new).
Proof.
  destruct (carriesContent p) eqn:Hcontent.
  - eapply post_weaken; [by apply deliver_sent|]. by intros r new Hs _.
  - eapply post_weaken; [apply extends_deliver|]. by intros r new _ ?.
Qed.

Lemma stepOk_same (ok : Prop) (t : TurnState) : stepOk ok t (inr t) [].
Proof. exists t. split; [done|]. by left. Qed.

Lemma guarded_delivery (net : Network) (cfg : Config) (p : ReplyPayload)
    (t t' : TurnState) (failure : Event) :
  post (tryCatch
          (bind (deliverWebReply net p (cfg_maxMediaBytes cfg))
             (fun _ => ret t'))
          (fun _ => bind (emit failure) (fun _ => ret t)))
    (stepOk (carriesContent p = true) t).
Proof.
  eapply post_tryCatch with
    (Q1 := fun r new => carriesContent p = true → (∃ a, r = inr a) → sent new).
  - eapply post_bind.
    + apply deliver_sent_if_content.
    + intros [] n1 Hs. apply post_ret. intros Hc _.
      rewrite app_nil_r. apply Hs; eauto.
    + by intros e n1 _ _ [a ?].
  - intros a n1 Hs. exists a. split; [done|]. intros Hc _. right.
    apply Hs; eauto.
  - intros e n1 _.
    eapply post_bind with (Q1 := fun r _ => r = inr tt);
      [by apply post_emit| |done].
    intros [] n2 _. apply post_ret. exists t. split; [done|]. by left.
Qed.

Lemma stepOk_weaken (ok ok' : Prop) (t : TurnState) (r : JsError + TurnState)
    (new : list Event) :
  (ok' → ok) → stepOk ok t r new → stepOk ok' t r new.
Proof. intros Hok (t' & -> & Ht'). exists t'. split; [done|]. auto. Qed.

Lemma sendToolResult_step (net : Network) (cfg : Config)
    (payload : ReplyPayload) (t : TurnState) :
  post (sendToolResult net cfg payload t)
    (stepOk (substantive cfg [payload]) t).
Proof.
  unfold sendToolResult.
  destruct (_ && _ && _); [apply post_ret, stepOk_same|].
  destruct (isSilentReply _); [apply post_ret, stepOk_same|].
  destruct (stripHeartbeat payload) as [toolPayload|] eqn:Hstrip;
    [|apply post_ret, stepOk_same].
  eapply post_weaken; [apply guarded_delivery|].
  intros r new. apply stepOk_weaken. intros Hsub.
  apply (Hsub payload); [by left|].
  unfold prepared. by rewrite Hstrip.
Qed.

Lemma sendFinalReply_step (net : Network) (cfg : Config)
    (combinedBody : jstring) (payload : ReplyPayload) (t : TurnState) :
  post (sendFinalReply net cfg combinedBody payload t)
    (stepOk (substantive cfg [payload]) t).
Proof.
  unfold sendFinalReply.
  destruct (stripHeartbeat payload) as [replyPayload|] eqn:Hstrip;
    [|apply post_ret, stepOk_same].
  eapply post_weaken; [apply guarded_delivery|].
  intros r new. apply stepOk_weaken. intros Hsub.
  apply (Hsub payload); [by left|].
  unfold prepared. by rewrite Hstrip.
Qed.

Lemma substantive_cons (cfg : Config) (p : ReplyPayload)
    (l : list ReplyPayload) :
  substantive cfg (p :: l) ↔ substantive cfg [p] ∧ substantive cfg l.
Proof.
  unfold substantive. split.
  - intros Hs. split; intros q q' Hq; apply Hs.
    + apply list_elem_of_singleton in Hq as ->. by left.
    + by right.
  - intros [H1 H2] q q' [->|Hq]%elem_of_cons; [apply H1; by left|by apply H2].
Qed.

Lemma foldAsync_steps (cfg : Config)
    (f : ReplyPayload -> TurnState -> Async TurnState)
    (l : list ReplyPayload) :
  (∀ x t, post (f x t) (stepOk (substantive cfg [x]) t)) →
  ∀ t, post (foldAsync f l t) (stepOk (substantive cfg l) t).
Proof.
  intros Hf.
  induction l as [|x l IH]; intros t; simpl.
  - apply post_ret, stepOk_same.
  - eapply post_bind.
    + apply Hf.
    + intros a n1 (t' & [= <-] & Ha).
      eapply post_weaken; [apply IH|].
      intros r n2 (t'' & -> & Ht''). exists t''. split; [done|].
      intros [Hx Hl]%substantive_cons Hd.
      destruct (Ht'' Hl Hd) as [Hprev|Hs].
      * destruct (Ha Hx Hprev) as [?|Hs]; [by left|].
        right. by apply sent_app_l.
      * right. by apply sent_app_r.
    + by intros e n1 (t' & ? & _).
Qed.

Lemma substantive_app (cfg : Config) (l1 l2 : list ReplyPayload) :
  substantive cfg (l1 ++ l2) ↔ substantive cfg l1 ∧ substantive cfg l2.
Proof.
  unfold substantive. split.
  - intros Hs. split; intros q q' Hq; apply Hs; rewrite elem_of_app; auto.
  - intros [H1 H2] q q' [Hq|Hq]%elem_of_app; eauto.
Qed.

Lemma substantive_filter (cfg : Config) (f : ReplyPayload -> bool)
    (l : list ReplyPayload) :
  substantive cfg l → substantive cfg (List.filter f l).
Proof.
  intros Hs q q' Hq. apply Hs.
  apply list_elem_of_In, List.filter_In in Hq as [Hq _].
  by apply list_elem_of_In.
Qed.

End Sends.

Section Turn.
Context `{Ext : Externals}.

Lemma filter_silent_nil (l : list ReplyPayload) :
  Forall (fun p => isSilentReply (Some p) = true) l →
  List.filter (fun payload => negb (isSilentReply (Some payload))) l = [].
Proof.
  induction 1 as [|p l Hp _ IH]; [done|].
  cbn [List.filter]. by rewrite Hp.
Qed.

Lemma app_eq_self {A} (w n : list A) : w = w ++ n → n = [].
Proof.
  intros Heq. apply (app_inv_head w). by rewrite app_nil_r, <- Heq.
Qed.

Lemma turn_outcome (net : Network) (cfg : Config)
    (replyResolver : MsgContext -> ResolverRun) (wasMentioned : option bool)
    (msg : WebInboundMsg) (s : MonitorState) (w : list Event) :
  let run := replyResolver
               (contextOf msg (combinedBodyOf cfg s msg) wasMentioned) in
  ∃ r s' new,
    processMessage net cfg replyResolver wasMentioned msg s w
    = (r, s', w ++ new)
    ∧ (if EchoSet.has (recentlySent s) (combinedBodyOf cfg s msg)
       then new = []
       else ∃ rest,
         new = EvResolver
                 (contextOf msg (combinedBodyOf cfg s msg) wasMentioned)
               :: rest)
    ∧ (groupHistories s' = groupHistories s
       ∨ groupHistories s'
         = <[conversationIdOf msg := []]> (groupHistories s))
    ∧ (∀ err, run_result run = inl err →
         groupHistories s' = groupHistories s)
    ∧ (run_toolResults run = [] →
       Forall (fun p => isSilentReply (Some p) = true) (finalPayloads run) →
       groupHistories s' = groupHistories s
       ∧ List.filter isSuccessfulSend new = [])
    ∧ (substantive cfg (run_toolResults run ++ finalPayloads run) →
       groupHistories s' = groupHistories s
       ∨ (groupHistories s'
          = <[conversationIdOf msg := []]> (groupHistories s)
          ∧ r = inr tt ∧ isGroup msg = true ∧ sent new)).
Proof.
  intros run. unfold processMessage. fold run.
  unfold EchoSet.shouldSuppress.
  destruct (EchoSet.has _ _).
  { eexists (inr tt), _, []. rewrite app_nil_r.
    split_and!; try done; by left. }
  set (ctx := contextOf msg (combinedBodyOf cfg s msg) wasMentioned).
  set (t0 := {| didSendReply := false; turn_recentlySent := recentlySent s |}).
  (* the chain of tool sends *)
  destruct (foldAsync_steps cfg (sendToolResult net cfg) (run_toolResults run)
              (sendToolResult_step net cfg) t0 (w ++ [EvResolver ctx]))
    as (r1 & n1 & Heq1 & t1 & -> & Ht1).
  rewrite Heq1.
  assert (Hnotools : run_toolResults run = [] → t1 = t0 ∧ n1 = []).
  { intros Hnil. rewrite Hnil in Heq1. simpl in Heq1. unfold ret in Heq1.
    injection Heq1 as <- Hn. split; [done|]. by apply app_eq_self in Hn. }
  unfold finalPayloads.
  destruct (run_result run) as [err|res] eqn:Hres.
  { (* the resolver threw *)
    eexists (inl err), _, ([EvResolver ctx] ++ n1).
    split_and!.
    - by rewrite app_assoc.
    - by eexists.
    - by left.
    - done.
    - intros Hnil _. destruct (Hnotools Hnil) as [_ ->]. done.
    - by left. }
  set (sendable := List.filter _ (replyListOf res)).
  destruct (foldAsync_steps cfg (sendFinalReply net cfg (combinedBodyOf cfg s msg))
              sendable (sendFinalReply_step net cfg _) t1
              ((w ++ [EvResolver ctx]) ++ n1))
    as (r2 & n2 & Heq2 & t2 & -> & Ht2).
  rewrite Heq2.
  eexists (inr tt), _, ([EvResolver ctx] ++ n1 ++ n2).
  split_and!.
  - by rewrite !app_assoc.
  - by eexists.
  - simpl. unfold clearHistoryIfSent. destruct (_ && _); [by right|by left].
  - done.
  - intros Hnil Hsilent. destruct (Hnotools Hnil) as [-> ->].
    unfold sendable in Heq2. rewrite (filter_silent_nil _ Hsilent) in Heq2.
    simpl in Heq2. unfold ret in Heq2. injection Heq2 as <- Hn.
    apply app_eq_self in Hn as ->. split; [|done].
    simpl. unfold clearHistoryIfSent. simpl. by rewrite andb_false_r.
  - intros [Htools Hfinals]%substantive_app. simpl.
    unfold clearHistoryIfSent.
    destruct (isGroup msg); [|by left].
    destruct (didSendReply t2) eqn:Hd; [|by left].
    right. split_and!; try done.
    apply (sent_app_r [EvResolver ctx]).
    destruct (Ht2 (substantive_filter _ _ _ Hfinals) eq_refl) as [Hprev|Hs].
    + destruct (Ht1 Htools Hprev) as [?|Hs]; [done|]. by apply sent_app_l.
    + by apply sent_app_r.
Qed.

Lemma processMessage_direct (net : Network) (cfg : Config)
    (replyResolver : MsgContext -> ResolverRun) (wasMentioned : option bool)
    (msg : WebInboundMsg) (s : MonitorState) (w : list Event) :
  isGroup msg = false →
  groupHistories (processMessage net cfg replyResolver wasMentioned msg s w).1.2
  = groupHistories s
  ∧ combinedBodyOf cfg s msg = buildLine cfg msg.
Proof.
  intros Hdirect. split; [|unfold combinedBodyOf; by rewrite Hdirect].
  unfold processMessage. rewrite Hdirect.
  destruct (EchoSet.shouldSuppress _ _) as [[] sent']; [done|].
  destruct (foldAsync _ _ _ _) as [tools w1].
  destruct (run_result _) as [err|res]; [done|].
  destruct (foldAsync _ _ _ _) as [finals w2]. done.
Qed.

(** C6, as amended. A turn leaves the history of a conversation as it
    was or resets it to empty. It is left as it was for a direct
    message, when the resolver throws, and when the resolver streamed no
    tool result and returns nothing or only silent payloads (nothing is
    sent then). In a turn whose payloads, streamed or returned, all
    carry a text chunk or a media once prepared for delivery, the
    history is reset only after a message has really gone out: when no
    send of the turn succeeds it is left as it was. *)
Theorem history_cleared_only_after_send (net : Network) (cfg : Config)
    (replyResolver : MsgContext -> ResolverRun) (wasMentioned : option bool)
    (msg : WebInboundMsg) (s : MonitorState) (w : list Event) :
  let run := replyResolver
               (contextOf msg (combinedBodyOf cfg s msg) wasMentioned) in
  ∃ r s' new,
    processMessage net cfg replyResolver wasMentioned msg s w
    = (r, s', w ++ new)
    ∧ (groupHistories s' = groupHistories s
       ∨ groupHistories s'
         = <[conversationIdOf msg := []]> (groupHistories s))
    ∧ (isGroup msg = false → groupHistories s' = groupHistories s)
    ∧ (∀ err, run_result run = inl err →
         groupHistories s' = groupHistories s)
    ∧ (run_toolResults run = [] →
       Forall (fun p => isSilentReply (Some p) = true) (finalPayloads run) →
       groupHistories s' = groupHistories s
       ∧ List.filter isSuccessfulSend new = [])
    ∧ (substantive cfg (run_toolResults run ++ finalPayloads run) →
       (List.filter isSuccessfulSend new = [] →
        groupHistories s' = groupHistories s)
       ∧ (groupHistories s' = groupHistories s
          ∨ (groupHistories s'
             = <[conversationIdOf msg := []]> (groupHistories s)
             ∧ r = inr tt ∧ isGroup msg = true ∧ sent new))).
Proof.
  intros run.
  destruct (turn_outcome net cfg replyResolver wasMentioned msg s w)
    as (r & s' & new & Heq & _ & Hor & Hthrow & Hsilent & Hsent).
  exists r, s', new. split_and!; try done.
  - intros Hdirect.
    pose proof (proj1 (processMessage_direct net cfg replyResolver
                         wasMentioned msg s w Hdirect)) as Hsame.
    by rewrite Heq in Hsame.
  - intros Hsub. split; [|by apply Hsent].
    intros Hnone.
    destruct (Hsent Hsub) as [|(_ & _ & _ & Hs)]; [done|].
    by apply sent_filter in Hs.
Qed.

End Turn.

(** ** Silent replies and the delivery of media *)

Section SilentDelivery.
Context `{Ext : Externals}.

Lemma count_replies_app (w : list Event) (chunks : list jstring) :
  count isReplyEvent (w ++ repliesOk chunks)
  = (count isReplyEvent w + length chunks)%nat.
Proof.
  unfold count, repliesOk. rewrite List.filter_app, length_app. f_equal.
  induction chunks as [|c chunks IH]; [done|]. simpl. by rewrite IH.
Qed.

Lemma reply_resolves (net : Network) (body : jstring) (w : list Event) :
  replyOutcome net (count isReplyEvent w) body = None →
  reply net body w = (inr tt, w ++ [EvReply body true]).
Proof. intros Hok. unfold reply. by rewrite Hok. Qed.

Lemma retry_resolves (net : Network) (body : jstring) (w : list Event) :
  replyOutcome net (count isReplyEvent w) body = None →
  sendWithRetry (reply net body) w = (inr tt, w ++ [EvReply body true]).
Proof.
  intros Hok. unfold sendWithRetry. cbn [sendWithRetryFrom].
  unfold tryCatch. by rewrite reply_resolves.
Qed.

(** [k] chunks go out in order as long as the replies resolve. *)
Lemma forEach_replies (net : Network) (send : jstring -> Async unit)
    (chunks : list jstring) :
  ∀ w,
    (∀ c w', send c w' = reply net c w' ∨ send c w' = sendWithRetry (reply net c) w') →
    (∀ (k : nat) c, chunks !! k = Some c →
       replyOutcome net (count isReplyEvent w + k) c = None) →
    forEach chunks send w = (inr tt, w ++ repliesOk chunks).
Proof.
  induction chunks as [|c chunks IH]; intros w Hsend Hok; simpl.
  - by rewrite app_nil_r.
  - unfold bind.
    assert (Hc : send c w = (inr tt, w ++ [EvReply c true])).
    { assert (H0 : replyOutcome net (count isReplyEvent w) c = None).
      { rewrite <- (Nat.add_0_r (count isReplyEvent w)). by apply Hok. }
      destruct (Hsend c w) as [-> | ->];
        [by apply reply_resolves|by apply retry_resolves]. }
    rewrite Hc, IH; [by rewrite <- app_assoc|done|].
    intros k c' Hk.
    replace (count isReplyEvent (w ++ [EvReply c true]) + k)%nat
      with (count isReplyEvent w + S k)%nat.
    + by apply Hok.
    + unfold count. rewrite List.filter_app, length_app. simpl. lia.
Qed.

Lemma sendOneMedia_ok (net : Network) (maxMediaBytes : Z) (isFirst : bool)
    (mediaUrl : jstring) (media : WebMedia) (remainingText : list jstring)
    (w : list Event) :
  (∀ n m, sendMediaOutcome net n m = None) →
  loadWebMedia net mediaUrl maxMediaBytes = inr media →
  let '(caption, rest) :=
    if isFirst then shiftCaption remainingText else (None, remainingText) in
  sendOneMedia net maxMediaBytes isFirst mediaUrl remainingText w
  = (inr rest,
     w ++ [EvSendMedia (mediaMessageFor media mediaUrl caption) true]).
Proof.
  intros Hsend Hload. unfold sendOneMedia.
  destruct (if isFirst then _ else _) as [caption rest].
  rewrite Hload. unfold tryCatch, bind, sendWithRetry.
  cbn [sendWithRetryFrom]. unfold tryCatch, sendMedia.
  rewrite Hsend. simpl. unfold ret. done.
Qed.

Lemma mediaLoop_rest_ok (net : Network) (maxMediaBytes : Z)
    (media : jstring -> WebMedia) (urls : list jstring)
    (remainingText : list jstring) :
  (∀ n m, sendMediaOutcome net n m = None) →
  (∀ u, u ∈ urls → loadWebMedia net u maxMediaBytes = inr (media u)) →
  ∀ w,
    mediaLoop net maxMediaBytes false urls remainingText w
    = (inr remainingText,
       w ++ map (fun u => EvSendMedia (mediaMessageFor (media u) u None) true)
              urls).
Proof.
  intros Hsend Hload.
  induction urls as [|u urls IH]; intros w; simpl.
  - unfold ret. by rewrite app_nil_r.
  - unfold bind.
    pose proof (sendOneMedia_ok net maxMediaBytes false u (media u)
                  remainingText w Hsend) as Hone.
    simpl in Hone. rewrite Hone by (apply Hload; by left).
    rewrite IH; [by rewrite <- app_assoc|].
    intros u' Hu'. apply Hload. by right.
Qed.

Lemma shiftCaption_eq (chunks : list jstring) :
  shiftCaption chunks = (captionOf chunks, tail chunks).
Proof. by destruct chunks. Qed.

Lemma first_bind {A B} (m : Async A) (k : A -> Async B) (P : Event -> Prop) :
  post m (fun _ new => firstEvent P new) →
  (∀ a, post (k a) anyOutcome) →
  post (bind m k) (fun _ new => firstEvent P new).
Proof.
  intros Hm Hk. eapply post_bind; [exact Hm| |].
  - intros a n1 (e & rest & -> & He).
    eapply post_weaken; [apply Hk|].
    intros r n2 _. by exists e, (rest ++ n2).
  - done.
Qed.

Lemma first_tryCatch {A} (m : Async A) (h : JsError -> Async A)
    (P : Event -> Prop) :
  post m (fun _ new => firstEvent P new) →
  (∀ e, post (h e) anyOutcome) →
  post (tryCatch m h) (fun _ new => firstEvent P new).
Proof.
  intros Hm Hh. eapply post_tryCatch; [exact Hm| |].
  - done.
  - intros err n1 (e & rest & -> & He).
    eapply post_weaken; [apply Hh|].
    intros r n2 _. by exists e, (rest ++ n2).
Qed.

Lemma first_retry (fn : Async unit) (P : Event -> Prop) :
  post fn (fun _ new => firstEvent P new) →
  post fn anyOutcome →
  ∀ more attempt,
    post (sendWithRetryFrom fn attempt more) (fun _ new => firstEvent P new).
Proof.
  intros Hfirst Hany more attempt.
  destruct more as [|more]; simpl; apply first_tryCatch; try done; intros e.
  - apply extends_throw.
  - destruct (negb _); [apply extends_throw|].
    apply extends_bind; [apply extends_emit|]. intros _.
    by apply extends_retry.
Qed.

Lemma first_sendOneMedia (net : Network) (maxMediaBytes : Z)
    (mediaUrl : jstring) (remainingText : list jstring) :
  post (sendOneMedia net maxMediaBytes true mediaUrl remainingText)
    (fun _ new =>
       firstEvent (firstMediaAttempt net maxMediaBytes mediaUrl
                     (captionOf remainingText)) new).
Proof.
  unfold sendOneMedia, firstMediaAttempt. rewrite shiftCaption_eq.
  destruct (loadWebMedia net mediaUrl maxMediaBytes) as [err|media].
  - assert (Hh : post
              (bind (emit (EvMediaFailureLogged mediaUrl))
                 (fun _ => mediaFallback net err (captionOf remainingText)
                             (tail remainingText)))
              (fun _ new =>
                 firstEvent (fun e => e = EvMediaFailureLogged mediaUrl) new)).
    { apply first_bind.
      - apply post_emit. by eexists _, [].
      - intros _. unfold mediaFallback.
        destruct (tail remainingText) as [|c rest]; simpl;
          destruct (truthy _);
          auto using extends_bind, extends_reply, extends_ret. }
    intros w. exact (Hh w).
  - apply first_tryCatch.
    + apply first_bind; [|intros; apply extends_ret].
      unfold sendWithRetry. apply first_retry; [|apply extends_sendMedia].
      apply post_sendMedia; [intros e|]; eexists _, []; eauto.
    + intros e.
      apply extends_bind; [apply extends_emit|]. intros _.
      unfold mediaFallback.
      destruct (tail remainingText) as [|c rest]; simpl;
        destruct (truthy _);
        auto using extends_bind, extends_reply, extends_ret.
Qed.

Lemma first_deliver (net : Network) (p : ReplyPayload) (maxMediaBytes : Z)
    (first : jstring) (others : list jstring) :
  mediaListOf p = first :: others →
  post (deliverWebReply net p maxMediaBytes)
    (fun _ new =>
       firstEvent
         (firstMediaAttempt net maxMediaBytes first
            (captionOf (chunkText (default [] (text p)) WEB_TEXT_LIMIT)))
         new).
Proof.
  intros Hmedia. unfold deliverWebReply. rewrite Hmedia.
  cbn [mediaLoop].
  apply first_bind.
  - apply first_bind; [apply first_sendOneMedia|].
    intros rem. apply extends_mediaLoop.
  - intros rem. apply extends_forEach. intros c. apply extends_reply.
Qed.

Lemma deliver_media_ok (net : Network) (p : ReplyPayload)
    (maxMediaBytes : Z) (media : jstring -> WebMedia)
    (first : jstring) (others : list jstring) (w : list Event) :
  mediaListOf p = first :: others →
  (∀ n m, sendMediaOutcome net n m = None) →
  (∀ n body, replyOutcome net n body = None) →
  (∀ u, u ∈ first :: others →
        loadWebMedia net u maxMediaBytes = inr (media u)) →
  let chunks := chunkText (default [] (text p)) WEB_TEXT_LIMIT in
  deliverWebReply net p maxMediaBytes w
  = (inr tt,
     w ++ EvSendMedia
            (mediaMessageFor (media first) first (captionOf chunks)) true
       :: map (fun u => EvSendMedia (mediaMessageFor (media u) u None) true)
            others
       ++ repliesOk (tail chunks)).
Proof.
  intros Hmedia Hsend Hreply Hload chunks.
  unfold deliverWebReply. rewrite Hmedia. fold chunks.
  cbv iota. cbn [mediaLoop]. unfold bind.
  pose proof (sendOneMedia_ok net maxMediaBytes true first (media first)
                chunks w Hsend) as Hone.
  cbv iota in Hone. rewrite shiftCaption_eq in Hone.
  rewrite Hone by (apply Hload; by left).
  rewrite (mediaLoop_rest_ok net maxMediaBytes media others (tail chunks)
             Hsend).
  2:{ intros u Hu. apply Hload. by right. }
  rewrite (forEach_replies net); [|intros; by left|intros; apply Hreply].
  simpl. by rewrite <- !app_assoc.
Qed.

Lemma mediaListOf_prefixed (prefix : option jstring) (p : ReplyPayload) :
  mediaListOf (applyResponsePrefix prefix p) = mediaListOf p.
Proof.
  unfold applyResponsePrefix.
  destruct prefix as [prefix|], (text p) as [t|]; try done.
  by destruct (_ && _ && _ && _).
Qed.

Lemma prepared_media (cfg : Config) (p : ReplyPayload) :
  hasMedia p = true →
  ∃ q first others,
    stripHeartbeat p = Some q
    ∧ mediaListOf (applyResponsePrefix (cfg_responsePrefix cfg) q)
      = first :: others
    ∧ mediaListOf p = first :: others.
Proof.
  intros Hmedia.
  assert (Hlist : ∃ first others, mediaListOf p = first :: others).
  { unfold hasMedia, hasMediaUrls in Hmedia. unfold mediaListOf, hasMediaUrls.
    destruct (mediaUrls p) as [[|u l]|]; simpl in *; eauto;
      rewrite orb_false_r in Hmedia; rewrite Hmedia; eauto. }
  destruct Hlist as (first & others & Hlist).
  assert (Hq : ∃ q, stripHeartbeat p = Some q ∧ mediaListOf q = mediaListOf p).
  { unfold stripHeartbeat.
    destruct (text p) as [t|]; [|by eexists].
    destruct (includes t HEARTBEAT_TOKEN); [|by eexists].
    rewrite Hmedia, andb_false_r. by eexists. }
  destruct Hq as (q & Hq & Hsame).
  exists q, first, others. split_and!; try done.
  by rewrite mediaListOf_prefixed, Hsame.
Qed.

Lemma final_media_turn (net : Network) (cfg : Config)
    (replyResolver : MsgContext -> ResolverRun) (wasMentioned : option bool)
    (msg : WebInboundMsg) (s : MonitorState) (w : list Event)
    (p q : ReplyPayload) (res : ReplyResult) :
  let body := combinedBodyOf cfg s msg in
  let ctx := contextOf msg body wasMentioned in
  let p' := applyResponsePrefix (cfg_responsePrefix cfg) q in
  run_toolResults (replyResolver ctx) = [] →
  run_result (replyResolver ctx) = inr res →
  replyListOf res = [p] →
  isSilentReply (Some p) = false →
  stripHeartbeat p = Some q →
  body ∉ recentlySent s →
  ∀ r new,
    deliverWebReply net p' (cfg_maxMediaBytes cfg) (w ++ [EvResolver ctx])
    = (r, (w ++ [EvResolver ctx]) ++ new) →
    ∃ s' more,
      processMessage net cfg replyResolver wasMentioned msg s w
      = (inr tt, s', w ++ EvResolver ctx :: new ++ more)
      ∧ (r = inr tt → more = []).
Proof.
  intros body ctx p' Htools Hres Hlist Hsilent Hstrip Hfresh r new Hdeliver.
  unfold processMessage. fold body. unfold EchoSet.shouldSuppress.
  rewrite (proj2 (has_false _ _) Hfresh). fold ctx.
  rewrite Htools, Hres, Hlist. cbn [foldAsync]. unfold ret at 1.
  cbn [List.filter]. rewrite Hsilent. cbn [negb foldAsync].
  unfold sendFinalReply. rewrite Hstrip. fold p'.
  unfold bind at 1. unfold tryCatch. unfold bind at 1.
  rewrite Hdeliver.
  destruct r as [err|[]].
  - unfold bind, emit, ret. cbn.
    eexists _, [EvReplyFailureLogged]. split; [|done].
    by rewrite <- !app_assoc.
  - unfold ret. cbn. eexists _, []. split; [|done].
    by rewrite app_nil_r, <- !app_assoc.
Qed.

(** C10. [isSilentReply] answers true exactly when the trimmed text is
    the silent-reply token and the payload carries no media. A payload
    with a media URL or a non-empty list of them is therefore not
    silent, even when its text is the token, and it is delivered: it
    stays among the sendable replies, the heartbeat step does not skip
    it, and when the resolver returns it the first thing
    [processMessage] does after the call of the resolver is to send its
    first media (or to log that the media could not be loaded). On a
    network where loads and sends succeed the log of the turn is the
    first media with the first text chunk as caption, the other media,
    and the remaining chunks. The token is a non-empty string. *)
Theorem isSilentReply_exact (net : Network) (cfg : Config)
    (replyResolver : MsgContext -> ResolverRun) (wasMentioned : option bool)
    (msg : WebInboundMsg) (s : MonitorState) (w : list Event)
    (p : ReplyPayload) :
  truthy SILENT_REPLY_TOKEN = true →
  isSilentReply None = false
  ∧ (isSilentReply (Some p) = true
     ↔ trim <$> text p = Some SILENT_REPLY_TOKEN ∧ hasMedia p = false)
  ∧ (hasMedia p = true →
     isSilentReply (Some p) = false
     ∧ List.filter (fun q => negb (isSilentReply (Some q))) [p] = [p]
     ∧ ∃ p' first others,
         prepared cfg p = Some p' ∧ carriesContent p' = true
         ∧ mediaListOf p = first :: others
         ∧ mediaListOf p' = first :: others
         ∧ let body := combinedBodyOf cfg s msg in
           let ctx := contextOf msg body wasMentioned in
           let caption :=
             captionOf (chunkText (default [] (text p')) WEB_TEXT_LIMIT) in
           let remaining :=
             tail (chunkText (default [] (text p')) WEB_TEXT_LIMIT) in
           ∀ res,
             run_toolResults (replyResolver ctx) = [] →
             run_result (replyResolver ctx) = inr res →
             replyListOf res = [p] →
             body ∉ recentlySent s →
             (∃ s' e rest,
                processMessage net cfg replyResolver wasMentioned msg s w
                = (inr tt, s', w ++ EvResolver ctx :: e :: rest)
                ∧ firstMediaAttempt net (cfg_maxMediaBytes cfg) first
                    caption e)
             ∧ ∀ media : jstring -> WebMedia,
                 (∀ n m, sendMediaOutcome net n m = None) →
                 (∀ n b, replyOutcome net n b = None) →
                 (∀ u, u ∈ first :: others →
                    loadWebMedia net u (cfg_maxMediaBytes cfg)
                    = inr (media u)) →
                 ∃ s',
                   processMessage net cfg replyResolver wasMentioned msg s w
                   = (inr tt, s',
                      w ++ EvResolver ctx
                        :: EvSendMedia
                             (mediaMessageFor (media first) first caption)
                             true
                        :: map (fun u =>
                                  EvSendMedia
                                    (mediaMessageFor (media u) u None) true)
                             others
                        ++ repliesOk remaining)).
Proof.
  intros Htok.
  assert (Hiff : isSilentReply (Some p) = true
     ↔ trim <$> text p = Some SILENT_REPLY_TOKEN ∧ hasMedia p = false).
  { unfold isSilentReply, hasMedia.
    destruct (bool_decide_reflect (trim <$> text p = Some SILENT_REPLY_TOKEN))
      as [Heq|Hne].
    - rewrite Heq. simpl. rewrite Htok. simpl.
      destruct (truthy_opt (mediaUrl p) || hasMediaUrls p);
        split; (done || by intros [_ ?]).
    - rewrite orb_true_r. split; [done|by intros [? _]]. }
  split_and!; [done|exact Hiff|].
  intros Hmedia.
  assert (Hns : isSilentReply (Some p) = false).
  { apply not_true_is_false. rewrite Hiff. intros [_ Hno]. congruence. }
  split_and!; [done| |].
  { unfold List.filter. by rewrite Hns. }
  destruct (prepared_media cfg p Hmedia)
    as (q & first & others & Hstrip & Hlist' & Hlist).
  exists (applyResponsePrefix (cfg_responsePrefix cfg) q), first, others.
  split_and!.
  - unfold prepared. by rewrite Hstrip.
  - unfold carriesContent. by rewrite Hlist'.
  - exact Hlist.
  - exact Hlist'.
  - intros body ctx caption remaining res Htools Hres Hone Hfresh. split.
    + destruct (first_deliver net _ (cfg_maxMediaBytes cfg) first others
                  Hlist' (w ++ [EvResolver ctx]))
        as (r & new & Hdeliver & e & rest & -> & He).
      destruct (final_media_turn net cfg replyResolver wasMentioned msg s w
                  p q res Htools Hres Hone Hns Hstrip Hfresh r _ Hdeliver)
        as (s' & more & Heq & _).
      exists s', e, (rest ++ more). split; [exact Heq|exact He].
    + intros media Hsend Hreply Hload.
      pose proof (deliver_media_ok net _ (cfg_maxMediaBytes cfg) media first
                    others (w ++ [EvResolver ctx]) Hlist' Hsend Hreply Hload)
        as Hdeliver.
      cbv zeta in Hdeliver.
      destruct (final_media_turn net cfg replyResolver wasMentioned msg s w
                  p q res Htools Hres Hone Hns Hstrip Hfresh _ _ Hdeliver)
        as (s' & more & Heq & Hmore).
      rewrite (Hmore eq_refl), app_nil_r in Heq.
      exists s'. exact Heq.
Qed.

End SilentDelivery.

Lemma isSilentReply_exact_witness :
  let msg := Sample.directMsg (str "hello") in
  let body := combinedBodyOf (Ext := Sample.sampleExternals)
                Sample.plainConfig Sample.emptyState msg in
  truthy (SILENT_REPLY_TOKEN (Externals := Sample.sampleExternals)) = true
  ∧ isSilentReply (Ext := Sample.sampleExternals)
      (Some (Sample.captionedMedia (str "NO_REPLY"))) = false
  ∧ isSilentReply (Ext := Sample.sampleExternals)
      (Some (Sample.textPayload (str " NO_REPLY "))) = true
  ∧ (processMessage (Ext := Sample.sampleExternals) Sample.goodNetwork
       Sample.plainConfig Scenario.tokenWithMediaResolver None msg
       Sample.emptyState []).2
    = [EvResolver (contextOf msg body None);
       EvSendMedia
         (mediaMessageFor Scenario.pngMedia
            (str "https://example.com/img.png") (Some (str "NO_REPLY")))
         true].
Proof.
  intros msg body.
  assert (Htok : truthy (SILENT_REPLY_TOKEN (Externals := Sample.sampleExternals))
                 = true) by reflexivity.
  split; [exact Htok|].
  destruct (isSilentReply_exact (Ext := Sample.sampleExternals)
              Sample.goodNetwork Sample.plainConfig Scenario.tokenWithMediaResolver
              None msg Sample.emptyState []
              (Sample.captionedMedia (str "NO_REPLY")) Htok)
    as (_ & _ & Hmedia).
  destruct (Hmedia eq_refl)
    as (Hns & _ & p' & first & others & Hprep & _ & Hlist & _ & Hdeliver).
  split; [exact Hns|]. split.
  - destruct (isSilentReply_exact (Ext := Sample.sampleExternals)
                Sample.goodNetwork Sample.plainConfig Scenario.tokenWithMediaResolver
                None msg Sample.emptyState []
                (Sample.textPayload (str " NO_REPLY ")) Htok)
      as (_ & Hiff & _).
    apply Hiff. split; reflexivity.
  - injection Hprep as <-. injection Hlist as <- <-.
    destruct (Hdeliver _ eq_refl eq_refl eq_refl (not_elem_of_nil _))
      as [_ Hsent].
    destruct (Hsent (fun _ => Scenario.pngMedia)) as [s' Heq].
    + intros n m. reflexivity.
    + intros n b. reflexivity.
    + intros u Hu. reflexivity.
    + rewrite Heq. reflexivity.
Defined.

(** ** Mention gating and self-chat mode *)

(** In self-chat mode the identities tagged in a message are not looked
    at, but the two tests on the body remain: a configured pattern, and
    the digits of the bot's own number. *)
Lemma isBotMentioned_selfchat_cases `{Externals} (msg : WebInboundMsg)
    (mentionCfg : MentionConfig) :
  isSelfChatMode (msg_selfE164 msg) (allowFrom mentionCfg) = true →
  isBotMentioned msg mentionCfg
  = existsb (fun re => re_test re (clean (msg_body msg)))
      (mentionRegexes mentionCfg)
    || mentionedByDigits msg.
Proof.
  intros Hself. unfold isBotMentioned. rewrite Hself.
  rewrite andb_false_r. cbn [andb]. by destruct (existsb _ _).
Qed.

(** C9, at a failing input. The allow-list is the bot's own number
    +999, so [isSelfChatMode] holds; no mention pattern is configured;
    the group asks for a mention. The owner writes "@999 ping" with the
    own identity tagged: the text WhatsApp puts in the body for a tag is
    the tagged number. The identity path is skipped as the comment in
    [isBotMentioned] asks, but the fallback on the digits of the own
    number finds 999 in the body: the message counts as a mention and
    the resolver is called and answered. With a body that does not
    spell the number ("@owner ping", as in the repository's test) the
    same tagged message is stored for context only. *)
Theorem selfchat_mention_triggers_bot :
  let cfg := Sample.selfChatConfig in
  let tagged := Some [str "999@s.whatsapp.net"] in
  let msg := Sample.groupMsg (str "@999 ping") (str "+999") (str "Owner")
               tagged in
  let quiet := Sample.groupMsg (str "@owner ping") (str "+999") (str "Owner")
                 tagged in
  let body := combinedBodyOf (Ext := Sample.sampleExternals) cfg
                (archived cfg msg Sample.emptyState) msg in
  (* self-chat mode, sender and self the same, no textual pattern *)
  isSelfChatMode (Externals := Sample.sampleExternals) (msg_selfE164 msg)
    (allowFrom (cfg_mention cfg)) = true
  ∧ normalizeE164 (Externals := Sample.sampleExternals)
      (default [] (msg_senderE164 msg))
    = normalizeE164 (Externals := Sample.sampleExternals)
        (default [] (msg_selfE164 msg))
  ∧ hasMentionedJids msg = true
  ∧ existsb (fun re => re_test re
                         (clean (Ext := Sample.sampleExternals) (msg_body msg)))
      (mentionRegexes (cfg_mention cfg)) = false
  ∧ resolveGroupActivationFor (Ext := Sample.sampleExternals) cfg ∅
      (conversationIdOf msg) = ActMention
  ∧ bypassesMention (H := Sample.sampleExternals) cfg msg = false
  (* the tag counts as a mention and the resolver is called *)
  ∧ isBotMentioned (Ext := Sample.sampleExternals) msg (cfg_mention cfg) = true
  ∧ onMessage (Ext := Sample.sampleExternals) Sample.goodNetwork cfg ∅
      Sample.okResolver msg Sample.emptyState []
    = Some (Processed,
            (inr tt,
             {| recentlySent := [str "ok"; body];
                groupHistories := {[ str "123@g.us" := [] ]} |},
             [EvResolver (contextOf msg body (Some true));
              EvReply (str "ok") true]))
  (* without the digits in the body the same tag is ignored *)
  ∧ isBotMentioned (Ext := Sample.sampleExternals) quiet (cfg_mention cfg)
    = false
  ∧ onMessage (Ext := Sample.sampleExternals) Sample.goodNetwork cfg ∅
      Sample.okResolver quiet Sample.emptyState []
    = Some (StoredForContext,
            (inr tt, archived cfg quiet Sample.emptyState, [])).
Proof. by vm_compute. Qed.

Section Gating.
Context `{Ext : Externals}.

Lemma onMessage_always (net : Network) (cfg : Config) (store : SessionStore)
    (replyResolver : MsgContext -> ResolverRun) (msg : WebInboundMsg)
    (s : MonitorState) (w : list Event) :
  0 ≤ groupHistoryLimit cfg →
  msg_body msg ∉ recentlySent s →
  isGroup msg = true →
  ignoredActivation cfg msg = false →
  resolveGroupActivationFor cfg store (conversationIdOf msg) = ActAlways →
  onMessage net cfg store replyResolver msg s w
  = Some (Processed,
          processMessage net cfg replyResolver
            (Some (isBotMentioned msg (cfg_mention cfg))) msg
            (if bypassesMention cfg msg then s else archived cfg msg s) w).
Proof.
  intros Hcap Hecho Hgroup Hign Hact.
  unfold onMessage. rewrite (shouldSuppress_miss _ _ Hecho), Hgroup.
  unfold ignoredActivation in Hign. rewrite Hign.
  unfold bypassesMention.
  destruct (isOwnerSender cfg msg && _); simpl.
  - done.
  - rewrite pushHistory_spec by done. simpl. by rewrite Hact.
Qed.

Lemma archived_last (cfg : Config) (msg : WebInboundMsg) (s : MonitorState) :
  1 ≤ groupHistoryLimit cfg →
  ∃ h, groupHistories (archived cfg msg s) !! conversationIdOf msg = Some h
       ∧ last h = Some (historyEntryOf msg).
Proof.
  intros Hcap. unfold archived. simpl. rewrite lookup_insert_eq.
  eexists. split; [done|].
  set (old := default [] _).
  destruct (decide (length old + 1 ≤ Z.to_nat (groupHistoryLimit cfg))%nat)
    as [Hle|Hgt].
  - rewrite length_app. simpl.
    replace (length old + 1 - Z.to_nat (groupHistoryLimit cfg))%nat
      with 0%nat by lia.
    by rewrite drop_0, last_snoc.
  - rewrite drop_app_le by (rewrite length_app; simpl; lia).
    by rewrite last_snoc.
Qed.

End Gating.

(** C5, as amended. Take a group message that is not suppressed as an
    echo and is not an activation command from a non-owner, with a
    history limit that is not negative. Under activation by mention, if
    the message is not an owner's activation or status command and
    nothing in it counts as a mention, the resolver is not called (the
    log is unchanged) and the message is pushed on the history of its
    conversation, where it is the last entry when the limit is at least
    one. Under activation always the message is handed to
    [processMessage] whatever it mentions, and the resolver is called
    unless the combined body is itself a recently sent text. *)
Theorem mention_gating `{Externals} (net : Network) (cfg : Config)
    (store : SessionStore) (replyResolver : MsgContext -> ResolverRun)
    (msg : WebInboundMsg) (s : MonitorState) (w : list Event) :
  0 ≤ groupHistoryLimit cfg →
  isGroup msg = true →
  msg_body msg ∉ recentlySent s →
  ignoredActivation cfg msg = false →
  (resolveGroupActivationFor cfg store (conversationIdOf msg) = ActMention →
   bypassesMention cfg msg = false →
   isBotMentioned msg (cfg_mention cfg) = false →
   onMessage net cfg store replyResolver msg s w
   = Some (StoredForContext, (inr tt, archived cfg msg s, w))
   ∧ (1 ≤ groupHistoryLimit cfg →
      ∃ h, groupHistories (archived cfg msg s) !! conversationIdOf msg = Some h
           ∧ last h = Some (historyEntryOf msg)))
  ∧ (resolveGroupActivationFor cfg store (conversationIdOf msg) = ActAlways →
     let s1 := if bypassesMention cfg msg then s else archived cfg msg s in
     let combinedBody := combinedBodyOf cfg s1 msg in
     ∃ r s' new,
       onMessage net cfg store replyResolver msg s w
       = Some (Processed, (r, s', w ++ new))
       ∧ (combinedBody ∉ recentlySent s →
          ∃ rest,
            new = EvResolver
                    (contextOf msg combinedBody
                       (Some (isBotMentioned msg (cfg_mention cfg))))
                  :: rest)).
Proof.
  intros Hcap Hgroup Hecho Hign. split.
  - intros Hact Hbypass Hmention. split.
    + by apply onMessage_stored.
    + intros Hcap1. by apply archived_last.
  - intros Hact s1 combinedBody.
    rewrite (onMessage_always net cfg store replyResolver msg s w)
      by done.
    fold s1.
    destruct (turn_outcome net cfg replyResolver
                (Some (isBotMentioned msg (cfg_mention cfg))) msg s1 w)
      as (r & s' & new & Heq & Hcall & _).
    exists r, s', new. split; [by rewrite Heq|].
    intros Hfresh. fold combinedBody in Hcall.
    assert (Hsame : recentlySent s1 = recentlySent s)
      by (unfold s1; by destruct (bypassesMention cfg msg)).
    rewrite Hsame in Hcall.
    by rewrite (proj2 (has_false _ _) Hfresh) in Hcall.
Qed.

Lemma mention_gating_witness :
  let msg := Sample.groupMsg (str "hello group") (str "+111") (str "Alice")
               None in
  0 ≤ groupHistoryLimit Sample.plainConfig
  ∧ onMessage (Ext := Sample.sampleExternals) Sample.goodNetwork
      Sample.plainConfig ∅ Sample.okResolver msg Sample.emptyState []
    = Some (StoredForContext,
            (inr tt, archived Sample.plainConfig msg Sample.emptyState, [])).
Proof.
  intros msg.
  assert (Hcap : 0 ≤ groupHistoryLimit Sample.plainConfig)
    by (vm_compute; discriminate).
  assert (Hecho : msg_body msg ∉ recentlySent Sample.emptyState)
    by (intros Hin; inversion Hin).
  split; [exact Hcap|].
  destruct (mention_gating (H := Sample.sampleExternals) Sample.goodNetwork
              Sample.plainConfig ∅ Sample.okResolver msg Sample.emptyState []
              Hcap eq_refl Hecho eq_refl) as [Hmention _].
  destruct (Hmention eq_refl eq_refl eq_refl) as [Hstored _].
  exact Hstored.
Defined.

(** C5 as stated fails: under activation by mention, the owner's
    "/status" in a group, which mentions nobody, is answered: the
    resolver is called, and the message is not pushed on the history. *)
Lemma owner_status_counterexample :
  ¬ (∀ (Ext : Externals) (net : Network) (cfg : Config)
       (store : SessionStore) (replyResolver : MsgContext -> ResolverRun)
       (msg : WebInboundMsg) (s : MonitorState),
       0 ≤ groupHistoryLimit cfg →
       isGroup msg = true →
       resolveGroupActivationFor cfg store (conversationIdOf msg)
       = ActMention →
       isBotMentioned msg (cfg_mention cfg) = false →
       ∃ r s',
         onMessage net cfg store replyResolver msg s []
         = Some (StoredForContext, (r, s', []))).
Proof.
  intros Hclaim.
  destruct (Hclaim Sample.sampleExternals Sample.goodNetwork
              Sample.ownerConfig ∅ Sample.okResolver
              (Sample.groupMsg (str "/status") (str "+111") (str "Alice") None)
              Sample.emptyState)
    as (r & s' & Heq); [by vm_compute|done|done|done|].
  apply (f_equal (fmap fst)) in Heq.
  vm_compute in Heq. discriminate.
Qed.

(** ** Clearing the group history *)

Lemma history_cleared_only_after_send_witness :
  let msg := Sample.groupMsg (str "hello group") (str "+111") (str "Alice")
               None in
  substantive (H := Sample.sampleExternals) Sample.plainConfig
    [Sample.textPayload (str "ok")]
  ∧ ∃ r s' new,
      processMessage (Ext := Sample.sampleExternals) Scenario.replyRejectingNetwork
        Sample.plainConfig Sample.okResolver (Some false) msg
        Sample.chattyState [] = (r, s', new)
      ∧ List.filter isSuccessfulSend new = []
      ∧ groupHistories s' = groupHistories Sample.chattyState.
Proof.
  intros msg.
  assert (Hsub : substantive (H := Sample.sampleExternals) Sample.plainConfig
                   [Sample.textPayload (str "ok")]).
  { intros p p' Hp Hprepared.
    apply list_elem_of_singleton in Hp. subst p.
    injection Hprepared as <-. reflexivity. }
  split; [exact Hsub|].
  destruct (history_cleared_only_after_send (Ext := Sample.sampleExternals)
              Scenario.replyRejectingNetwork Sample.plainConfig Sample.okResolver
              (Some false) msg Sample.chattyState [])
    as (r & s' & new & Heq & _ & _ & _ & _ & Hkeep).
  assert (Hnone : List.filter isSuccessfulSend
                    (processMessage (Ext := Sample.sampleExternals)
                       Scenario.replyRejectingNetwork Sample.plainConfig
                       Sample.okResolver (Some false) msg
                       Sample.chattyState []).2 = [])
    by (vm_compute; reflexivity).
  rewrite Heq in Hnone. cbn [snd app] in Hnone.
  exists r, s', new. split_and!; [exact Heq|exact Hnone|].
  exact (proj1 (Hkeep Hsub) Hnone).
Defined.

(** C6 as stated fails when the resolver returns nothing after a
    streamed tool result has been delivered: the delivery sets
    [didSendReply] and the history of the conversation is cleared. *)
Lemma tool_result_clears_history_counterexample :
  ¬ (∀ (Ext : Externals) (net : Network) (cfg : Config)
       (replyResolver : MsgContext -> ResolverRun)
       (wasMentioned : option bool) (msg : WebInboundMsg)
       (s : MonitorState) (w : list Event),
       run_result
         (replyResolver
            (contextOf msg (combinedBodyOf cfg s msg) wasMentioned))
       = inr ReplyUndefined →
       groupHistories
         (processMessage net cfg replyResolver wasMentioned msg s w).1.2
       = groupHistories s).
Proof.
  intros Hclaim.
  specialize (Hclaim Sample.sampleExternals Sample.goodNetwork
                Sample.plainConfig Sample.toolOnlyResolver (Some false)
                (Sample.groupMsg (str "hello group") (str "+111")
                   (str "Alice") None)
                Sample.chattyState [] eq_refl).
  apply (f_equal (fun m => m !! str "123@g.us")) in Hclaim.
  vm_compute in Hclaim. discriminate.
Qed.

(** ** The connection supervisor *)

Section Loop.
Context `{Ext : Externals}.

Lemma factoryCalls_eq (r : MonitorResult) :
  factoryCalls r = length (List.filter isFactoryCall (res_trace r)).
Proof. done. Qed.

Lemma closesAtOnce_turn (reconnectPolicy : ReconnectPolicy)
    (heartbeatSeconds : Z) (c : Connection) (a : Z)
    (st : WebProviderStatus) (tr : list MonitorEvent) :
  closesAtOnce heartbeatSeconds c = true →
  ∃ st' tr',
    List.filter isFactoryCall tr' = [MFactory]
    ∧ loopTurn reconnectPolicy heartbeatSeconds true c a st tr
      = if ((maxAttempts reconnectPolicy >? 0)
            && (a + 1 >=? maxAttempts reconnectPolicy))%bool
        then Leave (finish (a + 1) st'
                      (tr ++ tr'
                       ++ [MRuntimeError
                             (ErrMaxAttempts (a + 1)
                                (maxAttempts reconnectPolicy));
                           MCloseListener]))
        else Again (a + 1) st'
               (tr ++ tr'
                ++ [MRuntimeError
                      (ErrRetry (a + 1) (maxAttempts reconnectPolicy)
                         (computeBackoff reconnectPolicy (a + 1)));
                    MCloseListener;
                    MSleep (computeBackoff reconnectPolicy (a + 1))]).
Proof.
  unfold closesAtOnce. intros Hc.
  apply andb_prop in Hc as [Hc Hsleep].
  apply andb_prop in Hc as [Hc Hstop].
  apply andb_prop in Hc as [Hc Hup].
  apply andb_prop in Hc as [Htop Hwait].
  apply negb_true_iff in Htop, Hstop, Hsleep.
  destruct (conn_wait c) as [|r| | |] eqn:Hw; try done.
  apply negb_true_iff in Hwait.
  unfold loopTurn. rewrite Htop, Hw. simpl.
  unfold afterWait. rewrite Hstop, Hsleep, Hwait.
  assert (Hnot : (conn_uptimeMs c >? heartbeatSeconds * 1000) = false).
  { apply Z.leb_le in Hup. rewrite Z.gtb_ltb. apply Z.ltb_ge. lia. }
  rewrite Hnot. simpl. unfold setStatus. simpl.
  eexists _, [MFactory; _; _; _; _].
  split; last first.
  - destruct (_ && _); simpl; rewrite <- !app_assoc; simpl; reflexivity.
  - reflexivity.
Qed.

Lemma filter_factory_app (tr tr' extra : list MonitorEvent) :
  List.filter isFactoryCall tr' = [MFactory] →
  List.filter isFactoryCall extra = [] →
  length (List.filter isFactoryCall (tr ++ tr' ++ extra))
  = S (length (List.filter isFactoryCall tr)).
Proof.
  intros Hone Hnone. rewrite !List.filter_app, Hone, Hnone, !length_app.
  simpl. lia.
Qed.

Lemma loop_stops_at_max (reconnectPolicy : ReconnectPolicy)
    (heartbeatSeconds : Z) (rest closes : list Connection) :
  0 < maxAttempts reconnectPolicy →
  Forall (fun c => closesAtOnce heartbeatSeconds c = true) closes →
  ∀ (a : Z) (st : WebProviderStatus) (tr : list MonitorEvent),
    closes ≠ [] →
    a + Z.of_nat (length closes) = maxAttempts reconnectPolicy →
    let res := monitorLoop reconnectPolicy heartbeatSeconds true
                 (closes ++ rest) a st tr in
    factoryCalls res
    = (length (List.filter isFactoryCall tr) + length closes)%nat
    ∧ res_end res = Stopped
    ∧ running (res_status res) = false
    ∧ res_reconnectAttempts res = maxAttempts reconnectPolicy
    ∧ MRuntimeError (ErrMaxAttempts (maxAttempts reconnectPolicy)
                       (maxAttempts reconnectPolicy)) ∈ res_trace res.
Proof.
  intros Hmax Hall.
  induction Hall as [|c closes Hc Hall IH]; intros a st tr Hne Hlen; [done|].
  simpl.
  destruct (closesAtOnce_turn reconnectPolicy heartbeatSeconds c a st tr Hc)
    as (st' & tr' & Hone & ->).
  destruct closes as [|c' closes'].
  - simpl in Hlen.
    replace (maxAttempts reconnectPolicy >? 0) with true
      by (symmetry; apply Z.gtb_lt; lia).
    replace (a + 1 >=? maxAttempts reconnectPolicy) with true
      by (symmetry; apply Z.geb_le; lia).
    cbn [andb]. rewrite factoryCalls_eq. unfold finish. cbn [res_trace
      res_end res_status res_reconnectAttempts running].
    replace (a + 1) with (maxAttempts reconnectPolicy) by lia.
    split_and!; try done.
    + rewrite !List.filter_app, !length_app, Hone. simpl. lia.
    + rewrite !elem_of_app. left. right. right. by left.
  - replace (a + 1 >=? maxAttempts reconnectPolicy) with false
      by (symmetry; rewrite Z.geb_leb; apply Z.leb_gt; simpl in Hlen; lia).
    rewrite andb_false_r.
    specialize (IH (a + 1) st'
                  (tr ++ tr'
                   ++ [MRuntimeError
                         (ErrRetry (a + 1) (maxAttempts reconnectPolicy)
                            (computeBackoff reconnectPolicy (a + 1)));
                       MCloseListener;
                       MSleep (computeBackoff reconnectPolicy (a + 1))])).
    destruct IH as (Hcalls & Hend & Hrun & Hatt & Herr);
      [done|simpl in *; lia|].
    split_and!; try done.
    rewrite Hcalls, filter_factory_app by done. simpl. lia.
Qed.

(** C1, as amended. With [maxAttempts = N > 0] and a listener whose
    [onClose] resolves at once (no logout, no stop request) on each of
    its first N invocations, the monitor calls the listener factory
    exactly N times: the N-th close brings the attempt counter to N, the
    loop reports that the maximum is reached and ends, with
    [running = false] in the final status. *)
Theorem reconnect_stops_at_max_attempts (reconnectPolicy : ReconnectPolicy)
    (heartbeatSeconds : Z) (closes rest : list Connection) :
  0 < maxAttempts reconnectPolicy →
  Z.of_nat (length closes) = maxAttempts reconnectPolicy →
  Forall (fun c => closesAtOnce heartbeatSeconds c = true) closes →
  let res := monitorWebProvider reconnectPolicy heartbeatSeconds true
               (closes ++ rest) in
  factoryCalls res = length closes
  ∧ res_end res = Stopped
  ∧ running (res_status res) = false
  ∧ res_reconnectAttempts res = maxAttempts reconnectPolicy
  ∧ MRuntimeError (ErrMaxAttempts (maxAttempts reconnectPolicy)
                     (maxAttempts reconnectPolicy)) ∈ res_trace res.
Proof.
  intros Hmax Hlen Hall. unfold monitorWebProvider.
  apply (loop_stops_at_max reconnectPolicy heartbeatSeconds rest closes
           Hmax Hall 0 initialStatus [MStatus initialStatus]).
  - intros ->. simpl in Hlen. lia.
  - lia.
Qed.

End Loop.

Lemma reconnect_stops_at_max_attempts_witness :
  0 < maxAttempts (Sample.testPolicy 2)
  ∧ factoryCalls (monitorWebProvider (Ext := Sample.sampleExternals)
                    (Sample.testPolicy 2) 1 true [Sample.closeAtOnce; Sample.closeAtOnce]) = 2%nat
  ∧ res_end (monitorWebProvider (Ext := Sample.sampleExternals)
               (Sample.testPolicy 2) 1 true [Sample.closeAtOnce; Sample.closeAtOnce]) = Stopped.
Proof.
  assert (Hmax : 0 < maxAttempts (Sample.testPolicy 2)) by (vm_compute; reflexivity).
  split; [exact Hmax|].
  destruct (reconnect_stops_at_max_attempts (Ext := Sample.sampleExternals)
              (Sample.testPolicy 2) 1 [Sample.closeAtOnce; Sample.closeAtOnce] [] Hmax eq_refl)
    as (Hcalls & Hend & _).
  { repeat constructor. }
  split; [exact Hcalls|exact Hend].
Defined.

(** C1 as stated fails: with [maxAttempts = 2] and two immediate closes
    the factory is called twice, not three times. *)
Lemma reconnect_factory_calls_counterexample :
  ¬ (∀ (Ext : Externals) (reconnectPolicy : ReconnectPolicy)
       (heartbeatSeconds : Z) (closes : list Connection),
       0 < maxAttempts reconnectPolicy →
       Z.of_nat (length closes) = maxAttempts reconnectPolicy →
       Forall (fun c => closesAtOnce heartbeatSeconds c = true) closes →
       factoryCalls (monitorWebProvider reconnectPolicy heartbeatSeconds true
                       closes)
       = S (length closes)).
Proof.
  intros Hclaim.
  specialize (Hclaim Sample.sampleExternals (Sample.testPolicy 2) 1
                [Sample.closeAtOnce; Sample.closeAtOnce]).
  vm_compute in Hclaim.
  specialize (Hclaim eq_refl eq_refl).
  assert (2 = 3)%nat as Habs; [|discriminate].
  apply Hclaim. repeat constructor.
Qed.

Section Watchdog.
Context `{Ext : Externals}.

Lemma quiet_turn (reconnectPolicy : ReconnectPolicy) (heartbeatSeconds : Z)
    (a : Z) (st : WebProviderStatus) (tr : list MonitorEvent) :
  ∃ st1,
    loopTurn reconnectPolicy heartbeatSeconds true quietConnection a st tr
    = Leave (result Waiting a st1 (tr ++ [MFactory; MStatus st1])).
Proof.
  eexists. unfold loopTurn, connect, setStatus. simpl.
  by rewrite app_nil_r, <- app_assoc.
Qed.

(** C4, as amended. Once a message has arrived on the connection, a run
    of the watchdog that finds the last one more than 30 minutes old
    closes the listener and signals a close with status 499 (not a
    logout) to a listener that provides [signalClose]; the wait then
    ends without the transport having reported anything, and, unless a
    stop was requested or the attempts are exhausted, the loop sleeps the
    backoff delay and calls the listener factory again. *)
Theorem watchdog_forces_reconnect (reconnectPolicy : ReconnectPolicy)
    (heartbeatSeconds : Z) (c : Connection) (now t : Z)
    (a : Z) (st : WebProviderStatus) (tr : list MonitorEvent) :
  conn_stopAtTop c = false →
  conn_wait c = WatchdogRun now (Some t) true →
  t ≠ 0 →
  now - t > MESSAGE_TIMEOUT_MS →
  conn_stopAfter c = false →
  conn_sleepRejects c = false →
  let a' := (if conn_uptimeMs c >? heartbeatSeconds * 1000 then 0 else a) + 1 in
  maxAttempts reconnectPolicy ≤ 0 ∨ a' < maxAttempts reconnectPolicy →
  watchdogFires now (Some t) = true
  ∧ ∃ st' before after,
      loopTurn reconnectPolicy heartbeatSeconds true c a st tr
      = Again a' st'
          (tr ++ MFactory :: before
           ++ [MCloseListener; MSignalClose watchdogReason] ++ after
           ++ [MSleep (computeBackoff reconnectPolicy a')])
      ∧ List.filter isFactoryCall (before ++ after) = []
      ∧ ∀ res : MonitorResult,
          res = monitorLoop reconnectPolicy heartbeatSeconds true [c] a st tr →
          res_end res = Waiting
          ∧ factoryCalls res
            = (length (List.filter isFactoryCall tr) + 2)%nat.
Proof.
  intros Htop Hwait Ht Hquiet Hstop Hsleep a' Hmax.
  assert (Hfires : watchdogFires now (Some t) = true).
  { unfold watchdogFires. apply andb_true_intro. split.
    - apply negb_true_iff, Z.eqb_neq, Ht.
    - apply Z.gtb_lt. lia. }
  split; [exact Hfires|].
  assert (Hcond : (maxAttempts reconnectPolicy >? 0)
                  && (a' >=? maxAttempts reconnectPolicy) = false).
  { destruct Hmax as [Hle|Hlt].
    - replace (maxAttempts reconnectPolicy >? 0) with false; [done|].
      symmetry. rewrite Z.gtb_ltb. apply Z.ltb_ge. lia.
    - rewrite andb_false_iff. right. rewrite Z.geb_leb. apply Z.leb_gt. lia. }
  assert (Hturn : ∃ st' before after,
      loopTurn reconnectPolicy heartbeatSeconds true c a st tr
      = Again a' st'
          (tr ++ MFactory :: before
           ++ [MCloseListener; MSignalClose watchdogReason] ++ after
           ++ [MSleep (computeBackoff reconnectPolicy a')])
      ∧ List.filter isFactoryCall (before ++ after) = []).
  { unfold loopTurn. rewrite Htop, Hwait. cbn [negb].
    unfold watchdogEvents, raceValue. rewrite Hfires. cbn [andb].
    unfold afterWait. rewrite Hstop, Hsleep. fold a'.
    cbn [watchdogReason reason_status reason_isLoggedOut mbind option_bind
         default]. simpl. fold a'. rewrite Hcond.
    unfold setStatus. simpl.
    eexists _, [_], [_; _; _; _; _]. split.
    - rewrite <- !app_assoc. simpl. reflexivity.
    - reflexivity. }
  destruct Hturn as (st' & before & after & Hturn & Hnone).
  exists st', before, after. split_and!; try done.
  intros res ->. cbn [monitorLoop]. rewrite Hturn.
  destruct (quiet_turn reconnectPolicy heartbeatSeconds a' st'
              (tr ++ MFactory :: before
               ++ [MCloseListener; MSignalClose watchdogReason] ++ after
               ++ [MSleep (computeBackoff reconnectPolicy a')]))
    as [st1 ->].
  split; [done|].
  rewrite factoryCalls_eq. cbn [result res_trace].
  rewrite List.filter_app in Hnone. apply app_eq_nil in Hnone as [Hb Ha].
  rewrite !List.filter_app. cbn [List.filter isFactoryCall].
  rewrite !List.filter_app, Hb, Ha. cbn [List.filter isFactoryCall].
  rewrite !length_app. simpl. lia.
Qed.

End Watchdog.


Lemma watchdog_forces_reconnect_witness :
  1000 + 31 * 60 * 1000 - 1000 > MESSAGE_TIMEOUT_MS
  ∧ watchdogFires (1000 + 31 * 60 * 1000) (Some 1000) = true
  ∧ factoryCalls
      (monitorWebProvider (Ext := Sample.sampleExternals)
         (Sample.testPolicy 3) 60 true [Sample.silentAfterMessage]) = 2%nat.
Proof.
  assert (Hquiet : 1000 + 31 * 60 * 1000 - 1000 > MESSAGE_TIMEOUT_MS)
    by reflexivity.
  split; [exact Hquiet|].
  destruct (watchdog_forces_reconnect (Ext := Sample.sampleExternals)
              (Sample.testPolicy 3) 60 Sample.silentAfterMessage
              (1000 + 31 * 60 * 1000) 1000 0 initialStatus
              [MStatus initialStatus] eq_refl eq_refl)
    as (Hfires & st' & before & after & _ & _ & Hloop);
    [discriminate|exact Hquiet|reflexivity|reflexivity|right; reflexivity|].
  split; [exact Hfires|].
  destruct (Hloop _ eq_refl) as [_ Hcalls]. exact Hcalls.
Defined.

(** C4 as stated fails on a connection that has received no message at
    all: [lastMessageAt] is still [null], the watchdog's test is skipped
    however long the silence lasts, and the listener is never closed. *)
Lemma watchdog_never_fires_counterexample :
  ¬ (∀ (Ext : Externals) (reconnectPolicy : ReconnectPolicy)
       (heartbeatSeconds : Z) (c : Connection) (now : Z)
       (lastMessageAt : option Z),
       conn_stopAtTop c = false →
       conn_wait c = WatchdogRun now lastMessageAt true →
       conn_uptimeMs c > MESSAGE_TIMEOUT_MS →
       (∀ t, lastMessageAt = Some t → now - t > MESSAGE_TIMEOUT_MS) →
       MCloseListener
         ∈ res_trace (monitorWebProvider reconnectPolicy heartbeatSeconds
                        true [c])).
Proof.
  intros Hclaim.
  specialize (Hclaim Sample.sampleExternals (Sample.testPolicy 0) 60 Sample.silentForever
                (31 * 60 * 1000) None eq_refl eq_refl eq_refl).
  assert (Hin : MCloseListener
            ∈ res_trace (monitorWebProvider (Ext := Sample.sampleExternals)
                           (Sample.testPolicy 0) 60 true [Sample.silentForever])).
  { apply Hclaim. intros t [=]. }
  vm_compute in Hin.
  repeat (apply elem_of_cons in Hin as [Hin|Hin]; [discriminate|]).
  inversion Hin.
Qed.

(** A returned payload with an empty text and no media is not filtered
    out as silent; [deliverWebReply] then sends nothing and returns, and
    the history is cleared although no message went out. *)
Example empty_payload_clears_history :
  let run := processMessage (Ext := Sample.sampleExternals)
               Sample.goodNetwork Sample.plainConfig
               (fun _ => {| run_toolResults := [];
                            run_result :=
                              inr (ReplyOne (Sample.textPayload [])) |})
               (Some false)
               (Sample.groupMsg (str "hello group") (str "+111")
                  (str "Alice") None)
               Sample.chattyState [] in
  List.filter isSuccessfulSend run.2 = []
  ∧ groupHistories run.1.2 !! str "123@g.us" = Some [].
Proof. by vm_compute. Qed.

(** * Further properties *)

(** ** Delivery: retries and the order of the sends *)

Section Retry.
Context `{Ext : Externals}.

Lemma retry_trace (fn : Async unit) (ev : bool -> Event) :
  post fn (fun r new => (r = inr tt ∧ new = [ev true])
                        ∨ (∃ e, r = inl e ∧ new = [ev false])) →
  ∀ more attempt,
    post (sendWithRetryFrom fn attempt more) (RetryTrace ev attempt more).
Proof.
  intros Hfn more.
  induction more as [|more IH]; intros attempt; simpl.
  - eapply post_tryCatch; [exact Hfn| |].
    + intros [] n1 [[_ ->]|(e & [=] & _)]. apply retry_ok.
    + intros e n1 [[[=] _]|(e' & [= <-] & ->)].
      apply post_throw. rewrite app_nil_r. apply retry_exhausted.
  - eapply post_tryCatch; [exact Hfn| |].
    + intros [] n1 [[_ ->]|(e & [=] & _)]. apply retry_ok.
    + intros e n1 [[[=] _]|(e' & [= <-] & ->)].
      destruct (looksTransient (formatError e)) eqn:Htransient; cbn [negb].
      * eapply post_bind with
          (Q1 := fun r new => r = inr tt ∧ new = [EvSleep (500 * attempt)]).
        -- by apply post_emit.
        -- intros [] n2 [_ ->]. eapply post_weaken; [apply IH|].
           intros r new Htrace. simpl. by apply retry_again with (e := e).
        -- by intros e' n2 [? _].
      * apply post_throw. rewrite app_nil_r. by apply retry_fatal.
Qed.

Lemma reply_attempt (net : Network) (body : jstring) :
  post (reply net body)
    (fun r new => (r = inr tt ∧ new = [EvReply body true])
                  ∨ (∃ e, r = inl e ∧ new = [EvReply body false])).
Proof. apply post_reply; eauto. Qed.

Lemma sendMedia_attempt (net : Network) (m : MediaMessage) :
  post (sendMedia net m)
    (fun r new => (r = inr tt ∧ new = [EvSendMedia m true])
                  ∨ (∃ e, r = inl e ∧ new = [EvSendMedia m false])).
Proof. apply post_sendMedia; eauto. Qed.

(** What a retry trace implies. *)
Lemma RetryTrace_facts (ev : bool -> Event) (attempt : Z) (more : nat)
    (r : JsError + unit) (new : list Event) :
  (∀ b, isSleep (ev b) = false) →
  RetryTrace ev attempt more r new →
  (* attempts: at least one, at most more + 1; at most one succeeds, and
     it is the last event *)
  (1 ≤ length (List.filter (fun e => negb (isSleep e)) new) ≤ S more)%nat
  ∧ List.filter (fun e => negb (isSleep e)) new
    = replicate (length (List.filter (fun e => negb (isSleep e)) new) - 1)
        (ev false)
      ++ [ev (resolved r)]
  ∧ last new = Some (ev (resolved r))
  (* the pauses: 500 ms times the number of the attempt that failed *)
  ∧ map sleepOf (List.filter isSleep new)
    = map (fun k => 500 * (attempt + Z.of_nat k))
        (seq 0 (length (List.filter (fun e => negb (isSleep e)) new) - 1)).
Proof.
  intros Hev Htrace.
  induction Htrace as [attempt more|attempt e|attempt more e Hfatal
                      |attempt more e r new Htransient Htrace IH].
  - simpl. rewrite !Hev. simpl. split_and!; try done; lia.
  - simpl. rewrite !Hev. simpl. split_and!; try done; lia.
  - simpl. rewrite !Hev. simpl. split_and!; try done; lia.
  - destruct IH as ((Hlo & Hhi) & Hshape & Hlast & Hsleeps).
    cbn [List.filter isSleep negb]. rewrite !Hev. cbn [negb].
    set (attempts := List.filter (fun e => negb (isSleep e)) new) in *.
    cbn [length].
    replace (S (length attempts) - 1)%nat with (S (length attempts - 1))
      by lia.
    split_and!.
    + lia.
    + lia.
    + simpl. by rewrite <- Hshape.
    + destruct new as [|x new]; [simpl in Hlo; lia|]. exact Hlast.
    + cbn [map sleepOf seq]. rewrite Hsleeps. f_equal.
      * f_equal. lia.
      * rewrite <- seq_shift, map_map. apply map_ext. intros k. lia.
Qed.

(** X1. [sendWithRetry] around [msg.reply] calls it at most three
    times: every attempt but the last rejected, at most one resolves and
    it is the last event; the pause after the k-th failed attempt is
    500 * k ms; the outcome is that of the last attempt. *)
Theorem sendWithRetry_reply_bounded (net : Network) (body : jstring)
    (w : list Event) :
  ∃ r new (failed : nat),
    sendWithRetry (reply net body) w = (r, w ++ new)
    ∧ (failed ≤ 2)%nat
    ∧ List.filter (fun e => negb (isSleep e)) new
      = replicate failed (EvReply body false) ++ [EvReply body (resolved r)]
    ∧ map sleepOf (List.filter isSleep new)
      = map (fun k => 500 * (1 + Z.of_nat k)) (seq 0 failed)
    ∧ last new = Some (EvReply body (resolved r)).
Proof.
  destruct (retry_trace (reply net body) (EvReply body)
              (reply_attempt net body) 2 1 w) as (r & new & Heq & Htrace).
  apply RetryTrace_facts in Htrace as ((Hlo & Hhi) & Hshape & Hlast & Hsleeps);
    [|done].
  exists r, new, (length (List.filter (fun e => negb (isSleep e)) new) - 1)%nat.
  split_and!; try done. lia.
Qed.

(** X2. The same bound for [sendWithRetry] around [msg.sendMedia]: at
    most three attempts, no attempt after one that resolves, pauses of
    500 and 1000 ms. *)
Theorem sendWithRetry_media_bounded (net : Network) (m : MediaMessage)
    (w : list Event) :
  ∃ r new (failed : nat),
    sendWithRetry (sendMedia net m) w = (r, w ++ new)
    ∧ (failed ≤ 2)%nat
    ∧ List.filter (fun e => negb (isSleep e)) new
      = replicate failed (EvSendMedia m false) ++ [EvSendMedia m (resolved r)]
    ∧ map sleepOf (List.filter isSleep new)
      = map (fun k => 500 * (1 + Z.of_nat k)) (seq 0 failed)
    ∧ last new = Some (EvSendMedia m (resolved r)).
Proof.
  destruct (retry_trace (sendMedia net m) (EvSendMedia m)
              (sendMedia_attempt net m) 2 1 w) as (r & new & Heq & Htrace).
  apply RetryTrace_facts in Htrace as ((Hlo & Hhi) & Hshape & Hlast & Hsleeps);
    [|done].
  exists r, new, (length (List.filter (fun e => negb (isSleep e)) new) - 1)%nat.
  split_and!; try done. lia.
Qed.

Lemma retry_fatal_once (net : Network) (body : jstring) (w : list Event)
    (e : JsError) :
  replyOutcome net (count isReplyEvent w) body = Some e →
  looksTransient (formatError e) = false →
  sendWithRetry (reply net body) w = (inl e, w ++ [EvReply body false]).
Proof.
  intros Hfirst Hfatal.
  assert (Hstart : ∀ h : JsError -> Async unit,
            tryCatch (reply net body) h w
            = h e (w ++ [EvReply body false])).
  { intros h. unfold tryCatch, reply. by rewrite Hfirst. }
  unfold sendWithRetry. cbn [sendWithRetryFrom]. rewrite Hstart.
  by rewrite Hfatal.
Qed.

(** X3. When the first [msg.reply] rejects: an error whose text does
    not look transient is rethrown after that single attempt, with no
    pause; a transient one is followed by a pause of 500 ms and a second
    attempt, and if that resolves the whole send resolves. *)
Theorem sendWithRetry_fatal_or_transient (net : Network) (body : jstring)
    (w : list Event) (e : JsError) :
  replyOutcome net (count isReplyEvent w) body = Some e →
  (looksTransient (formatError e) = false →
   sendWithRetry (reply net body) w = (inl e, w ++ [EvReply body false]))
  ∧ (looksTransient (formatError e) = true →
     replyOutcome net (S (count isReplyEvent w)) body = None →
     sendWithRetry (reply net body) w
     = (inr tt, w ++ [EvReply body false; EvSleep 500; EvReply body true])).
Proof.
  intros Hfirst.
  assert (Hstart : ∀ h : JsError -> Async unit,
            tryCatch (reply net body) h w
            = h e (w ++ [EvReply body false])).
  { intros h. unfold tryCatch, reply. by rewrite Hfirst. }
  unfold sendWithRetry. cbn [sendWithRetryFrom]. rewrite Hstart.
  split.
  - intros Hfatal. by rewrite Hfatal.
  - intros Htransient Hsecond. rewrite Htransient. cbn [negb].
    unfold bind, emit, tryCatch.
    unfold reply at 1.
    assert (Hcount : count isReplyEvent
                       ((w ++ [EvReply body false]) ++ [EvSleep (500 * 1)])
                     = S (count isReplyEvent w)).
    { unfold count. rewrite !List.filter_app, !length_app. simpl. lia. }
    rewrite Hcount, Hsecond. simpl. by rewrite <- !app_assoc.
Qed.

End Retry.

Section Ordered.
Context `{Ext : Externals}.

Lemma deliver_text_ok (net : Network) (p : ReplyPayload)
    (maxMediaBytes : Z) (w : list Event) :
  mediaListOf p = [] →
  (∀ n body, replyOutcome net n body = None) →
  deliverWebReply net p maxMediaBytes w
  = (inr tt,
     w ++ repliesOk (chunkText (default [] (text p)) WEB_TEXT_LIMIT)).
Proof.
  intros Hmedia Hok. unfold deliverWebReply. rewrite Hmedia.
  destruct (chunkText _ _) as [|chunk chunks] eqn:Hchunks.
  - simpl. unfold bind, ret. simpl. by rewrite app_nil_r.
  - apply (forEach_replies net); [intros; by right|]. intros. apply Hok.
Qed.

(** X4. A reply without media on a network where [msg.reply] resolves:
    the chunks of the text are sent in order, one reply each, nothing
    else is done, and the delivery resolves. *)
Theorem text_reply_sent_in_order (net : Network) (p : ReplyPayload)
    (maxMediaBytes : Z) (w : list Event) :
  mediaListOf p = [] →
  (∀ n body, replyOutcome net n body = None) →
  deliverWebReply net p maxMediaBytes w
  = (inr tt,
     w ++ repliesOk (chunkText (default [] (text p)) WEB_TEXT_LIMIT)).
Proof.
  intros Hmedia Hok. unfold deliverWebReply. rewrite Hmedia.
  destruct (chunkText _ _) as [|chunk chunks] eqn:Hchunks.
  - simpl. unfold bind, ret. simpl. by rewrite app_nil_r.
  - apply (forEach_replies net); [intros; by right|]. intros. apply Hok.
Qed.

(** X5. A reply without media stops at the first chunk whose send
    rejects with an error that is not transient: the chunks before it
    have been sent, the ones after it never are, and the delivery
    rejects with that error. *)
Theorem text_reply_stops_at_failure (net : Network) (p : ReplyPayload)
    (maxMediaBytes : Z) (w : list Event) (before after : list jstring)
    (chunk : jstring) (e : JsError) :
  mediaListOf p = [] →
  chunkText (default [] (text p)) WEB_TEXT_LIMIT = before ++ chunk :: after →
  (∀ (k : nat) c, before !! k = Some c →
     replyOutcome net (count isReplyEvent w + k) c = None) →
  replyOutcome net (count isReplyEvent w + length before) chunk = Some e →
  looksTransient (formatError e) = false →
  deliverWebReply net p maxMediaBytes w
  = (inl e, w ++ repliesOk before ++ [EvReply chunk false]).
Proof.
  intros Hmedia Hchunks Hok Hfail Hfatal.
  unfold deliverWebReply. rewrite Hmedia, Hchunks.
  assert (Hgo : ∀ (before : list jstring) w,
    (∀ (k : nat) c, before !! k = Some c →
       replyOutcome net (count isReplyEvent w + k) c = None) →
    replyOutcome net (count isReplyEvent w + length before) chunk = Some e →
    forEach (before ++ chunk :: after)
      (fun chunk => sendWithRetry (reply net chunk)) w
    = (inl e, w ++ repliesOk before ++ [EvReply chunk false])).
  { clear Hok Hfail Hchunks w before.
    induction before as [|c before IH]; intros w Hok Hfail; simpl.
    - unfold bind. rewrite Nat.add_0_r in Hfail.
      by rewrite (retry_fatal_once net chunk w e Hfail Hfatal).
    - unfold bind. rewrite retry_resolves.
      2:{ rewrite <- (Nat.add_0_r (count isReplyEvent w)). by apply Hok. }
      rewrite IH; [by rewrite <- app_assoc| |].
      + intros k c' Hk.
        replace (count isReplyEvent (w ++ [EvReply c true]) + k)%nat
          with (count isReplyEvent w + S k)%nat.
        * by apply Hok.
        * unfold count. rewrite List.filter_app, length_app. simpl. lia.
      + replace (count isReplyEvent (w ++ [EvReply c true]) + length before)%nat
          with (count isReplyEvent w + length (c :: before))%nat; [done|].
        unfold count. rewrite List.filter_app, length_app. simpl. lia. }
  destruct (before ++ chunk :: after) as [|c0 l0] eqn:Hl;
    [by destruct before|].
  rewrite <- Hl. by apply Hgo.
Qed.

(** X6. A reply with media on a network where everything resolves: the
    first chunk of the text goes out as the caption of the first media
    (unless it is empty), the other media go out without caption, and
    the remaining chunks follow as plain replies, in order; the caption
    chunk is not sent a second time. *)
Theorem media_reply_caption_then_text (net : Network) (p : ReplyPayload)
    (maxMediaBytes : Z) (media : jstring -> WebMedia)
    (first : jstring) (others : list jstring) (w : list Event) :
  mediaListOf p = first :: others →
  (∀ n m, sendMediaOutcome net n m = None) →
  (∀ n body, replyOutcome net n body = None) →
  (∀ u, u ∈ first :: others →
        loadWebMedia net u maxMediaBytes = inr (media u)) →
  let chunks := chunkText (default [] (text p)) WEB_TEXT_LIMIT in
  deliverWebReply net p maxMediaBytes w
  = (inr tt,
     w ++ EvSendMedia
            (mediaMessageFor (media first) first (captionOf chunks)) true
       :: map (fun u => EvSendMedia (mediaMessageFor (media u) u None) true)
            others
       ++ repliesOk (tail chunks)).
Proof.
  intros Hmedia Hsend Hreply Hload chunks.
  unfold deliverWebReply. rewrite Hmedia. fold chunks.
  cbv iota. cbn [mediaLoop]. unfold bind.
  pose proof (sendOneMedia_ok net maxMediaBytes true first (media first)
                chunks w Hsend) as Hone.
  cbv iota in Hone. rewrite shiftCaption_eq in Hone.
  rewrite Hone by (apply Hload; by left).
  rewrite (mediaLoop_rest_ok net maxMediaBytes media others (tail chunks)
             Hsend).
  2:{ intros u Hu. apply Hload. by right. }
  rewrite (forEach_replies net); [|intros; by left|intros; apply Hreply].
  simpl. by rewrite <- !app_assoc.
Qed.

(** X7. The text chunks that follow the media are sent with a bare
    [msg.reply], not through [sendWithRetry]: when the send of such a
    chunk rejects, even with a transient error, it is not tried again
    and the delivery rejects, the later chunks unsent. *)
Theorem remaining_text_not_retried (net : Network) (p : ReplyPayload)
    (maxMediaBytes : Z) (media : jstring -> WebMedia)
    (first : jstring) (others : list jstring) (w : list Event)
    (caption chunk : jstring) (after : list jstring) (e : JsError) :
  mediaListOf p = first :: others →
  chunkText (default [] (text p)) WEB_TEXT_LIMIT = caption :: chunk :: after →
  (∀ n m, sendMediaOutcome net n m = None) →
  (∀ u, u ∈ first :: others →
        loadWebMedia net u maxMediaBytes = inr (media u)) →
  replyOutcome net (count isReplyEvent w) chunk = Some e →
  deliverWebReply net p maxMediaBytes w
  = (inl e,
     w ++ EvSendMedia
            (mediaMessageFor (media first) first (captionOf [caption])) true
       :: map (fun u => EvSendMedia (mediaMessageFor (media u) u None) true)
            others
       ++ [EvReply chunk false]).
Proof.
  intros Hmedia Hchunks Hsend Hload Hfail.
  unfold deliverWebReply. rewrite Hmedia, Hchunks.
  cbv iota. cbn [mediaLoop]. unfold bind.
  pose proof (sendOneMedia_ok net maxMediaBytes true first (media first)
                (caption :: chunk :: after) w Hsend) as Hone.
  cbv iota in Hone. rewrite shiftCaption_eq in Hone.
  rewrite Hone by (apply Hload; by left).
  rewrite (mediaLoop_rest_ok net maxMediaBytes media others
             (tail (caption :: chunk :: after)) Hsend).
  2:{ intros u Hu. apply Hload. by right. }
  cbn [tail forEach]. unfold bind, reply.
  assert (Hcount : count isReplyEvent
            ((w ++ [EvSendMedia
                      (mediaMessageFor (media first) first
                         (captionOf (caption :: chunk :: after))) true])
             ++ map (fun u => EvSendMedia (mediaMessageFor (media u) u None)
                                true) others)
          = count isReplyEvent w).
  { unfold count. rewrite !List.filter_app, !length_app. simpl.
    assert (Hnone : ∀ l : list jstring, List.filter isReplyEvent
              (map (fun u => EvSendMedia (mediaMessageFor (media u) u None)
                                true) l) = []).
    { intros l. induction l as [|u l IH]; [done|exact IH]. }
    rewrite Hnone. simpl. lia. }
  rewrite Hcount, Hfail. simpl. by rewrite <- !app_assoc.
Qed.

End Ordered.

Lemma sendWithRetry_fatal_or_transient_witness :
  sendWithRetry (Ext := Sample.sampleExternals)
    (reply Scenario.flakyNetwork (str "hello")) []
  = (inr tt, [EvReply (str "hello") false; EvSleep 500;
              EvReply (str "hello") true]).
Proof.
  apply (proj2 (sendWithRetry_fatal_or_transient
                  (Ext := Sample.sampleExternals) Scenario.flakyNetwork
                  (str "hello") [] Scenario.transientError eq_refl));
    reflexivity.
Defined.

Lemma text_reply_sent_in_order_witness :
  deliverWebReply (Ext := Sample.sampleExternals) Sample.goodNetwork
    (Sample.textPayload (str "hello")) 1000 []
  = (inr tt, [EvReply (str "hello") true]).
Proof.
  apply (text_reply_sent_in_order (Ext := Sample.sampleExternals)
           Sample.goodNetwork (Sample.textPayload (str "hello")) 1000 []).
  - reflexivity.
  - intros n body. reflexivity.
Defined.

Lemma text_reply_stops_at_failure_witness :
  (deliverWebReply (Ext := Sample.sampleExternals) Scenario.secondReplyFails
     (Sample.textPayload Sample.longText) 1000 []).1
  = inl Scenario.fatalError.
Proof.
  rewrite (text_reply_stops_at_failure (Ext := Sample.sampleExternals)
             Scenario.secondReplyFails (Sample.textPayload Sample.longText)
             1000 [] [repeat 97%N 4000] [[97%N]] (repeat 97%N 4000)
             Scenario.fatalError).
  - reflexivity.
  - reflexivity.
  - vm_compute. reflexivity.
  - intros k c Hk. destruct k as [|k]; [reflexivity|].
    destruct k; discriminate Hk.
  - reflexivity.
  - vm_compute. reflexivity.
Defined.

Lemma media_reply_caption_then_text_witness :
  deliverWebReply (Ext := Sample.sampleExternals) Sample.goodNetwork
    (Scenario.twoImages (str "look")) 1000 []
  = (inr tt,
     [EvSendMedia
        (mediaMessageFor Scenario.pngMedia (str "https://example.com/a.png")
           (Some (str "look"))) true;
      EvSendMedia
        (mediaMessageFor Scenario.pngMedia (str "https://example.com/b.png")
           None) true]).
Proof.
  apply (media_reply_caption_then_text (Ext := Sample.sampleExternals)
           Sample.goodNetwork (Scenario.twoImages (str "look")) 1000
           (fun _ => Scenario.pngMedia) (str "https://example.com/a.png")
           [str "https://example.com/b.png"] []).
  - reflexivity.
  - intros n m. reflexivity.
  - intros n body. reflexivity.
  - intros u Hu. reflexivity.
Defined.

Lemma remaining_text_not_retried_witness :
  (deliverWebReply (Ext := Sample.sampleExternals) Scenario.flakyNetwork
     (Sample.captionedMedia Sample.longText) 1000 []).1
  = inl Scenario.transientError.
Proof.
  rewrite (remaining_text_not_retried (Ext := Sample.sampleExternals)
             Scenario.flakyNetwork (Sample.captionedMedia Sample.longText)
             1000 (fun _ => Scenario.pngMedia)
             (str "https://example.com/img.png") [] []
             (repeat 97%N 4000) (repeat 97%N 4000) [[97%N]]
             Scenario.transientError).
  - reflexivity.
  - reflexivity.
  - vm_compute. reflexivity.
  - intros n m. reflexivity.
  - intros u Hu. reflexivity.
  - reflexivity.
Defined.

(** ** The supervisor loop *)

Section Supervisor.
Context `{Ext : Externals}.

Lemma oneListener_app (tr1 tr2 : list MonitorEvent) (active : bool) :
  oneListenerAtATime active (tr1 ++ tr2)
  = oneListenerAtATime active tr1
    && oneListenerAtATime (listenerOpenAfter active tr1) tr2.
Proof.
  revert active. induction tr1 as [|e tr1 IH]; intros active; [done|].
  destruct e; simpl; rewrite ?IH; try done.
  by rewrite andb_assoc.
Qed.

Lemma listenerOpenAfter_app (tr1 tr2 : list MonitorEvent) (active : bool) :
  listenerOpenAfter active (tr1 ++ tr2)
  = listenerOpenAfter (listenerOpenAfter active tr1) tr2.
Proof.
  revert active. induction tr1 as [|e tr1 IH]; intros active; [done|].
  destruct e; simpl; by rewrite ?IH.
Qed.

Ltac trace_step :=
  repeat (rewrite ?oneListener_app, ?listenerOpenAfter_app; simpl);
  repeat match goal with
         | H : oneListenerAtATime false ?tr = true |- _ => rewrite H
         | H : listenerOpenAfter false ?tr = false |- _ => rewrite H
         end; simpl.

Lemma afterWait_invariant (reconnectPolicy : ReconnectPolicy)
    (heartbeatSeconds : Z) (c : Connection)
    (reason : option (option DisconnectReason)) (a : Z)
    (st : WebProviderStatus) (tr : list MonitorEvent) :
  oneListenerAtATime false tr = true →
  running st = true →
  match afterWait reconnectPolicy heartbeatSeconds c reason a st tr with
  | Leave r => wellEnded r ∧ res_end r = Stopped
  | Again a' st' tr' => atLoopTop st' tr'
  end.
Proof.
  intros Hone Hrun. unfold afterWait, setStatus.
  destruct reason as [reason|]; simpl.
  2:{ unfold wellEnded, finish; simpl. trace_step.
      first [rewrite last_snoc|rewrite !app_assoc, last_snoc]; done. }
  destruct (conn_stopAfter c).
  { unfold wellEnded, finish; simpl. trace_step.
    first [rewrite last_snoc|rewrite !app_assoc, last_snoc]; done. }
  destruct (default false (reason ≫= reason_isLoggedOut)).
  { unfold wellEnded, finish; simpl. trace_step.
    first [rewrite last_snoc|rewrite !app_assoc, last_snoc]; done. }
  destruct (_ && _).
  { unfold wellEnded, finish; simpl. trace_step.
    first [rewrite last_snoc|rewrite !app_assoc, last_snoc]; done. }
  destruct (conn_sleepRejects c).
  { unfold wellEnded, finish; simpl. trace_step.
    first [rewrite last_snoc|rewrite !app_assoc, last_snoc]; done. }
  unfold atLoopTop. simpl. trace_step. done.
Qed.

Lemma loopTurn_invariant (reconnectPolicy : ReconnectPolicy)
    (heartbeatSeconds : Z) (keepAlive : bool) (c : Connection) (a : Z)
    (st : WebProviderStatus) (tr : list MonitorEvent) :
  atLoopTop st tr →
  match loopTurn reconnectPolicy heartbeatSeconds keepAlive c a st tr with
  | Leave r => wellEnded r
  | Again a' st' tr' => atLoopTop st' tr'
  end.
Proof.
  intros (Hone & Hclosed & Hrun).
  unfold loopTurn.
  destruct (conn_stopAtTop c).
  { unfold wellEnded, finish. simpl. trace_step.
    rewrite last_snoc. done. }
  unfold connect, setStatus.
  destruct keepAlive; simpl.
  2:{ unfold wellEnded, result. simpl. trace_step. done. }
  assert (Hwd : oneListenerAtATime true (watchdogEvents (conn_wait c)) = true).
  { unfold watchdogEvents. destruct (conn_wait c); try done.
    destruct (watchdogFires _ _); [|done]. by destruct hasSignalClose. }
  assert (Hone' : oneListenerAtATime false
            ((((tr ++ [MFactory])
               ++ [MStatus {| running := running st; connected := true;
                     status_reconnectAttempts := status_reconnectAttempts st;
                     lastDisconnect := lastDisconnect st |}])
              ++ watchdogEvents (conn_wait c))) = true).
  { trace_step. exact Hwd. }
  destruct (raceValue (conn_wait c)) as [| |r] eqn:Hrace.
  - unfold wellEnded, result. cbn [res_trace res_end res_status].
    rewrite Hone'. done.
  - match goal with
    | |- context [afterWait ?p ?h ?c ?r ?a ?s ?t] =>
        pose proof (afterWait_invariant p h c r a s t Hone' Hrun) as Hinv;
        destruct (afterWait p h c r a s t); [apply Hinv|exact Hinv]
    end.
  - match goal with
    | |- context [afterWait ?p ?h ?c ?r ?a ?s ?t] =>
        pose proof (afterWait_invariant p h c r a s t Hone' Hrun) as Hinv;
        destruct (afterWait p h c r a s t); [apply Hinv|exact Hinv]
    end.
Qed.

Lemma monitorLoop_invariant (reconnectPolicy : ReconnectPolicy)
    (heartbeatSeconds : Z) (keepAlive : bool) (script : list Connection) :
  ∀ (a : Z) (st : WebProviderStatus) (tr : list MonitorEvent),
    atLoopTop st tr →
    wellEnded (monitorLoop reconnectPolicy heartbeatSeconds keepAlive script
                 a st tr).
Proof.
  induction script as [|c script IH]; intros a st tr Htop; simpl.
  - pose proof (loopTurn_invariant reconnectPolicy heartbeatSeconds keepAlive
                  quietConnection a st tr Htop) as Hinv.
    destruct (loopTurn _ _ _ _ _ _ _) as [r|a' st' tr'] eqn:Hturn; [done|].
    exfalso. revert Hturn. unfold loopTurn, connect, setStatus. simpl.
    by destruct keepAlive.
  - pose proof (loopTurn_invariant reconnectPolicy heartbeatSeconds keepAlive
                  c a st tr Htop) as Hinv.
    destruct (loopTurn _ _ _ _ _ _ _) as [r|a' st' tr']; [done|].
    by apply IH.
Qed.

(** X8. However the connections behave, the monitor never creates a
    listener while the previous one is still open. When the loop is
    left, the last thing done is to publish a status with
    [running = false] and [connected = false], and the listener has
    been closed; with [keepAlive] off the function returns with the
    listener closed but the status still saying running and connected. *)
Theorem monitor_one_listener_at_a_time (reconnectPolicy : ReconnectPolicy)
    (heartbeatSeconds : Z) (keepAlive : bool) (script : list Connection) :
  let res := monitorWebProvider reconnectPolicy heartbeatSeconds keepAlive
               script in
  oneListenerAtATime false (res_trace res) = true
  ∧ match res_end res with
    | Stopped =>
        running (res_status res) = false ∧ connected (res_status res) = false
        ∧ listenerOpenAfter false (res_trace res) = false
        ∧ last (res_trace res) = Some (MStatus (res_status res))
    | ReturnedEarly =>
        running (res_status res) = true ∧ connected (res_status res) = true
        ∧ listenerOpenAfter false (res_trace res) = false
    | Waiting =>
        running (res_status res) = true ∧ connected (res_status res) = true
    end.
Proof.
  apply (monitorLoop_invariant reconnectPolicy heartbeatSeconds keepAlive
           script 0 initialStatus [MStatus initialStatus]).
  done.
Qed.

(** X9. A close that reports a logout ends the monitor at once, whatever the
    reconnect policy: one listener was created, the logout is reported,
    no backoff sleep is made, and the last status records the
    disconnect as a logout. *)
Theorem logged_out_stops_without_retry (reconnectPolicy : ReconnectPolicy)
    (heartbeatSeconds : Z) (c : Connection) (rest : list Connection)
    (r : DisconnectReason) :
  conn_stopAtTop c = false →
  conn_wait c = OnCloseResolved (Some r) →
  reason_isLoggedOut r = Some true →
  conn_stopAfter c = false →
  let res := monitorWebProvider reconnectPolicy heartbeatSeconds true
               (c :: rest) in
  res_end res = Stopped
  ∧ factoryCalls res = 1%nat
  ∧ List.filter isSleepEvent (res_trace res) = []
  ∧ List.filter isRuntimeError (res_trace res) = [MRuntimeError ErrLoggedOut]
  ∧ lastDisconnect (res_status res) = Some (reason_status r, true)
  ∧ running (res_status res) = false.
Proof.
  intros Htop Hwait Hout Hstop.
  unfold monitorWebProvider. cbn [monitorLoop].
  unfold loopTurn. rewrite Htop, Hwait. cbn [negb raceValue watchdogEvents].
  unfold afterWait. rewrite Hstop.
  cbn [mbind option_bind default]. rewrite Hout.
  unfold connect, setStatus, finish, factoryCalls. simpl.
  rewrite ?List.filter_app. simpl. done.
Qed.

(** X10. A stop request (the abort signal during the wait, or a stop seen
    right after it) ends the monitor without reporting any error and
    without sleeping; no disconnect is recorded. *)
Theorem stop_request_ends_quietly (reconnectPolicy : ReconnectPolicy)
    (heartbeatSeconds : Z) (c : Connection) (rest : list Connection) :
  conn_stopAtTop c = false →
  conn_wait c = AbortFired
  ∨ (conn_stopAfter c = true
     ∧ ∃ r, conn_wait c = OnCloseResolved r) →
  let res := monitorWebProvider reconnectPolicy heartbeatSeconds true
               (c :: rest) in
  res_end res = Stopped
  ∧ factoryCalls res = 1%nat
  ∧ List.filter isSleepEvent (res_trace res) = []
  ∧ List.filter isRuntimeError (res_trace res) = []
  ∧ lastDisconnect (res_status res) = None
  ∧ running (res_status res) = false.
Proof.
  intros Htop Hwait.
  unfold monitorWebProvider. cbn [monitorLoop].
  unfold loopTurn. rewrite Htop.
  destruct Hwait as [Hwait|(Hstop & r & Hwait)]; rewrite Hwait;
    cbn [negb raceValue watchdogEvents]; unfold afterWait;
    rewrite ?Hstop;
    unfold connect, setStatus, finish, factoryCalls; simpl;
    rewrite ?List.filter_app; simpl; done.
Qed.

Lemma closing_turn (reconnectPolicy : ReconnectPolicy)
    (heartbeatSeconds : Z) (c : Connection) (a : Z)
    (st : WebProviderStatus) (tr : list MonitorEvent) :
  closesAtOnce heartbeatSeconds c = true
  ∨ closesAfterHealthyStretch heartbeatSeconds c = true →
  let a' := (if conn_uptimeMs c >? heartbeatSeconds * 1000 then 0 else a) + 1 in
  (maxAttempts reconnectPolicy >? 0) && (a' >=? maxAttempts reconnectPolicy)
  = false →
  ∃ st' tr',
    loopTurn reconnectPolicy heartbeatSeconds true c a st tr
    = Again a' st'
        (tr ++ tr' ++ [MSleep (computeBackoff reconnectPolicy a')])
    ∧ List.filter isFactoryCall tr' = [MFactory]
    ∧ List.filter isSleepEvent tr' = [].
Proof.
  intros Hc a' Hcond.
  assert (Hparts : conn_stopAtTop c = false
                   ∧ (∃ r, conn_wait c = OnCloseResolved r
                           ∧ default false (r ≫= reason_isLoggedOut) = false)
                   ∧ conn_stopAfter c = false
                   ∧ conn_sleepRejects c = false).
  { destruct Hc as [Hc|Hc];
      [unfold closesAtOnce in Hc|unfold closesAfterHealthyStretch in Hc];
      apply andb_prop in Hc as [Hc Hsleep];
      apply andb_prop in Hc as [Hc Hstop];
      apply andb_prop in Hc as [Hc Hup];
      apply andb_prop in Hc as [Htop Hwait];
      apply negb_true_iff in Htop, Hstop, Hsleep;
      (destruct (conn_wait c) as [|r| | |] eqn:Hw; try done);
      apply negb_true_iff in Hwait; split_and!; eauto. }
  destruct Hparts as (Htop & (r & Hw & Hout) & Hstop & Hsleep).
  unfold loopTurn. rewrite Htop, Hw. cbn [negb raceValue watchdogEvents].
  unfold afterWait. rewrite Hstop, Hsleep, Hout. fold a'.
  unfold connect, setStatus. simpl. fold a'. rewrite Hcond.
  eexists _, [MFactory; _; _; _; _; _; _].
  split; [rewrite <- !app_assoc; simpl; reflexivity|done].
Qed.

Lemma quiet_end (reconnectPolicy : ReconnectPolicy) (heartbeatSeconds : Z)
    (a : Z) (st : WebProviderStatus) (tr : list MonitorEvent) :
  let res := monitorLoop reconnectPolicy heartbeatSeconds true [] a st tr in
  res_end res = Waiting
  ∧ res_reconnectAttempts res = a
  ∧ factoryCalls res = S (length (List.filter isFactoryCall tr))
  ∧ List.filter isSleepEvent (res_trace res) = List.filter isSleepEvent tr.
Proof.
  cbn [monitorLoop]. rewrite factoryCalls_eq.
  unfold loopTurn, connect, setStatus. simpl.
  rewrite !List.filter_app, !length_app, !app_nil_r. simpl.
  rewrite ?app_nil_r. split_and!; try done. lia.
Qed.

Lemma unlimited_run (reconnectPolicy : ReconnectPolicy)
    (heartbeatSeconds : Z) (script : list Connection) :
  maxAttempts reconnectPolicy ≤ 0 →
  Forall (fun c => closesAtOnce heartbeatSeconds c = true) script →
  ∀ (a : Z) (st : WebProviderStatus) (tr : list MonitorEvent),
    let res := monitorLoop reconnectPolicy heartbeatSeconds true script
                 a st tr in
    res_end res = Waiting
    ∧ res_reconnectAttempts res = a + Z.of_nat (length script)
    ∧ factoryCalls res
      = S (length (List.filter isFactoryCall tr) + length script)
    ∧ List.filter isSleepEvent (res_trace res)
      = List.filter isSleepEvent tr
        ++ map (fun k => MSleep (computeBackoff reconnectPolicy
                                   (a + 1 + Z.of_nat k)))
             (seq 0 (length script)).
Proof.
  intros Hmax Hall. induction Hall as [|c script Hc Hall IH]; intros a st tr.
  - cbv zeta. cbn [length seq map]. rewrite Z.add_0_r, Nat.add_0_r, app_nil_r.
    apply quiet_end.
  - assert (Hup : (conn_uptimeMs c >? heartbeatSeconds * 1000) = false).
    { unfold closesAtOnce in Hc. apply andb_prop in Hc as [Hc _].
      apply andb_prop in Hc as [Hc _]. apply andb_prop in Hc as [_ Hup].
      apply Z.leb_le in Hup. rewrite Z.gtb_ltb. apply Z.ltb_ge. lia. }
    destruct (closing_turn reconnectPolicy heartbeatSeconds c a st tr
                (or_introl Hc)) as (st' & tr' & Hturn & Hone & Hnone).
    { replace (maxAttempts reconnectPolicy >? 0) with false; [done|].
      symmetry. rewrite Z.gtb_ltb. apply Z.ltb_ge. lia. }
    rewrite Hup in Hturn. cbn [monitorLoop]. rewrite Hturn.
    destruct (IH (a + 1) st'
                (tr ++ tr' ++ [MSleep (computeBackoff reconnectPolicy (a + 1))]))
      as (H1 & H2 & H3 & H4).
    split_and!.
    + exact H1.
    + rewrite H2. simpl length. lia.
    + rewrite H3, !List.filter_app, !length_app, Hone. simpl. lia.
    + rewrite H4, !List.filter_app, Hnone. simpl.
      rewrite <- app_assoc. simpl. f_equal. f_equal.
      * f_equal. f_equal. lia.
      * rewrite <- seq_shift, map_map. apply map_ext. intros k.
        f_equal. f_equal. lia.
Qed.

(** X11. With [maxAttempts] zero (or negative) the monitor never gives up:
    after N immediate closes it has created N + 1 listeners and is
    connected again, having slept the backoff delays for attempts
    1, 2, ..., N in that order. *)
Theorem unlimited_reconnects (reconnectPolicy : ReconnectPolicy)
    (heartbeatSeconds : Z) (script : list Connection) :
  maxAttempts reconnectPolicy ≤ 0 →
  Forall (fun c => closesAtOnce heartbeatSeconds c = true) script →
  let res := monitorWebProvider reconnectPolicy heartbeatSeconds true script in
  res_end res = Waiting
  ∧ factoryCalls res = S (length script)
  ∧ res_reconnectAttempts res = Z.of_nat (length script)
  ∧ List.filter isSleepEvent (res_trace res)
    = map (fun k => MSleep (computeBackoff reconnectPolicy (Z.of_nat k)))
        (seq 1 (length script)).
Proof.
  intros Hmax Hall.
  destruct (unlimited_run reconnectPolicy heartbeatSeconds script Hmax Hall
              0 initialStatus [MStatus initialStatus])
    as (H1 & H2 & H3 & H4).
  unfold monitorWebProvider. split_and!; try done.
  rewrite H4. simpl. rewrite <- seq_shift, map_map. apply map_ext.
  intros k. f_equal. f_equal. lia.
Qed.

Lemma healthy_run (reconnectPolicy : ReconnectPolicy)
    (heartbeatSeconds : Z) (script : list Connection) :
  maxAttempts reconnectPolicy ≤ 0 ∨ 1 < maxAttempts reconnectPolicy →
  Forall (fun c => closesAfterHealthyStretch heartbeatSeconds c = true)
    script →
  ∀ (a : Z) (st : WebProviderStatus) (tr : list MonitorEvent),
    let res := monitorLoop reconnectPolicy heartbeatSeconds true script
                 a st tr in
    res_end res = Waiting
    ∧ res_reconnectAttempts res = (if script is [] then a else 1)
    ∧ factoryCalls res
      = S (length (List.filter isFactoryCall tr) + length script)
    ∧ List.filter isSleepEvent (res_trace res)
      = List.filter isSleepEvent tr
        ++ replicate (length script)
             (MSleep (computeBackoff reconnectPolicy 1)).
Proof.
  intros Hmax Hall. induction Hall as [|c script Hc Hall IH]; intros a st tr.
  - cbv zeta. cbn [length replicate]. rewrite Nat.add_0_r, app_nil_r.
    apply quiet_end.
  - assert (Hup : (conn_uptimeMs c >? heartbeatSeconds * 1000) = true).
    { unfold closesAfterHealthyStretch in Hc. apply andb_prop in Hc as [Hc _].
      apply andb_prop in Hc as [Hc _]. by apply andb_prop in Hc as [_ Hup]. }
    destruct (closing_turn reconnectPolicy heartbeatSeconds c a st tr
                (or_intror Hc)) as (st' & tr' & Hturn & Hone & Hnone).
    { rewrite Hup. destruct Hmax as [Hle|Hlt].
      - replace (maxAttempts reconnectPolicy >? 0) with false; [done|].
        symmetry. rewrite Z.gtb_ltb. apply Z.ltb_ge. lia.
      - rewrite andb_false_iff. right. rewrite Z.geb_leb. apply Z.leb_gt. lia. }
    rewrite Hup in Hturn. cbn [monitorLoop]. rewrite Hturn.
    change (0 + 1) with 1.
    destruct (IH 1 st'
                (tr ++ tr' ++ [MSleep (computeBackoff reconnectPolicy 1)]))
      as (H1 & H2 & H3 & H4).
    split_and!.
    + exact H1.
    + rewrite H2. by destruct script.
    + rewrite H3, !List.filter_app, !length_app, Hone. simpl. lia.
    + rewrite H4, !List.filter_app, Hnone. simpl.
      by rewrite <- app_assoc.
Qed.

(** X12. A healthy stretch resets the backoff. When every connection lasts
    longer than one heartbeat interval before it closes, the attempt
    counter never passes 1: the monitor reconnects after every close,
    however many there are and whatever [maxAttempts] is (unless it
    is 1), and always sleeps the delay of a first attempt. *)
Theorem healthy_stretch_resets_backoff (reconnectPolicy : ReconnectPolicy)
    (heartbeatSeconds : Z) (script : list Connection) :
  maxAttempts reconnectPolicy ≤ 0 ∨ 1 < maxAttempts reconnectPolicy →
  Forall (fun c => closesAfterHealthyStretch heartbeatSeconds c = true)
    script →
  let res := monitorWebProvider reconnectPolicy heartbeatSeconds true script in
  res_end res = Waiting
  ∧ factoryCalls res = S (length script)
  ∧ res_reconnectAttempts res ≤ 1
  ∧ List.filter isSleepEvent (res_trace res)
    = replicate (length script) (MSleep (computeBackoff reconnectPolicy 1)).
Proof.
  intros Hmax Hall.
  destruct (healthy_run reconnectPolicy heartbeatSeconds script Hmax Hall
              0 initialStatus [MStatus initialStatus])
    as (H1 & H2 & H3 & H4).
  unfold monitorWebProvider. split_and!; try done.
  rewrite H2. destruct script; lia.
Qed.

(** X13. The watchdog leaves a connection alone while the last message is at
    most 30 minutes old, and also when its time stamp is 0 or no message
    has arrived: the listener stays open and the monitor keeps waiting. *)
Theorem watchdog_within_timeout_waits (reconnectPolicy : ReconnectPolicy)
    (heartbeatSeconds : Z) (c : Connection) (rest : list Connection)
    (now : Z) (lastMessageAt : option Z) (hasSignalClose : bool) :
  conn_stopAtTop c = false →
  conn_wait c = WatchdogRun now lastMessageAt hasSignalClose →
  (∀ t, lastMessageAt = Some t → t = 0 ∨ now - t ≤ MESSAGE_TIMEOUT_MS) →
  let res := monitorWebProvider reconnectPolicy heartbeatSeconds true
               (c :: rest) in
  res_end res = Waiting
  ∧ factoryCalls res = 1%nat
  ∧ (MCloseListener ∉ res_trace res)
  ∧ listenerOpenAfter false (res_trace res) = true.
Proof.
  intros Htop Hwait Hrecent.
  assert (Hfires : watchdogFires now lastMessageAt = false).
  { unfold watchdogFires. destruct lastMessageAt as [t|]; [|done].
    destruct (Hrecent t eq_refl) as [->|Hle]; [done|].
    apply andb_false_iff. right. rewrite Z.gtb_ltb. apply Z.ltb_ge. lia. }
  unfold monitorWebProvider. cbn [monitorLoop].
  unfold loopTurn. rewrite Htop, Hwait. cbn [negb raceValue watchdogEvents].
  rewrite Hfires. unfold connect, setStatus, factoryCalls. simpl.
  split_and!; try done.
  intros Hin. repeat (apply elem_of_cons in Hin as [Hin|Hin]; [discriminate|]).
  inversion Hin.
Qed.

(** X14. With [keepAlive] off the monitor connects once, closes the
    listener and returns, whatever the connection would have met: it
    neither waits nor reconnects, and the closing of the listener is the
    last thing it does, so the last status published still says running
    and connected. *)
Theorem keepAlive_off_returns_after_connecting
    (reconnectPolicy : ReconnectPolicy) (heartbeatSeconds : Z)
    (c : Connection) (rest : list Connection) :
  conn_stopAtTop c = false →
  let res := monitorWebProvider reconnectPolicy heartbeatSeconds false
               (c :: rest) in
  res_end res = ReturnedEarly
  ∧ factoryCalls res = 1%nat
  ∧ List.filter isSleepEvent (res_trace res) = []
  ∧ List.filter isRuntimeError (res_trace res) = []
  ∧ last (res_trace res) = Some MCloseListener
  ∧ running (res_status res) = true
  ∧ connected (res_status res) = true.
Proof.
  intros Htop. unfold monitorWebProvider. cbn [monitorLoop].
  unfold loopTurn. rewrite Htop. done.
Qed.

End Supervisor.

Lemma logged_out_stops_without_retry_witness :
  factoryCalls (monitorWebProvider (Ext := Sample.sampleExternals)
                  (Sample.testPolicy 0) 60 true
                  [Scenario.loggedOutClose; Sample.closeAtOnce]) = 1%nat.
Proof.
  apply (logged_out_stops_without_retry (Ext := Sample.sampleExternals)
           (Sample.testPolicy 0) 60 Scenario.loggedOutClose
           [Sample.closeAtOnce] Scenario.loggedOutReason);
    reflexivity.
Defined.

Lemma stop_request_ends_quietly_witness :
  res_end (monitorWebProvider (Ext := Sample.sampleExternals)
             (Sample.testPolicy 3) 60 true [Scenario.abortedWait]) = Stopped.
Proof.
  apply (stop_request_ends_quietly (Ext := Sample.sampleExternals)
           (Sample.testPolicy 3) 60 Scenario.abortedWait []).
  - reflexivity.
  - left. reflexivity.
Defined.

Lemma unlimited_reconnects_witness :
  factoryCalls (monitorWebProvider (Ext := Sample.sampleExternals)
                  (Sample.testPolicy 0) 60 true
                  [Sample.closeAtOnce; Sample.closeAtOnce;
                   Sample.closeAtOnce]) = 4%nat.
Proof.
  apply (unlimited_reconnects (Ext := Sample.sampleExternals)
           (Sample.testPolicy 0) 60
           [Sample.closeAtOnce; Sample.closeAtOnce; Sample.closeAtOnce]).
  - simpl. lia.
  - repeat constructor.
Defined.

Lemma healthy_stretch_resets_backoff_witness :
  factoryCalls (monitorWebProvider (Ext := Sample.sampleExternals)
                  (Sample.testPolicy 2) 60 true
                  [Scenario.healthyClose; Scenario.healthyClose;
                   Scenario.healthyClose]) = 4%nat.
Proof.
  apply (healthy_stretch_resets_backoff (Ext := Sample.sampleExternals)
           (Sample.testPolicy 2) 60
           [Scenario.healthyClose; Scenario.healthyClose;
            Scenario.healthyClose]).
  - right. simpl. lia.
  - repeat constructor.
Defined.

Lemma watchdog_within_timeout_waits_witness :
  res_end (monitorWebProvider (Ext := Sample.sampleExternals)
             (Sample.testPolicy 3) 60 true [Scenario.recentMessage])
  = Waiting.
Proof.
  apply (watchdog_within_timeout_waits (Ext := Sample.sampleExternals)
           (Sample.testPolicy 3) 60 Scenario.recentMessage []
           (1000 + 29 * 60 * 1000) (Some 1000) true).
  - reflexivity.
  - reflexivity.
  - intros t [= <-]. right. unfold MESSAGE_TIMEOUT_MS. lia.
Defined.

Lemma keepAlive_off_returns_after_connecting_witness :
  res_end (monitorWebProvider (Ext := Sample.sampleExternals)
             (Sample.testPolicy 3) 60 false [Sample.closeAtOnce])
  = ReturnedEarly.
Proof.
  apply (keepAlive_off_returns_after_connecting
           (Ext := Sample.sampleExternals) (Sample.testPolicy 3) 60
           Sample.closeAtOnce []).
  reflexivity.
Defined.

(** ** Commands, direct messages and the context block *)

Section Commands.
Context `{Ext : Externals}.

(** X15. An owner's activation or status command in a group goes
    past the mention gate: it is processed whatever the activation mode
    and whether or not the bot is mentioned, and it is not pushed on the
    group history (the state handed to [processMessage] is the one
    [onMessage] received). *)
Theorem owner_command_bypasses_gate (net : Network) (cfg : Config)
    (store : SessionStore) (replyResolver : MsgContext -> ResolverRun)
    (msg : WebInboundMsg) (s : MonitorState) (w : list Event) :
  isGroup msg = true →
  msg_body msg ∉ recentlySent s →
  bypassesMention cfg msg = true →
  onMessage net cfg store replyResolver msg s w
  = Some (Processed,
          processMessage net cfg replyResolver
            (Some (isBotMentioned msg (cfg_mention cfg))) msg s w).
Proof.
  intros Hgroup Hfresh Hbypass.
  unfold onMessage, EchoSet.shouldSuppress.
  rewrite (proj2 (has_false _ _) Hfresh), Hgroup.
  unfold bypassesMention in Hbypass.
  apply andb_prop in Hbypass as [Howner Hcmd].
  rewrite Howner, Hcmd. cbn [negb andb]. rewrite andb_false_r.
  cbn [negb andb mbind option_bind]. done.
Qed.

Lemma resolveOwnerList_wildcard (cfg : Config) (selfE164 : option jstring)
    (l : list jstring) :
  allowFrom (cfg_mention cfg) = Some l →
  l ≠ [] →
  Forall (fun e => e = str "*") l →
  resolveOwnerList cfg selfE164 = [].
Proof.
  intros Hallow Hne Hall. unfold resolveOwnerList. rewrite Hallow.
  destruct l as [|e l]; [done|].
  assert (Hnone : List.filter
            (fun e => truthy e && negb (jstring_eqb e (str "*"))) (e :: l)
          = []).
  { clear Hallow Hne. induction Hall as [|x l' -> Hall IH]; [done|].
    cbn [List.filter]. unfold jstring_eqb at 1.
    rewrite bool_decide_eq_true_2 by done.
    rewrite andb_false_r. exact IH. }
  by rewrite Hnone.
Qed.

(** X16. When the allow-list holds nothing but the wildcard, the
    owner list is empty (the account's own number is not used as a
    fallback): no sender is an owner, nobody passes the mention gate by
    a command, and every activation command in a group is ignored,
    leaving state and log untouched. *)
Theorem wildcard_allowFrom_has_no_owner (net : Network) (cfg : Config)
    (store : SessionStore) (replyResolver : MsgContext -> ResolverRun)
    (msg : WebInboundMsg) (s : MonitorState) (w : list Event)
    (l : list jstring) :
  allowFrom (cfg_mention cfg) = Some l →
  l ≠ [] →
  Forall (fun e => e = str "*") l →
  isOwnerSender cfg msg = false
  ∧ bypassesMention cfg msg = false
  ∧ (isGroup msg = true →
     msg_body msg ∉ recentlySent s →
     parseActivationCommand_hasCommand
       (stripMentionsForCommand cfg (msg_body msg) (msg_selfE164 msg)) = true →
     onMessage net cfg store replyResolver msg s w
     = Some (IgnoredActivation, (inr tt, s, w))).
Proof.
  intros Hallow Hne Hall.
  assert (Howner : isOwnerSender cfg msg = false).
  { unfold isOwnerSender.
    rewrite (resolveOwnerList_wildcard cfg _ l Hallow Hne Hall).
    destruct (negb _); [done|]. apply bool_decide_eq_false. apply not_elem_of_nil. }
  split_and!.
  - exact Howner.
  - unfold bypassesMention. by rewrite Howner.
  - intros Hgroup Hfresh Hcmd.
    unfold onMessage, EchoSet.shouldSuppress.
    rewrite (proj2 (has_false _ _) Hfresh), Hgroup, Hcmd, Howner. done.
Qed.

Lemma foldAsync_settles {A S} (f : A -> S -> Async S) (l : list A) :
  (∀ x t, post (f x t) anyOutcome) →
  ∀ t, post (foldAsync f l t) anyOutcome.
Proof.
  intros Hf. induction l as [|x l IH]; intros t; simpl.
  - by apply post_ret.
  - eapply post_bind; [apply Hf| |]; intros; [apply IH|done].
Qed.

(** X17. A direct message that is not an echo is always handed to
    [processMessage], with [wasMentioned] undefined; the body given to
    the resolver is the line built from the message alone, and the
    group histories are the same afterwards, whatever was sent. *)
Theorem direct_message_always_processed (net : Network) (cfg : Config)
    (store : SessionStore) (replyResolver : MsgContext -> ResolverRun)
    (msg : WebInboundMsg) (s : MonitorState) (w : list Event) :
  isGroup msg = false →
  msg_body msg ∉ recentlySent s →
  ∃ r s' new,
    onMessage net cfg store replyResolver msg s w
    = Some (Processed, (r, s', w ++ new))
    ∧ groupHistories s' = groupHistories s
    ∧ (buildLine cfg msg ∉ recentlySent s →
       ∃ rest,
         new = EvResolver (contextOf msg (buildLine cfg msg) None) :: rest).
Proof.
  intros Hdirect Hfresh.
  destruct (turn_outcome net cfg replyResolver None msg s w)
    as (r & s' & new & Heq & Hfirst & _).
  destruct (processMessage_direct net cfg replyResolver None msg s w Hdirect)
    as [Hhist Hbody].
  exists r, s', new. split_and!.
  - unfold onMessage, EchoSet.shouldSuppress.
    rewrite (proj2 (has_false _ _) Hfresh), Hdirect. by rewrite Heq.
  - by rewrite Heq in Hhist.
  - intros Hnew. rewrite Hbody in Hfirst.
    by rewrite (proj2 (has_false _ _) Hnew) in Hfirst.
Qed.

Lemma combinedBodyOf_group (cfg : Config) (s : MonitorState)
    (msg : WebInboundMsg) :
  isGroup msg = true →
  combinedBodyOf cfg s msg = groupPrompt cfg msg (contextEntries s msg).
Proof.
  intros Hgroup. unfold combinedBodyOf, groupPrompt, contextEntries.
  by rewrite Hgroup.
Qed.

Lemma contextEntries_archived (cfg : Config) (s : MonitorState)
    (msg : WebInboundMsg) :
  1 ≤ groupHistoryLimit cfg →
  contextEntries (archived cfg msg s) msg
  = lastEntries (groupHistoryLimit cfg - 1)
      (default [] (groupHistories s !! conversationIdOf msg)).
Proof.
  intros Hlimit. unfold contextEntries, archived, lastEntries. cbn.
  rewrite lookup_insert_eq. cbn.
  set (old := default [] (groupHistories s !! conversationIdOf msg)).
  unfold withoutLast.
  rewrite length_drop, length_app. cbn [length].
  set (n := Z.to_nat (groupHistoryLimit cfg)).
  assert (Hn : Z.to_nat (groupHistoryLimit cfg - 1) = (n - 1)%nat) by lia.
  assert (Hpos : (1 ≤ n)%nat) by lia.
  rewrite Hn.
  destruct (decide (length old + 1 ≤ n)%nat) as [Hle|Hgt].
  - replace (length old + 1 - n)%nat with 0%nat by lia.
    replace (length old - (n - 1))%nat with 0%nat by lia.
    rewrite !drop_0. replace (length old + 1 - 0 - 1)%nat with (length old) by lia.
    by rewrite take_app_length.
  - rewrite drop_app_le by lia.
    replace (length old + 1 - (length old + 1 - n) - 1)%nat
      with (length (drop (length old + 1 - n) old)).
    + rewrite take_app_length. f_equal. lia.
    + rewrite length_drop. lia.
Qed.

Lemma onMessage_processed (net : Network) (cfg : Config)
    (store : SessionStore) (replyResolver : MsgContext -> ResolverRun)
    (msg : WebInboundMsg) (s : MonitorState) (w : list Event) :
  0 ≤ groupHistoryLimit cfg →
  msg_body msg ∉ recentlySent s →
  isGroup msg = true →
  ignoredActivation cfg msg = false →
  passesGate cfg store msg = true →
  onMessage net cfg store replyResolver msg s w
  = Some (Processed,
          processMessage net cfg replyResolver
            (Some (isBotMentioned msg (cfg_mention cfg))) msg
            (if bypassesMention cfg msg then s else archived cfg msg s) w).
Proof.
  intros Hcap Hecho Hgroup Hign Hpass.
  unfold onMessage. rewrite (shouldSuppress_miss _ _ Hecho), Hgroup.
  unfold ignoredActivation in Hign. rewrite Hign.
  unfold passesGate in Hpass. unfold bypassesMention in *.
  destruct (isOwnerSender cfg msg && _); simpl.
  - done.
  - rewrite pushHistory_spec by done. simpl. simpl in Hpass.
    destruct (resolveGroupActivationFor cfg store (conversationIdOf msg));
      simpl in *; [|done].
    by rewrite Hpass.
Qed.

(** X18. The prompt the resolver receives for a group message that
    gets past the gate. For a message that was stored (every one but an
    owner's command), with a history limit N >= 1 the context block
    holds the last N - 1 earlier messages, not N: the message being
    answered takes one of the N stored slots and is then left out of the
    block. An owner's command is not stored, and the block then leaves
    out the most recent earlier message instead. *)
Theorem context_holds_limit_minus_one (net : Network) (cfg : Config)
    (store : SessionStore) (replyResolver : MsgContext -> ResolverRun)
    (msg : WebInboundMsg) (s : MonitorState) (w : list Event) :
  isGroup msg = true →
  msg_body msg ∉ recentlySent s →
  ignoredActivation cfg msg = false →
  passesGate cfg store msg = true →
  1 ≤ groupHistoryLimit cfg →
  let earlier := default [] (groupHistories s !! conversationIdOf msg) in
  let shown :=
    if bypassesMention cfg msg then withoutLast earlier
    else lastEntries (groupHistoryLimit cfg - 1) earlier in
  let prompt := groupPrompt cfg msg shown in
  (bypassesMention cfg msg = false →
   Z.of_nat (length shown) ≤ groupHistoryLimit cfg - 1)
  ∧ ∃ r s' new,
      onMessage net cfg store replyResolver msg s w
      = Some (Processed, (r, s', w ++ new))
      ∧ (prompt ∉ recentlySent s →
         ∃ rest,
           new = EvResolver
                   (contextOf msg prompt
                      (Some (isBotMentioned msg (cfg_mention cfg))))
                 :: rest).
Proof.
  intros Hgroup Hecho Hign Hpass Hlimit earlier shown prompt.
  split.
  - intros Hstored. subst shown. rewrite Hstored.
    unfold lastEntries. rewrite length_drop. lia.
  - rewrite (onMessage_processed net cfg store replyResolver msg s w)
      by (done || lia).
    set (s1 := if bypassesMention cfg msg then s else archived cfg msg s).
    assert (Hsent : recentlySent s1 = recentlySent s)
      by (subst s1; by destruct (bypassesMention cfg msg)).
    assert (Hbody : combinedBodyOf cfg s1 msg = prompt).
    { rewrite (combinedBodyOf_group cfg s1 msg Hgroup).
      subst prompt shown s1. f_equal.
      destruct (bypassesMention cfg msg); [done|].
      by apply contextEntries_archived. }
    destruct (turn_outcome net cfg replyResolver
                (Some (isBotMentioned msg (cfg_mention cfg))) msg s1 w)
      as (r & s' & new & Heq & Hfirst & _).
    exists r, s', new. split; [by rewrite Heq|].
    intros Hnew. rewrite Hbody, Hsent in Hfirst.
    by rewrite (proj2 (has_false _ _) Hnew) in Hfirst.
Qed.

End Commands.

Lemma owner_command_bypasses_gate_witness :
  fst <$> onMessage (Ext := Sample.sampleExternals) Sample.goodNetwork
            Sample.ownerConfig ∅ Sample.okResolver
            (Sample.groupMsg (str "/status") (str "+111") (str "Alice") None)
            Sample.emptyState []
  = Some Processed.
Proof.
  rewrite (owner_command_bypasses_gate (Ext := Sample.sampleExternals)
             Sample.goodNetwork Sample.ownerConfig ∅ Sample.okResolver
             (Sample.groupMsg (str "/status") (str "+111") (str "Alice") None)
             Sample.emptyState []).
  - reflexivity.
  - reflexivity.
  - apply not_elem_of_nil.
  - vm_compute. reflexivity.
Defined.

Lemma wildcard_allowFrom_has_no_owner_witness :
  isOwnerSender (Ext := Sample.sampleExternals) Scenario.wildcardConfig
    (Sample.groupMsg (str "/activation always") (str "+999") (str "Me") None)
  = false.
Proof.
  apply (wildcard_allowFrom_has_no_owner (Ext := Sample.sampleExternals)
           Sample.goodNetwork Scenario.wildcardConfig ∅ Sample.okResolver
           (Sample.groupMsg (str "/activation always") (str "+999") (str "Me")
              None)
           Sample.emptyState [] [str "*"]).
  - reflexivity.
  - discriminate.
  - repeat constructor.
Defined.

Lemma direct_message_always_processed_witness :
  ∃ r s' new,
    onMessage (Ext := Sample.sampleExternals) Sample.goodNetwork
      Sample.plainConfig ∅ Sample.okResolver (Sample.directMsg (str "hello"))
      Sample.chattyState []
    = Some (Processed, (r, s', [] ++ new))
    ∧ groupHistories s' = groupHistories Sample.chattyState.
Proof.
  destruct (direct_message_always_processed (Ext := Sample.sampleExternals)
              Sample.goodNetwork Sample.plainConfig ∅ Sample.okResolver
              (Sample.directMsg (str "hello")) Sample.chattyState [])
    as (r & s' & new & Heq & Hhist & _).
  - reflexivity.
  - apply not_elem_of_nil.
  - exists r, s', new. split; [exact Heq|exact Hhist].
Defined.

Lemma context_holds_limit_minus_one_witness :
  let msg := Sample.groupMsg (str "hello group") (str "+111") (str "Alice")
               None in
  ∃ r s' new,
    onMessage (Ext := Sample.sampleExternals) Sample.goodNetwork
      Scenario.limitTwoAlways ∅ Sample.okResolver msg Sample.chattyState []
    = Some (Processed, (r, s', [] ++ new))
    ∧ ∃ rest,
        new = EvResolver
                (contextOf msg
                   (groupPrompt (H := Sample.sampleExternals)
                      Scenario.limitTwoAlways msg
                      [ {| h_sender := str "Bob"; h_body := str "second";
                           h_timestamp := None |} ])
                   (Some false))
              :: rest.
Proof.
  intros msg.
  destruct (context_holds_limit_minus_one (Ext := Sample.sampleExternals)
              Sample.goodNetwork Scenario.limitTwoAlways ∅ Sample.okResolver
              msg Sample.chattyState [])
    as (_ & r & s' & new & Heq & Hfirst).
  - reflexivity.
  - apply not_elem_of_nil.
  - reflexivity.
  - vm_compute. reflexivity.
  - vm_compute. discriminate.
  - exists r, s', new. split; [exact Heq|].
    apply Hfirst. apply not_elem_of_nil.
Defined.

(** ** The echo set *)

Section EchoBound.

Lemma add_NoDup (s : list jstring) (x : jstring) :
  NoDup s → NoDup (EchoSet.add s x).
Proof.
  intros Hs. unfold EchoSet.add.
  destruct (EchoSet.has s x) eqn:Hhas; [done|].
  apply has_false in Hhas. apply NoDup_app. split_and!; [done| |].
  - intros y Hy Hin. apply list_elem_of_singleton in Hin as ->. done.
  - apply NoDup_singleton.
Qed.

Lemma add_elem_of (s : list jstring) (x y : jstring) :
  y ∈ EchoSet.add s x ↔ y ∈ s ∨ y = x.
Proof.
  unfold EchoSet.add. destruct (EchoSet.has s x) eqn:Hhas.
  - apply has_true in Hhas. split; [by left|]. by intros [?| ->].
  - rewrite elem_of_app, list_elem_of_singleton. done.
Qed.

Lemma add_size (s : list jstring) (x : jstring) :
  EchoSet.size (EchoSet.add s x)
  = EchoSet.size s + (if EchoSet.has s x then 0 else 1).
Proof.
  unfold EchoSet.add, EchoSet.size.
  destruct (EchoSet.has s x); [lia|]. rewrite length_app. simpl. lia.
Qed.

Lemma delete_head (x : jstring) (s : list jstring) :
  NoDup (x :: s) → EchoSet.delete (x :: s) x = s.
Proof.
  intros Hnd. apply NoDup_cons in Hnd as [Hx _].
  unfold EchoSet.delete. rewrite filter_cons_False by (intros H; by apply H).
  induction s as [|y s IH]; [done|].
  apply not_elem_of_cons in Hx as [Hne Hx].
  rewrite filter_cons_True by done. f_equal. by apply IH.
Qed.

Lemma evictOldest_spec (s : list jstring) :
  NoDup s →
  EchoSet.evictOldest s
  = if (EchoSet.size s >? EchoSet.MAX_RECENT_MESSAGES)
       && truthy (default [] (head s))
    then tail s else s.
Proof.
  intros Hnd. unfold EchoSet.evictOldest.
  destruct s as [|x s].
  { by destruct (_ >? _). }
  destruct (EchoSet.size (x :: s) >? EchoSet.MAX_RECENT_MESSAGES); [|done].
  cbn [head default tail andb].
  change (id x) with x.
  destruct (truthy x); [|done]. by apply delete_head.
Qed.

(** X19. The bookkeeping after a streamed tool result keeps the echo
    set within its bound: on a set of at most 100 distinct non-empty
    texts it leaves at most 100, still distinct and non-empty, and the
    text just sent is among them. *)
Theorem recordToolSent_keeps_bound (s : list jstring) (text : option jstring) :
  NoDup s →
  Forall (fun x => truthy x = true) s →
  EchoSet.size s ≤ EchoSet.MAX_RECENT_MESSAGES →
  let s' := EchoSet.recordToolSent s text in
  NoDup s'
  ∧ Forall (fun x => truthy x = true) s'
  ∧ EchoSet.size s' ≤ EchoSet.MAX_RECENT_MESSAGES
  ∧ (truthy_opt text = true → default [] text ∈ s').
Proof.
  intros Hnd Htruthy Hsize. unfold EchoSet.recordToolSent.
  destruct (truthy_opt text) eqn:Htext; [|done].
  destruct text as [t|]; [|done]. cbn in Htext. cbv zeta.
  change (default [] (Some t)) with t.
  pose proof (add_NoDup s t Hnd) as Hnd'.
  assert (Hall : Forall (fun x => truthy x = true) (EchoSet.add s t)).
  { apply Forall_forall. intros y Hy. apply add_elem_of in Hy as [Hy| ->];
      [|done]. rewrite Forall_forall in Htruthy. by apply Htruthy. }
  pose proof (add_size s t) as Hadd.
  pose proof (add_elem_of s t t) as Hin.
  rewrite (evictOldest_spec _ Hnd').
  destruct (EchoSet.size (EchoSet.add s t) >? EchoSet.MAX_RECENT_MESSAGES)
    eqn:Hover; cbn [andb].
  - apply Z.gtb_lt in Hover.
    assert (Hfresh : EchoSet.has s t = false).
    { destruct (EchoSet.has s t); [lia|done]. }
    unfold EchoSet.add in *. rewrite Hfresh in *.
    destruct s as [|x s].
    { unfold EchoSet.size, EchoSet.MAX_RECENT_MESSAGES in *. simpl in *. lia. }
    cbn [app head default tail].
    apply Forall_cons in Htruthy as [Hx Hs]. change (id x) with x.
    rewrite Hx.
    cbn [app] in Hnd'. apply NoDup_cons in Hnd' as [_ Hnd'].
    split_and!.
    + done.
    + apply Forall_app. split; [done|]. by apply Forall_singleton.
    + unfold EchoSet.size in *. rewrite length_app in *. simpl in *. lia.
    + intros _. apply elem_of_app. right. by left.
  - split_and!; try done.
    + rewrite Z.gtb_ltb in Hover. apply Z.ltb_ge in Hover. lia.
    + intros _. apply Hin. by right.
Qed.

(** X20. The bookkeeping after a final reply does not: it adds two
    entries and evicts at most one, so on a set that has reached the
    bound, with a reply text and an inbound body both new, the set comes
    out one entry larger each time, and above the bound. *)
Theorem recordSent_outgrows_bound (s : list jstring) (text combinedBody : jstring) :
  NoDup s →
  truthy text = true →
  text ∉ s →
  combinedBody ∉ s →
  text ≠ combinedBody →
  EchoSet.MAX_RECENT_MESSAGES ≤ EchoSet.size s →
  let s' := EchoSet.recordSent s (Some text) combinedBody in
  EchoSet.size s + 1 ≤ EchoSet.size s'
  ∧ EchoSet.MAX_RECENT_MESSAGES < EchoSet.size s'
  ∧ text ∈ s' ∧ combinedBody ∈ s'.
Proof.
  intros Hnd Htext Ht Hb Hne Hsize. unfold EchoSet.recordSent.
  cbv zeta. change (truthy_opt (Some text)) with (truthy text).
  change (default [] (Some text)) with text. rewrite Htext.
  assert (Hadd1 : EchoSet.add s text = s ++ [text]).
  { unfold EchoSet.add. by rewrite (proj2 (has_false _ _) Ht). }
  assert (Hadd2 : EchoSet.add (s ++ [text]) combinedBody
                  = s ++ [text; combinedBody]).
  { unfold EchoSet.add. rewrite (proj2 (has_false _ _)).
    - by rewrite <- app_assoc.
    - intros Hin. apply elem_of_app in Hin as [Hin|Hin]; [done|].
      apply list_elem_of_singleton in Hin. done. }
  rewrite Hadd1, Hadd2.
  assert (Hnd' : NoDup (s ++ [text; combinedBody])).
  { apply NoDup_app. split_and!; [done| |].
    - intros y Hy Hin. apply elem_of_cons in Hin as [->|Hin]; [done|].
      apply list_elem_of_singleton in Hin as ->. done.
    - apply NoDup_cons. split; [|apply NoDup_singleton].
      intros Hin. apply list_elem_of_singleton in Hin. done. }
  rewrite (evictOldest_spec _ Hnd').
  destruct s as [|x s].
  { unfold EchoSet.size, EchoSet.MAX_RECENT_MESSAGES in Hsize. simpl in Hsize.
    lia. }
  unfold EchoSet.size, EchoSet.MAX_RECENT_MESSAGES in *.
  cbn [app head default tail].
  destruct (_ && _).
  - rewrite length_app. simpl in *. split_and!; try lia.
    + apply elem_of_app. right. by left.
    + apply elem_of_app. right. right. by left.
  - simpl. rewrite length_app. simpl in *. split_and!; try lia.
    + right. apply elem_of_app. right. by left.
    + right. apply elem_of_app. right. right. by left.
Qed.

End EchoBound.

Section EchoLoop.
Context `{Ext : Externals}.

Lemma reply_recorded (net : Network) (cfg : Config)
    (replyResolver : MsgContext -> ResolverRun) (wasMentioned : option bool)
    (msg : WebInboundMsg) (s : MonitorState) (w : list Event)
    (p : ReplyPayload) (t : jstring) :
  let body := combinedBodyOf cfg s msg in
  let ctx := contextOf msg body wasMentioned in
  answersWithText (replyResolver ctx) p t →
  cfg_responsePrefix cfg = None →
  (∀ n b, replyOutcome net n b = None) →
  body ∉ recentlySent s →
  processMessage net cfg replyResolver wasMentioned msg s w
  = (inr tt,
     {| recentlySent := EchoSet.recordSent (recentlySent s) (Some t) body;
        groupHistories :=
          if isGroup msg then <[conversationIdOf msg := []]> (groupHistories s)
          else groupHistories s |},
     w ++ EvResolver ctx :: repliesOk (chunkText t WEB_TEXT_LIMIT)).
Proof.
  intros body ctx (Htools & Hres & Htext & Htruthy & Hmedia & Htoken & Hsilent)
    Hprefix Hnet Hfresh.
  unfold processMessage. fold body. unfold EchoSet.shouldSuppress.
  rewrite (proj2 (has_false _ _) Hfresh). fold ctx.
  rewrite Htools, Hres. cbn [foldAsync replyListOf]. unfold ret at 1.
  cbn [List.filter]. rewrite Hsilent. cbn [negb foldAsync].
  unfold sendFinalReply, stripHeartbeat. rewrite Htext, Htoken.
  unfold applyResponsePrefix. rewrite Hprefix.
  unfold bind, tryCatch.
  rewrite (deliver_text_ok net p (cfg_maxMediaBytes cfg) _ Hmedia Hnet).
  rewrite Htext. cbn [default]. unfold ret. cbn.
  unfold clearHistoryIfSent. cbn. rewrite andb_true_r.
  by rewrite <- app_assoc.
Qed.

Lemma recordSent_below_capacity (s : list jstring) (t body : jstring) :
  truthy t = true →
  EchoSet.size s + 2 ≤ EchoSet.MAX_RECENT_MESSAGES →
  EchoSet.recordSent s (Some t) body
  = EchoSet.add (EchoSet.add s t) body.
Proof.
  intros Htruthy Hsize.
  unfold EchoSet.recordSent. cbn [truthy_opt]. rewrite Htruthy.
  change (default [] (Some t)) with t.
  unfold EchoSet.evictOldest.
  pose proof (add_size s t) as H1.
  pose proof (add_size (EchoSet.add s t) body) as H2.
  replace (_ >? _) with false; [done|].
  symmetry. rewrite Z.gtb_ltb. apply Z.ltb_ge.
  destruct (EchoSet.has _ t), (EchoSet.has _ body); lia.
Qed.

(** X21. The text of a delivered reply is remembered: below capacity
    nothing is evicted, the reply text and the inbound body are both in
    the set afterwards, and an inbound message whose body is that text
    is dropped by [onMessage] as an echo, without touching the log or
    the histories. *)
Theorem own_reply_echo_skipped (net : Network) (cfg : Config)
    (store : SessionStore) (replyResolver : MsgContext -> ResolverRun)
    (wasMentioned : option bool) (msg echo : WebInboundMsg)
    (s : MonitorState) (w w' : list Event) (p : ReplyPayload) (t : jstring) :
  let body := combinedBodyOf cfg s msg in
  answersWithText (replyResolver (contextOf msg body wasMentioned)) p t →
  cfg_responsePrefix cfg = None →
  (∀ n b, replyOutcome net n b = None) →
  body ∉ recentlySent s →
  EchoSet.size (recentlySent s) + 2 ≤ EchoSet.MAX_RECENT_MESSAGES →
  msg_body echo = t →
  let s' := (processMessage net cfg replyResolver wasMentioned msg s w).1.2 in
  t ∈ recentlySent s'
  ∧ body ∈ recentlySent s'
  ∧ (∀ x, x ∈ recentlySent s → x ∈ recentlySent s')
  ∧ onMessage net cfg store replyResolver echo s' w'
    = Some (SkippedEcho,
            (inr tt,
             {| recentlySent := EchoSet.delete (recentlySent s') t;
                groupHistories := groupHistories s' |}, w')).
Proof.
  intros body Hrun Hprefix Hnet Hfresh Hsize Hecho s'.
  subst s'.
  rewrite (reply_recorded net cfg replyResolver wasMentioned msg s w p t
             Hrun Hprefix Hnet Hfresh).
  fold body. cbn [fst snd recentlySent groupHistories].
  destruct Hrun as (_ & _ & _ & Htruthy & _).
  rewrite (recordSent_below_capacity _ t body Htruthy Hsize).
  assert (Ht : t ∈ EchoSet.add (EchoSet.add (recentlySent s) t) body).
  { apply add_elem_of. left. apply add_elem_of. by right. }
  split_and!.
  - exact Ht.
  - apply add_elem_of. by right.
  - intros x Hx. apply add_elem_of. left. apply add_elem_of. by left.
  - unfold onMessage, EchoSet.shouldSuppress.
    cbn [recentlySent groupHistories]. rewrite Hecho.
    by rewrite (proj2 (has_true _ _) Ht).
Qed.

(** X22. Because the inbound body is remembered as well, a direct
    message that is answered and then arrives again unchanged is dropped
    silently, once: the second copy passes [onMessage] but the resolver
    is not called and nothing is sent; the drop removes the entry, so a
    third copy is answered again. *)
Theorem duplicate_direct_message_dropped (net : Network) (cfg : Config)
    (store : SessionStore) (replyResolver : MsgContext -> ResolverRun)
    (msg : WebInboundMsg) (s : MonitorState) (w w' : list Event)
    (p : ReplyPayload) (t : jstring) :
  isGroup msg = false →
  answersWithText (replyResolver (contextOf msg (buildLine cfg msg) None)) p t →
  cfg_responsePrefix cfg = None →
  (∀ n b, replyOutcome net n b = None) →
  buildLine cfg msg ∉ recentlySent s →
  msg_body msg ∉ recentlySent s →
  msg_body msg ≠ t →
  msg_body msg ≠ buildLine cfg msg →
  EchoSet.size (recentlySent s) + 2 ≤ EchoSet.MAX_RECENT_MESSAGES →
  let ctx := contextOf msg (buildLine cfg msg) None in
  ∃ s1 s2,
    (* the first copy is answered *)
    onMessage net cfg store replyResolver msg s w
    = Some (Processed,
            (inr tt, s1,
             w ++ EvResolver ctx :: repliesOk (chunkText t WEB_TEXT_LIMIT)))
    (* the second is dropped: the resolver is not called *)
    ∧ onMessage net cfg store replyResolver msg s1 w'
      = Some (Processed, (inr tt, s2, w'))
    (* the third is answered again *)
    ∧ ∀ w'',
        onMessage net cfg store replyResolver msg s2 w''
        = Some (Processed,
                (inr tt,
                 {| recentlySent :=
                      EchoSet.recordSent (recentlySent s2) (Some t)
                        (buildLine cfg msg);
                    groupHistories := groupHistories s |},
                 w'' ++ EvResolver ctx
                     :: repliesOk (chunkText t WEB_TEXT_LIMIT))).
Proof.
  intros Hdirect Hrun Hprefix Hnet Hfresh Hbody Hne1 Hne2 Hsize ctx.
  assert (Hcombined : ∀ s0, combinedBodyOf cfg s0 msg = buildLine cfg msg).
  { intros s0. unfold combinedBodyOf. by rewrite Hdirect. }
  assert (Hfirst : ∀ s0 w0,
    buildLine cfg msg ∉ recentlySent s0 →
    processMessage net cfg replyResolver None msg s0 w0
    = (inr tt,
       {| recentlySent :=
            EchoSet.recordSent (recentlySent s0) (Some t) (buildLine cfg msg);
          groupHistories := groupHistories s0 |},
       w0 ++ EvResolver ctx :: repliesOk (chunkText t WEB_TEXT_LIMIT))).
  { intros s0 w0 Hs0.
    pose proof (reply_recorded net cfg replyResolver None msg s0 w0 p t) as Hrec.
    cbv zeta in Hrec. rewrite Hcombined, Hdirect in Hrec.
    by apply Hrec. }
  destruct Hrun as (_ & _ & _ & Htruthy & _).
  set (sent1 := EchoSet.add (EchoSet.add (recentlySent s) t)
                  (buildLine cfg msg)).
  assert (Hrec1 : EchoSet.recordSent (recentlySent s) (Some t)
                    (buildLine cfg msg) = sent1).
  { by apply recordSent_below_capacity. }
  assert (Hin1 : ∀ x, x ∈ sent1 ↔ x ∈ recentlySent s ∨ x = t
                                  ∨ x = buildLine cfg msg).
  { intros x. unfold sent1. rewrite !add_elem_of. tauto. }
  set (s1 := {| recentlySent := sent1; groupHistories := groupHistories s |}).
  set (sent2 := EchoSet.delete sent1 (buildLine cfg msg)).
  set (s2 := {| recentlySent := sent2; groupHistories := groupHistories s |}).
  assert (Hbody1 : msg_body msg ∉ sent1).
  { rewrite Hin1. intros [?|[?|?]]; done. }
  assert (Hbody2 : msg_body msg ∉ sent2).
  { unfold sent2. intros Hin. apply elem_of_delete in Hin as [Hin _]. done. }
  assert (Hgone : buildLine cfg msg ∉ sent2).
  { unfold sent2. intros Hin. apply elem_of_delete in Hin as [_ Hin]. done. }
  exists s1, s2. split_and!.
  - unfold onMessage, EchoSet.shouldSuppress.
    rewrite (proj2 (has_false _ _) Hbody), Hdirect.
    rewrite (Hfirst s w Hfresh), Hrec1. done.
  - unfold onMessage, EchoSet.shouldSuppress. cbn [recentlySent s1].
    rewrite (proj2 (has_false _ _) Hbody1), Hdirect.
    unfold processMessage, EchoSet.shouldSuppress. rewrite Hcombined.
    cbn [recentlySent s1].
    rewrite (proj2 (has_true _ _) (proj2 (Hin1 _) (or_intror (or_intror eq_refl)))).
    done.
  - intros w''. unfold onMessage, EchoSet.shouldSuppress. cbn [recentlySent s2].
    rewrite (proj2 (has_false _ _) Hbody2), Hdirect.
    by rewrite (Hfirst s2 w'' Hgone).
Qed.

End EchoLoop.

Lemma recordToolSent_keeps_bound_witness :
  EchoSet.size (EchoSet.recordToolSent [] (Some (str "working on it")))
  ≤ EchoSet.MAX_RECENT_MESSAGES.
Proof.
  apply (recordToolSent_keeps_bound [] (Some (str "working on it"))).
  - constructor.
  - constructor.
  - vm_compute. discriminate.
Defined.

Lemma recordSent_outgrows_bound_witness :
  EchoSet.MAX_RECENT_MESSAGES
  < EchoSet.size (EchoSet.recordSent Sample.hundredSent (Some (str "ok"))
                    (str "hello")).
Proof.
  apply (recordSent_outgrows_bound Sample.hundredSent (str "ok") (str "hello")).
  - apply (bool_decide_unpack _). vm_compute. exact I.
  - reflexivity.
  - apply (bool_decide_unpack _). vm_compute. exact I.
  - apply (bool_decide_unpack _). vm_compute. exact I.
  - discriminate.
  - vm_compute. discriminate.
Defined.

Lemma own_reply_echo_skipped_witness :
  fst <$> onMessage (Ext := Sample.sampleExternals) Sample.goodNetwork
            Sample.plainConfig ∅ Sample.okResolver
            (Sample.directMsg (str "ok"))
            (processMessage (Ext := Sample.sampleExternals)
               Sample.goodNetwork Sample.plainConfig Sample.okResolver None
               (Sample.directMsg (str "hello")) Sample.emptyState []).1.2 []
  = Some SkippedEcho.
Proof.
  destruct (own_reply_echo_skipped (Ext := Sample.sampleExternals)
              Sample.goodNetwork Sample.plainConfig ∅ Sample.okResolver None
              (Sample.directMsg (str "hello")) (Sample.directMsg (str "ok"))
              Sample.emptyState [] [] (Sample.textPayload (str "ok"))
              (str "ok"))
    as (_ & _ & _ & Hskip).
  - repeat split; reflexivity.
  - reflexivity.
  - intros n b. reflexivity.
  - apply not_elem_of_nil.
  - vm_compute. discriminate.
  - reflexivity.
  - rewrite Hskip. reflexivity.
Defined.

Lemma duplicate_direct_message_dropped_witness :
  ∃ s1 s2,
    onMessage (Ext := Sample.sampleExternals) Sample.goodNetwork
      Sample.plainConfig ∅ Sample.okResolver (Sample.directMsg (str "hello"))
      s1 []
    = Some (Processed, (inr tt, s2, [])).
Proof.
  destruct (duplicate_direct_message_dropped (Ext := Sample.sampleExternals)
              Sample.goodNetwork Sample.plainConfig ∅ Sample.okResolver
              (Sample.directMsg (str "hello")) Sample.emptyState [] []
              (Sample.textPayload (str "ok")) (str "ok"))
    as (s1 & s2 & _ & Hsecond & _).
  - reflexivity.
  - repeat split; reflexivity.
  - reflexivity.
  - intros n b. reflexivity.
  - apply not_elem_of_nil.
  - apply not_elem_of_nil.
  - discriminate.
  - vm_compute. discriminate.
  - vm_compute. discriminate.
  - exists s1, s2. exact Hsecond.
Defined.

(** ** The response prefix *)

Section Prefix.
Context `{Ext : Externals}.

(** X23. The response prefix is never put twice: applying it to a
    payload that already went through it changes nothing. The text
    comes out either unchanged or as prefix, space, text, and the media
    of the payload are not touched. *)
Theorem applyResponsePrefix_idempotent (responsePrefix : option jstring)
    (p : ReplyPayload) :
  applyResponsePrefix responsePrefix
    (applyResponsePrefix responsePrefix p)
  = applyResponsePrefix responsePrefix p
  ∧ (∀ pre t, responsePrefix = Some pre → text p = Some t →
       text (applyResponsePrefix responsePrefix p) = Some t
       ∨ text (applyResponsePrefix responsePrefix p)
         = Some (pre ++ str " " ++ t))
  ∧ mediaListOf (applyResponsePrefix responsePrefix p) = mediaListOf p.
Proof.
  unfold applyResponsePrefix.
  destruct responsePrefix as [pre|]; [|by destruct (text p)].
  destruct (text p) as [t|] eqn:Htext.
  2:{ rewrite Htext. split_and!; try done. }
  destruct (truthy pre && truthy t
            && negb (jstring_eqb (trim t) HEARTBEAT_TOKEN)
            && negb (startsWith t pre)) eqn:Hcond.
  - cbn [text withText].
    rewrite (startsWith_app pre (str " " ++ t)). cbn [negb].
    rewrite andb_false_r. split_and!; try done.
    intros pre' t' [= <-] [= <-]. by right.
  - rewrite Htext, Hcond. split_and!; try done.
    intros pre' t' [= <-] [= <-]. by left.
Qed.

End Prefix.

(** ** The heartbeat *)

Section HeartbeatPayload.

(** X24. From an array of payloads the heartbeat picks the last one
    that has a text or a media: everything after it is empty; when it
    picks none, every payload of the array is empty. *)
Theorem resolveHeartbeatReplyPayload_last_with_content
    (l : list ReplyPayload) :
  match resolveHeartbeatReplyPayload (ReplyMany l) with
  | Some p =>
      ∃ before after, l = before ++ p :: after
                      ∧ hasContent p = true
                      ∧ Forall (fun q => hasContent q = false) after
  | None => Forall (fun q => hasContent q = false) l
  end.
Proof.
  unfold resolveHeartbeatReplyPayload.
  induction l as [|q l IH] using rev_ind; [by constructor|].
  rewrite rev_app_distr. cbn [rev app lastWithContent].
  destruct (hasContent q) eqn:Hq.
  - exists l, []. split_and!; [done|done|constructor].
  - destruct (lastWithContent (rev l)) as [p|].
    + destruct IH as (before & after & -> & Hp & Hafter).
      exists before, (after ++ [q]). split_and!.
      * by rewrite <- app_assoc.
      * done.
      * apply Forall_app. split; [done|]. by apply Forall_singleton.
    + apply Forall_app. split; [done|]. by apply Forall_singleton.
Qed.

End HeartbeatPayload.

Section Heartbeat.
Context `{Ext : Externals} `{SExt : SessionExternals}.

(** X25. One heartbeat run calls the resolver at most once and the
    sender at most once, and only for the recipient it was given; a dry
    run never calls the sender; with an override body the resolver is
    not called. A run rejects in one of three ways. Before the [try]:
    the write of the session id is rejected, or the override body is
    blank; nothing has then been sent or reported, and in the first case
    the store is as it was. Inside the [try]: the last thing done is to
    report the failure with the text of the error that is thrown
    again. *)
Theorem heartbeat_sends_at_most_once (sc : SessionConfig)
    (opts : HeartbeatOpts) (now : Z)
    (replyResolver : option jstring -> gmap jstring SessionEntry ->
                     (JsError + ReplyResult) * gmap jstring SessionEntry)
    (sender : jstring -> jstring -> option JsError)
    (saveOutcome : nat -> option JsError)
    (store : gmap jstring SessionEntry) :
  let run := runWebHeartbeatOnce sc opts now replyResolver sender saveOutcome
               store in
  let log := run.2 in
  (length (List.filter isHSend log) ≤ 1)%nat
  ∧ (length (List.filter isHResolve log) ≤ 1)%nat
  ∧ (opt_dryRun opts = true → List.filter isHSend log = [])
  ∧ (truthy (default [] (opt_overrideBody opts)) = true →
     List.filter isHResolve log = [])
  ∧ (∀ to body ok, HSend to body ok ∈ log → to = opt_to opts)
  ∧ (∀ err, run.1.1 = inl err →
       (truthy_opt (opt_sessionId opts) = true
        ∧ saveOutcome 0%nat = Some err ∧ log = [] ∧ run.1.2 = store)
       ∨ (err = overrideError ∧ log = [])
       ∨ last log = Some (HEmit (HbFailed (formatError err))))
  ∧ (truthy_opt (opt_sessionId opts) = true →
     ∀ err, saveOutcome 0%nat = Some err → run = (inl err, store, [])).
Proof.
  unfold runWebHeartbeatOnce.
  assert (Hnil : ∀ to body ok,
            HSend to body ok ∈ @nil HeartbeatEvent → to = opt_to opts).
  { intros ??? Hin. by apply not_elem_of_nil in Hin. }
  destruct (truthy_opt (opt_sessionId opts)) eqn:Hsid.
  - destruct (saveOutcome 0%nat) as [err0|] eqn:Hsave0.
    { cbn. split_and!; try done; try lia.
      - intros err [= <-]. left. done.
      - intros _ err [= <-]. done. }
    cbv iota.
    set (store0 := <[_ := _]> store).
    destruct (truthy (default [] (opt_overrideBody opts))) eqn:Hover;
      cbn [andb].
    + destruct (_ =? 0).
      { cbn. split_and!; try done; try lia.
        intros err [= <-]. right. by left. }
      destruct (opt_dryRun opts) eqn:Hdry.
      { cbn. split_and!; try done; try lia. }
      destruct (sender _ _) as [err|]; cbn.
      * split_and!; try done; try lia.
        -- intros ??? Hin. apply list_elem_of_In in Hin. cbn in Hin.
           destruct Hin as [[=]|[[=]|[]]]. done.
        -- intros err' [= <-]. right. by right.
      * split_and!; try done; try lia.
        intros ??? Hin. apply list_elem_of_In in Hin. cbn in Hin.
        destruct Hin as [[=]|[[=]|[]]]. done.
    + destruct (replyResolver _ _) as [[err|res] store1].
      { cbn. split_and!; try done; try lia.
        - intros ??? Hin. apply list_elem_of_In in Hin. cbn in Hin.
          destruct Hin as [[=]|[[=]|[]]].
        - intros err' [= <-]. right. by right. }
      destruct (resolveHeartbeatReplyPayload res) as [p|].
      2:{ cbn. split_and!; try done; try lia.
          intros ??? Hin. apply list_elem_of_In in Hin. cbn in Hin.
          destruct Hin as [[=]|[[=]|[]]]. }
      destruct (negb (hasContent p)).
      { cbn. split_and!; try done; try lia.
        intros ??? Hin. apply list_elem_of_In in Hin. cbn in Hin.
        destruct Hin as [[=]|[[=]|[]]]. }
      destruct (shouldSkip _ && negb (hasMedia p)).
      { destruct (snap_entry _) as [before|];
          [destruct (store1 !! _) as [current|]|];
          [destruct (saveOutcome 1%nat) as [err1|]|..]; cbn;
          (split_and!; try done; try lia;
           [intros ??? Hin; apply list_elem_of_In in Hin; cbn in Hin;
            destruct Hin as [[=]|[[=]|[]]]|..]).
        intros err' [= <-]. right. by right. }
      destruct (opt_dryRun opts) eqn:Hdry.
      { cbn. split_and!; try done; try lia.
        intros ??? Hin. apply list_elem_of_In in Hin. cbn in Hin.
        destruct Hin as [[=]|[]]. }
      destruct (sender _ _) as [err|]; cbn.
      * split_and!; try done; try lia.
        -- intros ??? Hin. apply list_elem_of_In in Hin. cbn in Hin.
           destruct Hin as [[=]|[[=]|[[=]|[]]]]. done.
        -- intros err' [= <-]. right. by right.
      * split_and!; try done; try lia.
        intros ??? Hin. apply list_elem_of_In in Hin. cbn in Hin.
        destruct Hin as [[=]|[[=]|[[=]|[]]]]. done.
  - cbv iota.
    destruct (truthy (default [] (opt_overrideBody opts))) eqn:Hover;
      cbn [andb].
    + destruct (_ =? 0).
      { cbn. split_and!; try done; try lia.
        intros err [= <-]. right. by left. }
      destruct (opt_dryRun opts) eqn:Hdry.
      { cbn. split_and!; try done; try lia. }
      destruct (sender _ _) as [err|]; cbn.
      * split_and!; try done; try lia.
        -- intros ??? Hin. apply list_elem_of_In in Hin. cbn in Hin.
           destruct Hin as [[=]|[[=]|[]]]. done.
        -- intros err' [= <-]. right. by right.
      * split_and!; try done; try lia.
        intros ??? Hin. apply list_elem_of_In in Hin. cbn in Hin.
        destruct Hin as [[=]|[[=]|[]]]. done.
    + destruct (replyResolver _ _) as [[err|res] store1].
      { cbn. split_and!; try done; try lia.
        - intros ??? Hin. apply list_elem_of_In in Hin. cbn in Hin.
          destruct Hin as [[=]|[[=]|[]]].
        - intros err' [= <-]. right. by right. }
      destruct (resolveHeartbeatReplyPayload res) as [p|].
      2:{ cbn. split_and!; try done; try lia.
          intros ??? Hin. apply list_elem_of_In in Hin. cbn in Hin.
          destruct Hin as [[=]|[[=]|[]]]. }
      destruct (negb (hasContent p)).
      { cbn. split_and!; try done; try lia.
        intros ??? Hin. apply list_elem_of_In in Hin. cbn in Hin.
        destruct Hin as [[=]|[[=]|[]]]. }
      destruct (shouldSkip _ && negb (hasMedia p)).
      { destruct (snap_entry _) as [before|];
          [destruct (store1 !! _) as [current|]|];
          [destruct (saveOutcome 0%nat) as [err1|]|..]; cbn;
          (split_and!; try done; try lia;
           [intros ??? Hin; apply list_elem_of_In in Hin; cbn in Hin;
            destruct Hin as [[=]|[[=]|[]]]|..]).
        intros err' [= <-]. right. by right. }
      destruct (opt_dryRun opts) eqn:Hdry.
      { cbn. split_and!; try done; try lia.
        intros ??? Hin. apply list_elem_of_In in Hin. cbn in Hin.
        destruct Hin as [[=]|[]]. }
      destruct (sender _ _) as [err|]; cbn.
      * split_and!; try done; try lia.
        -- intros ??? Hin. apply list_elem_of_In in Hin. cbn in Hin.
           destruct Hin as [[=]|[[=]|[[=]|[]]]]. done.
        -- intros err' [= <-]. right. by right.
      * split_and!; try done; try lia.
        intros ??? Hin. apply list_elem_of_In in Hin. cbn in Hin.
        destruct Hin as [[=]|[[=]|[[=]|[]]]]. done.
Qed.

End Heartbeat.

Section HeartbeatSession.
Context `{Ext : Externals} `{SExt : SessionExternals}.

(** X26. A heartbeat must not keep a session alive. When no session
    id is passed and the resolver answers with nothing but the heartbeat
    token, nothing is sent, and if the store can be saved the entry's
    [updatedAt] is put back to what it was before the run, whatever the
    resolver wrote there, the other entries staying as the resolver left
    them. If that save is rejected the run reports the failure and
    rejects, and the store stays as the resolver left it. *)
Theorem heartbeat_token_reply_keeps_session_idle (sc : SessionConfig)
    (opts : HeartbeatOpts) (now : Z)
    (replyResolver : option jstring -> gmap jstring SessionEntry ->
                     (JsError + ReplyResult) * gmap jstring SessionEntry)
    (sender : jstring -> jstring -> option JsError)
    (saveOutcome : nat -> option JsError)
    (store store1 : gmap jstring SessionEntry) (res : ReplyResult)
    (before current : SessionEntry) :
  let key := snapshotKey sc (opt_to opts) in
  truthy (default [] (opt_overrideBody opts)) = false →
  truthy_opt (opt_sessionId opts) = false →
  store !! key = Some before →
  replyResolver (orElse (opt_sessionId opts) (se_sessionId before)) store
  = (inr res, store1) →
  store1 !! key = Some current →
  tokenOnlyReply res →
  let run := runWebHeartbeatOnce sc opts now replyResolver sender saveOutcome
               store in
  (saveOutcome 0%nat = None →
   run.1.1 = inr tt
   ∧ List.filter isHSend run.2 = []
   ∧ (run.1.2 !! key ≫= se_updatedAt) = se_updatedAt before
   ∧ (∀ k, k ≠ key → run.1.2 !! k = store1 !! k))
  ∧ (∀ err, saveOutcome 0%nat = Some err →
       run.1.1 = inl err
       ∧ List.filter isHSend run.2 = []
       ∧ run.1.2 = store1
       ∧ last run.2 = Some (HEmit (HbFailed (formatError err)))).
Proof.
  intros key Hover Hsid Hbefore Hres Hcurrent (p & Hp & Hcontent & Hmedia & Hskip).
  unfold runWebHeartbeatOnce. rewrite Hsid, Hover. cbn [andb]. cbv iota.
  unfold getSessionSnapshot. cbn [snap_entry snap_key].
  fold (snapshotKey sc (opt_to opts)).
  fold key. rewrite Hbefore. cbn [mbind option_bind].
  rewrite Hres, Hp, Hcontent, Hskip, Hmedia, Hcurrent. cbn [negb andb].
  split.
  - intros ->. cbn. split_and!; try done.
    + by rewrite lookup_insert_eq.
    + intros k Hk. by rewrite lookup_insert_ne.
  - intros err ->. cbn. done.
Qed.

(** X27. With a session id the same run does mark the session as
    just used: the entry is rewritten with [updatedAt = now] before the
    snapshot is taken, so the value that is put back after a token-only
    reply is [now], not the time of the last real use. This is when
    both saves resolve; if the first is rejected the run rejects at once
    with the store untouched, and if the second is, it rejects without
    sending. *)
Theorem heartbeat_with_session_id_touches_session (sc : SessionConfig)
    (opts : HeartbeatOpts) (now : Z)
    (replyResolver : option jstring -> gmap jstring SessionEntry ->
                     (JsError + ReplyResult) * gmap jstring SessionEntry)
    (sender : jstring -> jstring -> option JsError)
    (saveOutcome : nat -> option JsError)
    (store : gmap jstring SessionEntry) (res : ReplyResult) (sid : jstring) :
  let key := snapshotKey sc (opt_to opts) in
  truthy (default [] (opt_overrideBody opts)) = false →
  opt_sessionId opts = Some sid →
  truthy sid = true →
  heartbeatSessionKey sc (opt_to opts) = key →
  (∀ store0, store0 !! key ≫= se_updatedAt = Some now →
     ∃ store1 current,
       replyResolver (Some sid) store0 = (inr res, store1)
       ∧ store1 !! key = Some current) →
  tokenOnlyReply res →
  let run := runWebHeartbeatOnce sc opts now replyResolver sender saveOutcome
               store in
  (saveOutcome 0%nat = None → saveOutcome 1%nat = None →
   run.1.1 = inr tt
   ∧ List.filter isHSend run.2 = []
   ∧ (run.1.2 !! key ≫= se_updatedAt) = Some now)
  ∧ (∀ err, saveOutcome 0%nat = Some err → run = (inl err, store, []))
  ∧ (saveOutcome 0%nat = None → ∀ err, saveOutcome 1%nat = Some err →
     run.1.1 = inl err ∧ List.filter isHSend run.2 = []).
Proof.
  intros key Hover Hsid Htruthy Hkey Hres (p & Hp & Hcontent & Hmedia & Hskip).
  unfold runWebHeartbeatOnce. rewrite Hsid. cbn [truthy_opt].
  rewrite Htruthy.
  destruct (saveOutcome 0%nat) as [err0|] eqn:Hsave0.
  { split_and!; try done. by intros err [= <-]. }
  cbv iota. rewrite Hover. cbn [andb].
  fold (heartbeatSessionKey sc (opt_to opts)). rewrite Hkey.
  unfold getSessionSnapshot. cbn [snap_entry snap_key].
  fold (snapshotKey sc (opt_to opts)). fold key.
  rewrite lookup_insert_eq. cbn [mbind option_bind orElse].
  match goal with
  | |- context [replyResolver (Some sid) ?s0] =>
      destruct (Hres s0) as (store1' & current' & Hrun & Hcur);
        [by rewrite lookup_insert_eq|]
  end.
  rewrite Hrun, Hp, Hcontent, Hskip, Hmedia, Hcur. cbn [negb andb].
  split_and!.
  - intros _ ->. cbn. split_and!; try done. by rewrite lookup_insert_eq.
  - done.
  - intros _ err ->. cbn. done.
Qed.

(** X28. An override body of white space only is rejected before
    anything is sent or reported: the resolver and the sender are not
    called and no heartbeat event is emitted. The session id, however,
    is written before the body is looked at: without one the store is
    unchanged; with one, its entry carries [updatedAt = now] when the
    run rejects the body, unless the write itself was rejected, in which
    case the run rejects with the error of the write and the store is
    unchanged. *)
Theorem blank_override_rejected_before_sending (sc : SessionConfig)
    (opts : HeartbeatOpts) (now : Z)
    (replyResolver : option jstring -> gmap jstring SessionEntry ->
                     (JsError + ReplyResult) * gmap jstring SessionEntry)
    (sender : jstring -> jstring -> option JsError)
    (saveOutcome : nat -> option JsError)
    (store : gmap jstring SessionEntry) (body : jstring) :
  opt_overrideBody opts = Some body →
  truthy body = true →
  trim body = [] →
  let run := runWebHeartbeatOnce sc opts now replyResolver sender saveOutcome
               store in
  run.2 = []
  ∧ (truthy_opt (opt_sessionId opts) = false →
     run.1.1 = inl overrideError ∧ run.1.2 = store)
  ∧ (truthy_opt (opt_sessionId opts) = true → saveOutcome 0%nat = None →
     run.1.1 = inl overrideError
     ∧ run.1.2 !! heartbeatSessionKey sc (opt_to opts) ≫= se_updatedAt
       = Some now)
  ∧ (truthy_opt (opt_sessionId opts) = true →
     ∀ err, saveOutcome 0%nat = Some err →
       run.1.1 = inl err ∧ run.1.2 = store).
Proof.
  intros Hbody Htruthy Hblank.
  unfold runWebHeartbeatOnce. rewrite Hbody.
  change (default [] (Some body)) with body.
  rewrite Htruthy, Hblank. cbn [length andb].
  change (Z.of_nat 0 =? 0) with true.
  fold (heartbeatSessionKey sc (opt_to opts)).
  destruct (truthy_opt (opt_sessionId opts)).
  - destruct (saveOutcome 0%nat) as [err0|]; cbn [fst snd].
    + split_and!; try done. by intros _ err [= <-].
    + split_and!; try done. intros _ _. split; [done|].
      by rewrite lookup_insert_eq.
  - cbn [fst snd]. split_and!; done.
Qed.

End HeartbeatSession.

Section Recipients.
Context `{Ext : Externals}.

Lemma insertByRecency_elem (r x : Recipient) (l : list Recipient) :
  x ∈ insertByRecency r l ↔ x = r ∨ x ∈ l.
Proof.
  induction l as [|y l IH]; simpl.
  - rewrite list_elem_of_singleton. split; [by left|]. intros [?|H]; [done|].
    by apply not_elem_of_nil in H.
  - destruct (_ <? _).
    + rewrite !elem_of_cons, IH. tauto.
    + rewrite !elem_of_cons. tauto.
Qed.

Lemma sortByRecency_elem (x : Recipient) (l : list Recipient) :
  x ∈ sortByRecency l ↔ x ∈ l.
Proof.
  induction l as [|r l IH]; simpl; [done|].
  rewrite insertByRecency_elem, elem_of_cons, IH. done.
Qed.

Lemma insertByRecency_sorted (r : Recipient) (l : list Recipient) :
  byRecency l → byRecency (insertByRecency r l).
Proof.
  unfold byRecency. intros Hl. induction Hl as [|y l Hl IH Hy]; simpl.
  - repeat constructor.
  - destruct (r_updatedAt r <? r_updatedAt y) eqn:Hlt.
    + apply Z.ltb_lt in Hlt. constructor; [done|].
      apply Forall_forall. intros x Hx.
      apply insertByRecency_elem in Hx as [->|Hx]; [lia|].
      rewrite Forall_forall in Hy. by apply Hy.
    + apply Z.ltb_ge in Hlt. constructor; [by constructor|].
      constructor; [done|].
      eapply Forall_impl; [exact Hy|]. intros x Hx. simpl in Hx. lia.
Qed.

Lemma sortByRecency_sorted (l : list Recipient) : byRecency (sortByRecency l).
Proof.
  induction l as [|r l IH]; simpl; [constructor|].
  by apply insertByRecency_sorted.
Qed.

Lemma dedupe_elem (x : Recipient) (l : list Recipient) :
  ∀ seen, x ∈ dedupe seen l → x ∈ l ∧ r_to x ∉ seen.
Proof.
  induction l as [|r l IH]; intros seen Hx; simpl in Hx.
  - by apply not_elem_of_nil in Hx.
  - destruct (bool_decide (r_to r ∈ seen)) eqn:Hseen.
    + apply IH in Hx as [Hx Hns]. split; [by right|done].
    + apply bool_decide_eq_false in Hseen.
      apply elem_of_cons in Hx as [->|Hx]; [split; [by left|done]|].
      apply IH in Hx as [Hx Hns]. split; [by right|].
      intros Hin. apply Hns. by right.
Qed.

Lemma dedupe_NoDup (l : list Recipient) :
  ∀ seen, NoDup (map r_to (dedupe seen l)).
Proof.
  induction l as [|r l IH]; intros seen; simpl; [constructor|].
  destruct (bool_decide (r_to r ∈ seen)); [apply IH|].
  simpl. apply NoDup_cons. split; [|apply IH].
  intros Hin. apply list_elem_of_fmap in Hin as (x & Hto & Hx).
  apply dedupe_elem in Hx as [_ Hns]. apply Hns. rewrite <- Hto. by left.
Qed.

Lemma dedupe_sorted (l : list Recipient) :
  byRecency l → ∀ seen, byRecency (dedupe seen l).
Proof.
  unfold byRecency. intros Hl.
  induction Hl as [|r l Hl IH Hr]; intros seen; simpl; [constructor|].
  destruct (bool_decide (r_to r ∈ seen)); [apply IH|].
  constructor; [apply IH|].
  apply Forall_forall. intros x Hx.
  apply dedupe_elem in Hx as [Hx _].
  rewrite Forall_forall in Hr. by apply Hr.
Qed.

(** The first of the elements with a given number survives: every
    element of the list whose number is not in [seen] has a
    representative in the result that comes no later in the list. *)
Lemma dedupe_complete (l : list Recipient) :
  byRecency l →
  ∀ seen x, x ∈ l → r_to x ∉ seen →
    ∃ y, y ∈ dedupe seen l ∧ r_to y = r_to x
         ∧ r_updatedAt x ≤ r_updatedAt y.
Proof.
  unfold byRecency. intros Hl.
  induction Hl as [|r l Hl IH Hr]; intros seen x Hx Hns; simpl.
  - by apply not_elem_of_nil in Hx.
  - apply elem_of_cons in Hx as [->|Hx].
    + rewrite bool_decide_eq_false_2 by done.
      exists r. split_and!; [by left|done|lia].
    + destruct (bool_decide (r_to r ∈ seen)) eqn:Hseen.
      * by apply IH.
      * destruct (decide (r_to x = r_to r)) as [Heq|Hne].
        -- exists r. split_and!; [by left|done|].
           rewrite Forall_forall in Hr. by apply Hr.
        -- destruct (IH (r_to r :: seen) x Hx) as (y & Hy & Hto & Hle).
           { intros Hin. apply elem_of_cons in Hin as [?|?]; done. }
           exists y. split_and!; [by right|done|done].
Qed.

Lemma candidates_elem (entries : list (jstring * SessionEntry))
    (x : Recipient) :
  x ∈ candidates entries
  ↔ (1 < length (r_to x))%nat
    ∧ ∃ key entry, (key, entry) ∈ entries ∧ isPersonKey key = true
                   ∧ x = recipientOf entry.
Proof.
  unfold candidates, isPersonKey.
  rewrite list_elem_of_In, filter_In, <- list_elem_of_In, list_elem_of_fmap.
  rewrite Nat.ltb_lt. split.
  - intros [(ke & -> & Hke) Hlen]. split; [done|].
    apply list_elem_of_In, filter_In in Hke as [Hke Hgroup].
    apply filter_In in Hke as [Hke Hglobal].
    apply list_elem_of_In in Hke. destruct ke as [key entry].
    exists key, entry. split_and!; [done| |done].
    simpl in *. rewrite <- andb_assoc. by rewrite Hglobal, Hgroup.
  - intros [Hlen (key & entry & Hin & Hkey & ->)]. split; [|done].
    exists (key, entry). split; [done|].
    apply list_elem_of_In, filter_In. rewrite <- andb_assoc in Hkey.
    apply andb_prop in Hkey as [Hglobal Hgroup].
    split; [|done]. apply filter_In. split; [|done].
    by apply list_elem_of_In.
Qed.

(** X29. The session recipients are distinct numbers, most recently
    used first. Each has more than one character and comes from an
    entry last reached over WhatsApp whose key is not a group, cron,
    global or unknown key; every such entry is represented by a
    recipient with its number that is at least as recent. With the
    global scope there are none. *)
Theorem session_recipients_distinct_by_recency (sc : SessionConfig)
    (entries : list (jstring * SessionEntry)) :
  let result := getSessionRecipients sc entries in
  NoDup (map r_to result)
  ∧ byRecency result
  ∧ (∀ r, r ∈ result →
       (1 < length (r_to r))%nat
       ∧ ∃ key entry, (key, entry) ∈ entries ∧ isPersonKey key = true
                      ∧ se_lastChannel entry = Some (str "whatsapp")
                      ∧ r = recipientOf entry)
  ∧ (default (str "per-sender") (sc_scope sc) = str "global" → result = [])
  ∧ (default (str "per-sender") (sc_scope sc) ≠ str "global" →
     ∀ key entry, (key, entry) ∈ entries → isPersonKey key = true →
       (1 < length (r_to (recipientOf entry)))%nat →
       ∃ r, r ∈ result ∧ r_to r = r_to (recipientOf entry)
            ∧ r_updatedAt (recipientOf entry) ≤ r_updatedAt r).
Proof.
  unfold getSessionRecipients. cbv zeta. unfold jstring_eqb.
  destruct (bool_decide (default (str "per-sender") (sc_scope sc)
                         = str "global")) eqn:Hscope.
  - apply bool_decide_eq_true in Hscope.
    split_and!.
    + constructor.
    + constructor.
    + intros x Hx. by apply not_elem_of_nil in Hx.
    + done.
    + done.
  - apply bool_decide_eq_false in Hscope.
    pose proof (sortByRecency_sorted (candidates entries)) as Hsorted.
    split_and!.
    + apply dedupe_NoDup.
    + by apply dedupe_sorted.
    + intros x Hx. apply dedupe_elem in Hx as [Hx _].
      apply sortByRecency_elem, candidates_elem in Hx
        as [Hlen (key & entry & Hin & Hkey & ->)].
      split; [done|]. exists key, entry. split_and!; try done.
      unfold recipientOf in Hlen. cbn [r_to] in Hlen.
      destruct (bool_decide (se_lastChannel entry = Some (str "whatsapp")))
        eqn:Hch; [by apply bool_decide_eq_true in Hch|].
      simpl in Hlen. lia.
    + done.
    + intros _ key entry Hin Hkey Hlen.
      apply (dedupe_complete _ Hsorted []).
      * apply sortByRecency_elem, candidates_elem. split; [done|]. eauto.
      * apply not_elem_of_nil.
Qed.

Lemma session_recipients_facts (sc : SessionConfig)
    (entries : list (jstring * SessionEntry)) :
  NoDup (map r_to (getSessionRecipients sc entries))
  ∧ ∀ r, r ∈ getSessionRecipients sc entries → (1 < length (r_to r))%nat.
Proof.
  unfold getSessionRecipients. cbv zeta.
  destruct (jstring_eqb _ _).
  - split; [constructor|]. intros x Hx. by apply not_elem_of_nil in Hx.
  - split; [apply dedupe_NoDup|].
    intros x Hx. apply dedupe_elem in Hx as [Hx _].
    by apply sortByRecency_elem, candidates_elem in Hx as [Hlen _].
Qed.

Lemma unique_elem (l : list jstring) :
  ∀ seen x, x ∈ unique seen l ↔ x ∈ l ∧ truthy x = true ∧ x ∉ seen.
Proof.
  induction l as [|y l IH]; intros seen x; simpl.
  - split; [intros H; by apply not_elem_of_nil in H|].
    intros [H _]. by apply not_elem_of_nil in H.
  - destruct (truthy y) eqn:Hy; cbn [negb orb].
    + destruct (bool_decide (y ∈ seen)) eqn:Hseen.
      * apply bool_decide_eq_true in Hseen. rewrite IH, elem_of_cons.
        split; [tauto|]. intros [[->|Hx] [Ht Hns]]; [done|tauto].
      * apply bool_decide_eq_false in Hseen.
        rewrite !elem_of_cons, IH, not_elem_of_cons.
        split.
        -- intros [->|(Hx & Ht & Hne & Hns)]; [tauto|tauto].
        -- intros [[->|Hx] [Ht Hns]]; [by left|].
           destruct (decide (x = y)) as [->|Hne]; [by left|]. right. tauto.
    + rewrite IH, elem_of_cons. split; [tauto|].
      intros [[->|Hx] [Ht Hns]]; [congruence|tauto].
Qed.

Lemma unique_NoDup (l : list jstring) : ∀ seen, NoDup (unique seen l).
Proof.
  induction l as [|y l IH]; intros seen; simpl; [constructor|].
  destruct (negb (truthy y) || bool_decide (y ∈ seen)); [apply IH|].
  apply NoDup_cons. split; [|apply IH].
  rewrite unique_elem. intros (_ & _ & Hns). apply Hns. by left.
Qed.

(** X30. Resolving the recipients without a [to] flag. With [all],
    the list has no duplicate and no empty string and holds every
    session recipient. Without it, session recipients win over the
    allow-list: when there are any, they are the result (one: a single
    session; more: ambiguous); only when there are none is the
    allow-list used, without its wildcard and without deduplication. *)
Theorem heartbeat_recipients_resolved (sc : SessionConfig)
    (allowFrom : option (list jstring))
    (entries : list (jstring * SessionEntry)) (opt_all : bool) :
  let session := map r_to (getSessionRecipients sc entries) in
  let resolved :=
    resolveHeartbeatRecipients sc allowFrom entries None opt_all in
  (opt_all = true →
   resolved.2 = FromAll
   ∧ NoDup resolved.1
   ∧ Forall (fun x => truthy x = true) resolved.1
   ∧ ∀ x, x ∈ session → x ∈ resolved.1)
  ∧ (opt_all = false → session ≠ [] →
     resolved.1 = session ∧ NoDup resolved.1
     ∧ (resolved.2 = SessionSingle ↔ length session = 1%nat))
  ∧ (opt_all = false → session = [] →
     resolved.2 = FromAllowFrom
     ∧ resolved.1
       = map normalizeE164
           (List.filter (fun v => negb (jstring_eqb v (str "*")))
              (default [] allowFrom))).
Proof.
  cbv zeta. unfold resolveHeartbeatRecipients. cbn [truthy_opt].
  pose proof (session_recipients_facts sc entries) as (Hnd & Hlen).
  destruct opt_all; cbn [fst snd].
  - split_and!; try done. intros _. split_and!.
    + done.
    + apply unique_NoDup.
    + apply Forall_forall. intros x Hx. by apply unique_elem in Hx as (_ & ? & _).
    + intros x Hx. apply unique_elem. split_and!.
      * apply elem_of_app. by left.
      * apply list_elem_of_fmap in Hx as (r & -> & Hr).
        specialize (Hlen r Hr). destruct (r_to r); [simpl in Hlen; lia|done].
      * apply not_elem_of_nil.
  - split_and!; try done.
    + intros _ Hne.
      destruct (getSessionRecipients sc entries) as [|r [|r' l]] eqn:Hs.
      * done.
      * cbn. split_and!; [done|exact Hnd|done].
      * cbn [fst snd]. split_and!; [done|exact Hnd|]. split; [done|].
        simpl. lia.
    + intros _ Hnil.
      destruct (getSessionRecipients sc entries) as [|r l];
        [|discriminate Hnil].
      cbn [fst snd]. split; [done|]. by destruct allowFrom as [[|e l]|].
Qed.

End Recipients.

Lemma heartbeat_token_reply_keeps_session_idle_witness :
  (runWebHeartbeatOnce (Ext := Sample.sampleExternals)
     (SExt := Scenario.sampleSessionExternals) Scenario.perSender
     Scenario.plainHeartbeat 1000 Scenario.busyTokenResolver
     (fun _ _ => None) (fun _ => None) Scenario.oneSession).1.2
    !! str "+1" ≫= se_updatedAt
  = Some 5.
Proof.
  destruct (heartbeat_token_reply_keeps_session_idle
              (Ext := Sample.sampleExternals)
              (SExt := Scenario.sampleSessionExternals) Scenario.perSender
              Scenario.plainHeartbeat 1000 Scenario.busyTokenResolver
              (fun _ _ => None) (fun _ => None) Scenario.oneSession
              (<[str "+1" := Scenario.sessionAt 99]> Scenario.oneSession)
              (ReplyOne (Sample.textPayload (str "HEARTBEAT_OK")))
              (Scenario.sessionAt 5) (Scenario.sessionAt 99))
    as [Hok _].
  - reflexivity.
  - reflexivity.
  - vm_compute. reflexivity.
  - reflexivity.
  - vm_compute. reflexivity.
  - exists (Sample.textPayload (str "HEARTBEAT_OK")). repeat split; reflexivity.
  - destruct (Hok eq_refl) as (_ & _ & Hkept & _). exact Hkept.
Defined.

Lemma heartbeat_with_session_id_touches_session_witness :
  (runWebHeartbeatOnce (Ext := Sample.sampleExternals)
     (SExt := Scenario.sampleSessionExternals) Scenario.perSender
     Scenario.heartbeatWithSession 1000 Scenario.tokenResolver
     (fun _ _ => None) (fun _ => None) Scenario.oneSession).1.2
    !! str "+1" ≫= se_updatedAt
  = Some 1000.
Proof.
  destruct (heartbeat_with_session_id_touches_session
              (Ext := Sample.sampleExternals)
              (SExt := Scenario.sampleSessionExternals) Scenario.perSender
              Scenario.heartbeatWithSession 1000 Scenario.tokenResolver
              (fun _ _ => None) (fun _ => None) Scenario.oneSession
              (ReplyOne (Sample.textPayload (str "HEARTBEAT_OK")))
              (str "s1"))
    as (Hok & _ & _).
  - reflexivity.
  - reflexivity.
  - reflexivity.
  - reflexivity.
  - intros store0 Hnow. exists store0.
    destruct (store0 !! snapshotKey (H := Scenario.sampleSessionExternals)
                           Scenario.perSender
                           (opt_to Scenario.heartbeatWithSession))
      as [current|] eqn:Hcur; [|discriminate Hnow].
    exists current. split; reflexivity.
  - exists (Sample.textPayload (str "HEARTBEAT_OK")). repeat split; reflexivity.
  - destruct (Hok eq_refl eq_refl) as (_ & _ & Htouched). exact Htouched.
Defined.

Lemma blank_override_rejected_before_sending_witness :
  (runWebHeartbeatOnce (Ext := Sample.sampleExternals)
     (SExt := Scenario.sampleSessionExternals) Scenario.perSender
     Scenario.blankOverride 1000 Scenario.tokenResolver
     (fun _ _ => None) (fun _ => None) Scenario.oneSession).2
  = [].
Proof.
  destruct (blank_override_rejected_before_sending
              (Ext := Sample.sampleExternals)
              (SExt := Scenario.sampleSessionExternals) Scenario.perSender
              Scenario.blankOverride 1000 Scenario.tokenResolver
              (fun _ _ => None) (fun _ => None) Scenario.oneSession
              (str "  "))
    as [Hlog _]; [reflexivity..|exact Hlog].
Defined.
